(** * Book Library API: the borrow/return handlers and their store

    A shallow embedding of [src/handlers/common/response.js] (the helper
    module and the book handlers [borrowBook], [returnBook] and
    [createBook]) and of [getUser] of the users handler, together with the
    part of the DynamoDB document store the handlers talk to.

    - JavaScript numbers are integers or [NaN]; strings are [string].
    - The three tables are the state: books and users are finite maps keyed
      by their primary key, the borrowing table is a list of items in the
      order in which the store's index query hands them back.  Where the
      index files a new item is the store's choice, a part of the state
      that no handler reads or writes.
    - A handler is a finite tree of store requests ([proc]); it is run
      either alone ([run]) or interleaved with other handlers
      ([sched_run]), one store request at a time. *)

From stdpp Require Import gmap strings list.
From Stdlib Require Import ZArith Ascii String.

Local Open Scope string_scope.
Local Open Scope Z_scope.

(** ** JavaScript values used by the helpers *)

Module Js.

(** A JavaScript number as far as these handlers produce one: an integer
    or [NaN].  JavaScript holds an integer exactly below 2^53 and rounds it
    beyond; the operations below are those of JavaScript as long as their
    arguments and results stay below that. *)
Inductive num :=
| NaN
| Num (z : Z).

Definition max (a b : num) : num :=
  match a, b with
  | Num x, Num y => Num (Z.max x y)
  | _, _ => NaN
  end.

Definition min (a b : num) : num :=
  match a, b with
  | Num x, Num y => Num (Z.min x y)
  | _, _ => NaN
  end.

Definition sub (a b : num) : num :=
  match a, b with
  | Num x, Num y => Num (x - y)
  | _, _ => NaN
  end.

Definition mul (a b : num) : num :=
  match a, b with
  | Num x, Num y => Num (x * y)
  | _, _ => NaN
  end.

Definition code (c : ascii) : Z := Z.of_nat (nat_of_ascii c).

Definition is_digit (c : ascii) : bool :=
  (48 <=? code c) && (code c <=? 57).

Definition is_alnum (c : ascii) : bool :=
  is_digit c
  || ((65 <=? code c) && (code c <=? 90))
  || ((97 <=? code c) && (code c <=? 122)).

(** White space skipped by [parseInt] (the ASCII part of it). *)
Definition is_space (c : ascii) : bool :=
  ((9 <=? code c) && (code c <=? 13)) || (code c =? 32).

Fixpoint skip_space (s : string) : string :=
  match s with
  | String c r => if is_space c then skip_space r else s
  | EmptyString => s
  end.

(** Value of the longest prefix of decimal digits; [None] when there is
    no digit at all. *)
Fixpoint digits (s : string) (acc : option Z) : option Z :=
  match s with
  | String c r =>
      if is_digit c
      then digits r (Some (10 * default 0 acc + (code c - 48)))
      else acc
  | EmptyString => acc
  end.

(** [parseInt(s, 10)]: the integer that the decimal digits after the white
    space and the sign spell, [NaN] when there is no digit.  On a string of
    ASCII characters [is_space] is all the white space JavaScript skips. *)
Definition parseInt (s : string) : num :=
  let t := skip_space s in
  let '(sign, u) :=
    match t with
    | String "-" r => (-1, r)
    | String "+" r => (1, r)
    | _ => (1, t)
    end in
  match digits u None with
  | Some v => Num (sign * v)
  | None => NaN
  end.

(** [x || d] for an optional string: [undefined] and [''] are falsy. *)
Definition or_str (x : option string) (d : string) : string :=
  match x with
  | Some s => if bool_decide (s = "") then d else s
  | None => d
  end.

(** [x || d] for an optional number: [undefined] and [0] are falsy. *)
Definition or_num (x : option Z) (d : Z) : Z :=
  match x with
  | Some n => if n =? 0 then d else n
  | None => d
  end.

(** [!x] for an optional string. *)
Definition falsy (x : option string) : bool :=
  match x with
  | Some s => bool_decide (s = "")
  | None => true
  end.

Fixpoint all_alnum (s : string) : bool :=
  match s with
  | String c r => is_alnum c && all_alnum r
  | EmptyString => true
  end.

Fixpoint strip_prefix (p s : string) : option string :=
  match p, s with
  | EmptyString, _ => Some s
  | String a p', String b s' =>
      if bool_decide (a = b) then strip_prefix p' s' else None
  | String _ _, EmptyString => None
  end.

(** [s.match(/^<p>[a-zA-Z0-9]{6}$/)] is not null. *)
Definition match_id (p s : string) : bool :=
  match strip_prefix p s with
  | Some r => bool_decide (String.length r = 6%nat) && all_alnum r
  | None => false
  end.

End Js.

(** ** The request event and the response *)

Record Body := {
  userId : option string;
  durationDays : option Z
}.

(** [body] is the result of [JSON.parse(event.body)]: [None] when the
    text is not JSON and [JSON.parse] throws, [Some None] when it parses to
    [null] (as the [null] body of a request without one does), and
    [Some (Some b)] when it parses to a value with the properties of [b].
    [pathParameters] is [None] when the gateway passes [null]. *)
Record Event := {
  headers : gmap string string;
  queryStringParameters : option (gmap string string);
  pathParameters : option (gmap string string);
  body : option (option Body)
}.

Inductive Status := active | returned | overdue.

#[global] Instance Status_eq_dec : EqDecision Status.
Proof. solve_decision. Defined.

Record BorrowingRecord := {
  br_id : string;
  br_userId : string;
  br_bookId : string;
  br_bookTitle : string;
  br_borrowedAt : Z;
  br_dueDate : Z;
  br_status : Status;
  br_returnedAt : option Z;
  br_createdAt : Z;
  br_updatedAt : option Z
}.

(** The JSON body of a response.  The CORS and rate-limit headers and the
    timestamp of an error body are left out: nothing below observes them. *)
Inductive ResponseBody :=
| ErrorBody (error message : string) (details : option (string * string))
| BorrowedBody (id userId bookId : string) (borrowedAt dueDate : Z)
               (status : Status)
| ReturnedBody (id userId bookId : string) (borrowedAt dueDate returnedAt : Z)
               (status : Status).

Record Response := {
  statusCode : Z;
  responseBody : ResponseBody
}.

Record Pagination := {
  page : Js.num;
  limit : Js.num;
  offset : Js.num
}.

(** ** response.js *)

(** [generateId(prefix)]; [hex] is the hexadecimal rendering of the three
    random bytes. *)
Definition generateId (prefix hex : string) : string :=
  prefix +:+ "_" +:+ hex.

Definition createResponse (code : Z) (b : ResponseBody) : Response :=
  {| statusCode := code; responseBody := b |}.

Definition createErrorResponse (code : Z) (errorCode message : string)
    (details : option (string * string)) : Response :=
  createResponse code (ErrorBody errorCode message details).

Definition unauthorized : Response :=
  createErrorResponse 401 "UNAUTHORIZED" "Missing or invalid API key" None.

(** [validateApiKey(event)]: [None] is [{ isValid: true }], [Some e] carries
    the error response.  [API_KEY_VALUE] is the environment variable. *)
Definition validateApiKey (API_KEY_VALUE : option string) (event : Event)
    : option Response :=
  let apiKey :=
    if Js.falsy (headers event !! "X-API-Key")
    then headers event !! "x-api-key"
    else headers event !! "X-API-Key" in
  if Js.falsy apiKey then Some unauthorized
  else
    let validApiKey := Js.or_str API_KEY_VALUE "test-api-key" in
    if bool_decide (apiKey = Some validApiKey) then None
    else Some unauthorized.

Definition query_param (event : Event) (name : string) : option string :=
  match queryStringParameters event with
  | Some q => q !! name
  | None => None
  end.

Definition parsePaginationParams (event : Event) : Pagination :=
  let page := Js.parseInt (Js.or_str (query_param event "page") "1") in
  let limit := Js.parseInt (Js.or_str (query_param event "limit") "20") in
  let validPage := Js.max (Js.Num 1) page in
  let validLimit := Js.max (Js.Num 1) (Js.min (Js.Num 100) limit) in
  {| page := validPage;
     limit := validLimit;
     offset := Js.mul (Js.sub validPage (Js.Num 1)) validLimit |}.

(** ** The document store

    Of a book and of a user only the attributes the two handlers read or
    write are kept; the others (isbn, author, email, ...) are carried along
    unchanged by every write below.  A timestamp is a number of milliseconds
    (the handlers store its ISO-8601 rendering). *)

Record Book := {
  title : string;
  totalCopies : Z;
  availableCopies : Z;
  book_updatedAt : Z
}.

Record User := {
  borrowingLimit : Z;
  currentBorrowedCount : Z;
  user_updatedAt : Z
}.

(** [borrowing] lists the items of the borrowing table in the order in
    which a query of [UserIndex] returns items with equal index keys.  That
    order is the store's business, not the handlers': [index_slot r tbl] is
    the position at which the store files the new item [r] among the items
    [tbl] it holds.  Nothing below fixes it: a statement about every store
    holds for every such order. *)
Record Store := {
  books : gmap string Book;
  users : gmap string User;
  borrowing : list BorrowingRecord;
  index_slot : BorrowingRecord -> list BorrowingRecord -> nat
}.

Definition set_books (f : gmap string Book -> gmap string Book) (s : Store)
    : Store :=
  {| books := f (books s); users := users s; borrowing := borrowing s;
     index_slot := index_slot s |}.

Definition set_users (f : gmap string User -> gmap string User) (s : Store)
    : Store :=
  {| books := books s; users := f (users s); borrowing := borrowing s;
     index_slot := index_slot s |}.

Definition set_borrowing
    (f : list BorrowingRecord -> list BorrowingRecord) (s : Store) : Store :=
  {| books := books s; users := users s; borrowing := f (borrowing s);
     index_slot := index_slot s |}.

(** The four writes the handlers put into a transaction.  [condition] is
    the [ConditionExpression] of an update: [Some z] stands for
    [<counter> > z], [None] for no condition. *)
Inductive TransactItem :=
| PutBorrowing (item : BorrowingRecord)
| UpdateBorrowing (id : string) (status : Status) (timestamp : Z)
| UpdateBook (id : string) (delta : Z) (condition : option Z) (timestamp : Z)
| UpdateUser (id : string) (delta : Z) (condition : option Z) (timestamp : Z).

(** [Put]: an item with the same primary key is replaced; a new item is
    filed at the position the store chooses (after the last item when the
    position is beyond it). *)
Fixpoint replace_record (r : BorrowingRecord) (tbl : list BorrowingRecord)
    : list BorrowingRecord :=
  match tbl with
  | [] => []
  | x :: t =>
      if bool_decide (br_id x = br_id r) then r :: t
      else x :: replace_record r t
  end.

Definition insert_at (n : nat) (r : BorrowingRecord)
    (tbl : list BorrowingRecord) : list BorrowingRecord :=
  (take n tbl ++ r :: drop n tbl)%list.

Definition put_record (slot : BorrowingRecord -> list BorrowingRecord -> nat)
    (r : BorrowingRecord) (tbl : list BorrowingRecord)
    : list BorrowingRecord :=
  if bool_decide (br_id r ∈ br_id <$> tbl)
  then replace_record r tbl
  else insert_at (slot r tbl) r tbl.

(** [SET #status = :status, returnedAt = :timestamp, updatedAt = :timestamp] *)
Definition set_status (st : Status) (ts : Z) (r : BorrowingRecord)
    : BorrowingRecord :=
  {| br_id := br_id r; br_userId := br_userId r; br_bookId := br_bookId r;
     br_bookTitle := br_bookTitle r; br_borrowedAt := br_borrowedAt r;
     br_dueDate := br_dueDate r; br_status := st;
     br_returnedAt := Some ts; br_createdAt := br_createdAt r;
     br_updatedAt := Some ts |}.

(** The update of the item with key [id].  For an absent key the store
    would create an item with the three attributes set and no [userId]: an
    item no index query of the handlers can return, so the table is left as
    it is. *)
Definition update_record (id : string) (st : Status) (ts : Z)
    (tbl : list BorrowingRecord) : list BorrowingRecord :=
  (fun x => if bool_decide (br_id x = id) then set_status st ts x else x)
    <$> tbl.

Definition holds (condition : option Z) (v : Z) : bool :=
  match condition with
  | Some z => z <? v
  | None => true
  end.

Definition add_copies (delta ts : Z) (b : Book) : Book :=
  {| title := title b; totalCopies := totalCopies b;
     availableCopies := availableCopies b + delta; book_updatedAt := ts |}.

Definition add_borrowed (delta ts : Z) (u : User) : User :=
  {| borrowingLimit := borrowingLimit u;
     currentBorrowedCount := currentBorrowedCount u + delta;
     user_updatedAt := ts |}.

(** One write of a transaction; [None] cancels it.  A counter update of an
    absent item is cancelled as well: its condition is false, and without a
    condition the [SET] expression reads an attribute that is not there. *)
Definition apply_item (it : TransactItem) (s : Store) : option Store :=
  match it with
  | PutBorrowing r => Some (set_borrowing (put_record (index_slot s) r) s)
  | UpdateBorrowing id st ts => Some (set_borrowing (update_record id st ts) s)
  | UpdateBook id delta c ts =>
      match books s !! id with
      | Some b =>
          if holds c (availableCopies b)
          then Some (set_books <[id := add_copies delta ts b]> s)
          else None
      | None => None
      end
  | UpdateUser id delta c ts =>
      match users s !! id with
      | Some u =>
          if holds c (currentBorrowedCount u)
          then Some (set_users <[id := add_borrowed delta ts u]> s)
          else None
      | None => None
      end
  end.

(** [transactWrite]: all writes or none.  The writes of one transaction of
    the handlers go to three different tables, so applying them in turn
    checks every condition against the state before the transaction. *)
Fixpoint transactWrite (items : list TransactItem) (s : Store)
    : option Store :=
  match items with
  | [] => Some s
  | it :: rest =>
      match apply_item it s with
      | Some s' => transactWrite rest s'
      | None => None
      end
  end.

(** [query] on [UserIndex] with key [userId = u AND status = st] and filter
    [bookId = b]. *)
Definition matches (u : string) (st : Status) (b : string)
    (r : BorrowingRecord) : bool :=
  bool_decide (br_userId r = u) && bool_decide (br_status r = st)
  && bool_decide (br_bookId r = b).

Definition query_UserIndex (u : string) (st : Status) (b : string)
    (s : Store) : list BorrowingRecord :=
  List.filter (matches u st b) (borrowing s).

(** ** Handlers as trees of store requests *)

(** A handler awaits one store request after the other; the continuation
    receives the store's answer.  [TransactWrite] answers [false] when the
    store throws [TransactionCanceledException]. *)
Inductive proc :=
| Ret (r : Response)
| GetBook (id : string) (k : option Book -> proc)
| GetUser (id : string) (k : option User -> proc)
| QueryUserIndex (u : string) (st : Status) (b : string)
                 (k : list BorrowingRecord -> proc)
| TransactWrite (items : list TransactItem) (k : bool -> proc).

Inductive StoreOp :=
| OpGetBook (id : string)
| OpGetUser (id : string)
| OpQuery (u : string) (st : Status) (b : string)
| OpTransactWrite (items : list TransactItem) (committed : bool).

(** One store request of a handler, performed atomically. *)
Definition step (p : proc) (s : Store) : proc * Store :=
  match p with
  | Ret r => (Ret r, s)
  | GetBook id k => (k (books s !! id), s)
  | GetUser id k => (k (users s !! id), s)
  | QueryUserIndex u st b k => (k (query_UserIndex u st b s), s)
  | TransactWrite items k =>
      match transactWrite items s with
      | Some s' => (k true, s')
      | None => (k false, s)
      end
  end.

(** A handler run alone, from its first request to its response. *)
Fixpoint run (p : proc) (s : Store) : Response * Store :=
  match p with
  | Ret r => (r, s)
  | GetBook id k => run (k (books s !! id)) s
  | GetUser id k => run (k (users s !! id)) s
  | QueryUserIndex u st b k => run (k (query_UserIndex u st b s)) s
  | TransactWrite items k =>
      match transactWrite items s with
      | Some s' => run (k true) s'
      | None => run (k false) s
      end
  end.

(** The store requests of that run, in order. *)
Fixpoint trace (p : proc) (s : Store) : list StoreOp :=
  match p with
  | Ret r => []
  | GetBook id k => OpGetBook id :: trace (k (books s !! id)) s
  | GetUser id k => OpGetUser id :: trace (k (users s !! id)) s
  | QueryUserIndex u st b k =>
      OpQuery u st b :: trace (k (query_UserIndex u st b s)) s
  | TransactWrite items k =>
      match transactWrite items s with
      | Some s' => OpTransactWrite items true :: trace (k true) s'
      | None => OpTransactWrite items false :: trace (k false) s
      end
  end.

(** A handler run while other clients write to the store: before each of
    its requests the next transformation of [env] is applied.  [shadow] is
    the store the same transformations produce without the handler. *)
Fixpoint run_env (p : proc) (env : list (Store -> Store))
    (s shadow : Store) : Response * Store * Store :=
  let f := default id (head env) in
  match p with
  | Ret r => (r, s, shadow)
  | GetBook id k =>
      run_env (k (books (f s) !! id)) (tail env) (f s) (f shadow)
  | GetUser id k =>
      run_env (k (users (f s) !! id)) (tail env) (f s) (f shadow)
  | QueryUserIndex u st b k =>
      run_env (k (query_UserIndex u st b (f s))) (tail env) (f s) (f shadow)
  | TransactWrite items k =>
      match transactWrite items (f s) with
      | Some s' => run_env (k true) (tail env) s' (f shadow)
      | None => run_env (k false) (tail env) (f s) (f shadow)
      end
  end.

(** Concurrent handlers: [sched] names, step by step, the handler of the
    pool that performs its next store request. *)
Fixpoint sched_run (sched : list nat) (ps : list proc) (s : Store)
    : list proc * Store :=
  match sched with
  | [] => (ps, s)
  | i :: rest =>
      match ps !! i with
      | Some p =>
          let '(p', s') := step p s in
          sched_run rest (<[i := p']> ps) s'
      | None => sched_run rest ps s
      end
  end.

Definition response_of (p : proc) : option Response :=
  match p with
  | Ret r => Some r
  | _ => None
  end.

(** ** The book handlers *)

Definition bad_request (field reason : string) : Response :=
  createErrorResponse 400 "BAD_REQUEST" "Invalid request parameters"
    (Some (field, reason)).

Definition not_found : Response :=
  createErrorResponse 404 "NOT_FOUND" "The requested resource was not found"
    None.

Definition conflict (message : string) : Response :=
  createErrorResponse 409 "CONFLICT" message None.

Definition internal_error : Response :=
  createErrorResponse 500 "INTERNAL_SERVER_ERROR"
    "An unexpected error occurred" None.

(** [!x || !x.match(/^<p>[a-zA-Z0-9]{6}$/)] *)
Definition invalid_id (p : string) (x : option string) : bool :=
  Js.falsy x || negb (Js.match_id p (default "" x)).

(** [d.setDate(d.getDate() + days)] on a UTC clock, as a number of
    milliseconds. *)
Definition day_ms : Z := 86400000.

Definition add_days (t days : Z) : Z := t + days * day_ms.

(** The time values a [Date] holds: at most 8.64e15 milliseconds from the
    epoch, on either side.  [setDate] leaves an invalid [Date] when the new
    time value is beyond, and [toISOString] throws a [RangeError] on an
    invalid [Date]. *)
Definition max_time : Z := 8640000000000000.

Definition valid_time (t : Z) : bool := (- max_time <=? t) && (t <=? max_time).

Section Handlers.

(** The environment variable read by [validateApiKey]. *)
Variable API_KEY_VALUE : option string.

(** [timestamp] is the value of [new Date()], the reading of the clock
    (always a valid time value); [hex] is the random part of the generated
    identifier. *)
Variables (timestamp : Z) (hex : string).

(** *** borrowBook *)

Definition new_record (bookId userId : string) (durationDays : Z)
    (book : Book) : BorrowingRecord :=
  {| br_id := generateId "brw" hex;
     br_userId := userId;
     br_bookId := bookId;
     br_bookTitle := title book;
     br_borrowedAt := timestamp;
     br_dueDate := add_days timestamp durationDays;
     br_status := active;
     br_returnedAt := None;
     br_createdAt := timestamp;
     br_updatedAt := None |}.

Definition borrow_items (borrowingRecord : BorrowingRecord)
    (bookId userId : string) : list TransactItem :=
  [ PutBorrowing borrowingRecord;
    UpdateBook bookId (-1) (Some 0) timestamp;
    UpdateUser userId 1 None timestamp ].

(** After [transactWrite]: the response, or the [catch] branch. *)
Definition borrow_done (borrowingRecord : BorrowingRecord)
    (committed : bool) : proc :=
  if committed then
    Ret (createResponse 200
           (BorrowedBody (br_id borrowingRecord)
              (br_userId borrowingRecord) (br_bookId borrowingRecord)
              (br_borrowedAt borrowingRecord) (br_dueDate borrowingRecord)
              (br_status borrowingRecord)))
  else Ret (conflict "Unable to borrow book - please try again").

(** After the read of the user.  Building the record calls
    [dueDate.toISOString()], which throws when [setDate] has left the range
    of [Date]; the [catch] branch answers 500. *)
Definition borrow_user (bookId userId : string) (durationDays : Z)
    (book : Book) (userResult : option User) : proc :=
  match userResult with
  | None => Ret not_found
  | Some user =>
      if borrowingLimit user <=? currentBorrowedCount user
      then Ret (conflict "User has reached borrowing limit")
      else if valid_time (add_days timestamp durationDays)
      then
        let borrowingRecord :=
          new_record bookId userId durationDays book in
        TransactWrite (borrow_items borrowingRecord bookId userId)
          (borrow_done borrowingRecord)
      else Ret internal_error
  end.

(** After the read of the book. *)
Definition borrow_book (bookId userId : string) (durationDays : Z)
    (bookResult : option Book) : proc :=
  match bookResult with
  | None => Ret not_found
  | Some book =>
      if availableCopies book <=? 0
      then Ret (conflict "This book is not available for borrowing")
      else GetUser userId (borrow_user bookId userId durationDays book)
  end.

(** Inside [try]: [event.pathParameters.bookId] and [JSON.parse] throw
    first, then the book identifier is checked, and only then [body.userId]
    is read, which throws when the body is [null]. *)
Definition borrowBook (event : Event) : proc :=
  match validateApiKey API_KEY_VALUE event with
  | Some error => Ret error
  | None =>
      match pathParameters event, body event with
      | Some params, Some body =>
          let bookId := params !! "bookId" in
          if invalid_id "bk_" bookId
          then Ret (bad_request "bookId" "Invalid book ID format")
          else
            match body with
            | None => Ret internal_error
            | Some body =>
                if invalid_id "usr_" (userId body)
                then Ret (bad_request "userId" "Invalid user ID format")
                else
                  let durationDays := Js.or_num (durationDays body) 14 in
                  GetBook (default "" bookId)
                    (borrow_book (default "" bookId)
                       (default "" (userId body)) durationDays)
            end
      | _, _ => Ret internal_error
      end
  end.

(** *** returnBook *)

Definition return_items (recordId bookId userId : string)
    : list TransactItem :=
  [ UpdateBorrowing recordId returned timestamp;
    UpdateBook bookId 1 None timestamp;
    UpdateUser userId (-1) (Some 0) timestamp ].

Definition return_done (borrowingRecord : BorrowingRecord)
    (committed : bool) : proc :=
  if committed then
    Ret (createResponse 200
           (ReturnedBody (br_id borrowingRecord)
              (br_userId borrowingRecord) (br_bookId borrowingRecord)
              (br_borrowedAt borrowingRecord) (br_dueDate borrowingRecord)
              timestamp returned))
  else Ret (conflict "Unable to return book - please try again").

(** After the index query: [Items[0]] is the record returned. *)
Definition return_record (bookId userId : string)
    (Items : list BorrowingRecord) : proc :=
  match Items with
  | [] =>
      Ret (createErrorResponse 404 "NOT_FOUND"
             "No active borrowing record found" None)
  | borrowingRecord :: _ =>
      TransactWrite (return_items (br_id borrowingRecord) bookId userId)
        (return_done borrowingRecord)
  end.

Definition returnBook (event : Event) : proc :=
  match validateApiKey API_KEY_VALUE event with
  | Some error => Ret error
  | None =>
      match pathParameters event, body event with
      | Some params, Some body =>
          let bookId := params !! "bookId" in
          if invalid_id "bk_" bookId
          then Ret (bad_request "bookId" "Invalid book ID format")
          else
            match body with
            | None => Ret internal_error
            | Some body =>
                if invalid_id "usr_" (userId body)
                then Ret (bad_request "userId" "Invalid user ID format")
                else
                  QueryUserIndex (default "" (userId body)) active
                    (default "" bookId)
                    (return_record (default "" bookId)
                       (default "" (userId body)))
            end
      | _, _ => Ret internal_error
      end
  end.

End Handlers.

(** ** Sequences of operations and the consistency of a store *)

Inductive Request :=
| Borrow (event : Event) (timestamp : Z) (hex : string)
| Return (event : Event) (timestamp : Z).

Definition handler (key : option string) (r : Request) : proc :=
  match r with
  | Borrow event timestamp hex => borrowBook key timestamp hex event
  | Return event timestamp => returnBook key timestamp event
  end.

(** The requests served one after the other. *)
Fixpoint run_all (key : option string) (rs : list Request) (s : Store)
    : Store :=
  match rs with
  | [] => s
  | r :: rest => run_all key rest (run (handler key r) s).2
  end.

(** A request that passes the handler's own checks: the API key is the
    configured one, the path carries the book identifier [b], the body
    carries the user identifier [u] and the optional duration [dd], and
    both identifiers have the required shape. *)
Definition accepted (key : option string) (event : Event) (b u : string)
    (dd : option Z) : Prop :=
  validateApiKey key event = None
  /\ exists params bd,
       pathParameters event = Some params
       /\ body event = Some (Some bd)
       /\ params !! "bookId" = Some b
       /\ userId bd = Some u
       /\ durationDays bd = dd
       /\ invalid_id "bk_" (Some b) = false
       /\ invalid_id "usr_" (Some u) = false.

Definition copies (s : Store) (b : string) : option Z :=
  availableCopies <$> books s !! b.

Definition borrowed (s : Store) (u : string) : option Z :=
  currentBorrowedCount <$> users s !! u.

(** [r] is an active loan of book [b] to user [u]. *)
Definition active_loan (u b : string) (r : BorrowingRecord) : Prop :=
  br_userId r = u /\ br_bookId r = b /\ br_status r = active.

Definition active_book (b : string) (r : BorrowingRecord) : bool :=
  bool_decide (br_bookId r = b) && bool_decide (br_status r = active).

Definition active_user (u : string) (r : BorrowingRecord) : bool :=
  bool_decide (br_userId r = u) && bool_decide (br_status r = active).

Definition count (f : BorrowingRecord -> bool) (tbl : list BorrowingRecord)
    : Z :=
  Z.of_nat (List.length (List.filter f tbl)).

Definition book_invariant (s : Store) : Prop :=
  map_Forall
    (fun id b =>
       availableCopies b = totalCopies b - count (active_book id) (borrowing s))
    (books s).

Definition user_invariant (s : Store) : Prop :=
  map_Forall
    (fun id u =>
       currentBorrowedCount u = count (active_user id) (borrowing s)
       /\ currentBorrowedCount u <= borrowingLimit u)
    (users s).

(** [br_id] is the primary key of the borrowing table. *)
Definition keyed (s : Store) : Prop := NoDup (br_id <$> borrowing s).

Definition consistent (s : Store) : Prop :=
  keyed s /\ book_invariant s /\ user_invariant s.

(** Every identifier generated along the sequence is new to the table at
    the moment it is generated. *)
Fixpoint fresh_ids (key : option string) (rs : list Request) (s : Store)
    : Prop :=
  match rs with
  | [] => True
  | r :: rest =>
      match r with
      | Borrow _ _ hex => generateId "brw" hex ∉ br_id <$> borrowing s
      | Return _ _ => True
      end
      /\ fresh_ids key rest (run (handler key r) s).2
  end.

Definition copies_nonneg (s : Store) : Prop :=
  map_Forall (fun _ b => 0 <= availableCopies b) (books s).

#[global] Instance consistent_dec s : Decision (consistent s).
Proof.
  unfold consistent, keyed, book_invariant, user_invariant. apply _.
Defined.

(** Every transaction a handler may still submit keeps a property of the
    store. *)
Fixpoint keeps (P : Store -> Prop) (p : proc) : Prop :=
  match p with
  | Ret _ => True
  | GetBook _ k => forall x, keeps P (k x)
  | GetUser _ k => forall x, keeps P (k x)
  | QueryUserIndex _ _ _ k => forall x, keeps P (k x)
  | TransactWrite items k =>
      (forall s s', P s -> transactWrite items s = Some s' -> P s')
      /\ forall x, keeps P (k x)
  end.

(** ** Two borrowers of one book *)

Definition below_limit (s : Store) (u : string) : Prop :=
  exists usr,
    users s !! u = Some usr
    /\ currentBorrowedCount usr < borrowingLimit usr.

(** How often handler [i] is scheduled. *)
Fixpoint turns (i : nat) (sched : list nat) : nat :=
  match sched with
  | [] => 0
  | j :: rest => ((if bool_decide (j = i) then 1 else 0) + turns i rest)%nat
  end.

(** Where an accepted borrow request stands, with the number of store
    requests it may still make: before the read of the book, before the
    read of the user, before the transaction, at its response. *)
Inductive borrowing_at (ts : Z) (hex b u : string) (dd : Z)
    : nat -> proc -> Prop :=
| at_book :
    borrowing_at ts hex b u dd 3 (GetBook b (borrow_book ts hex b u dd))
| at_user bk :
    borrowing_at ts hex b u dd 2 (GetUser u (borrow_user ts hex b u dd bk))
| at_write bk :
    borrowing_at ts hex b u dd 1
      (TransactWrite
         (borrow_items ts (new_record ts hex b u dd bk) b u)
         (borrow_done (new_record ts hex b u dd bk)))
| at_response r :
    borrowing_at ts hex b u dd 0 (Ret r).

(** [p] has answered 200 and [q], if it has answered, has answered 409. *)
Definition won (p q : proc) : Prop :=
  (exists r, p = Ret r /\ statusCode r = 200)
  /\ forall r, q = Ret r -> statusCode r = 409.

(** The state of a race for the last copy of [b]: either the copy is
    still there, both users are below their limits and neither request has
    answered, or the copy is gone and one request has won. *)
Definition race (b uA uB : string) (nA nB : nat) (pA pB : proc) (s : Store)
    : Prop :=
  is_Some (users s !! uA) /\ is_Some (users s !! uB)
  /\ ((copies s b = Some 1 /\ below_limit s uA /\ below_limit s uB
       /\ (1 <= nA)%nat /\ (1 <= nB)%nat)
      \/ (copies s b = Some 0 /\ (won pA pB \/ won pB pA))).

(** ** A concrete library *)

(** A request, to borrow or to return, with the default API key. *)
Definition request (bookId userId : string) (durationDays : option Z)
    : Event :=
  {| headers := {[ "X-API-Key" := "test-api-key" ]};
     queryStringParameters := None;
     pathParameters := Some {[ "bookId" := bookId ]};
     body :=
       Some (Some {| userId := Some userId; durationDays := durationDays |})
  |}.

(** A list request with the given query string. *)
Definition list_request (query : list (string * string)) : Event :=
  {| headers := {[ "X-API-Key" := "test-api-key" ]};
     queryStringParameters := Some (list_to_map query);
     pathParameters := None;
     body := Some None |}.

Definition book1 : Book :=
  {| title := "Dune"; totalCopies := 1; availableCopies := 1;
     book_updatedAt := 0 |}.

Definition book2 : Book :=
  {| title := "Emma"; totalCopies := 2; availableCopies := 2;
     book_updatedAt := 0 |}.

Definition user1 : User :=
  {| borrowingLimit := 5; currentBorrowedCount := 0; user_updatedAt := 0 |}.

(** A store that lists the items of equal index keys in the order of
    their arrival. *)
Definition at_end (_ : BorrowingRecord) (tbl : list BorrowingRecord) : nat :=
  List.length tbl.

(** One book with its single copy on the shelf, one user, no loan. *)
Definition library : Store :=
  {| books := {[ "bk_000001" := book1 ]};
     users := {[ "usr_000001" := user1 ]};
     borrowing := [];
     index_slot := at_end |}.

(** The first user's request for the first book. *)
Definition borrow1 (durationDays : option Z) : Event :=
  request "bk_000001" "usr_000001" durationDays.

(** The first user's request, to borrow or to return, for a book. *)
Definition ask (bookId : string) : Event :=
  request bookId "usr_000001" None.

(** The same library when the user already holds as many books as the
    limit allows. *)
Definition library_at_limit : Store :=
  set_users (fun _ => {[ "usr_000001" := add_borrowed 5 0 user1 ]}) library.

(** Another client takes the last copy of the first book. *)
Definition take_copy (s : Store) : Store :=
  set_books (fun bs => <["bk_000001" := add_copies (-1) 500 book1]> bs) s.

(** The same library with a second user. *)
Definition library_two_users : Store :=
  set_users (fun us => <["usr_000002" := user1]> us) library.

(** A library with two titles, the second in two copies, and no loan. *)
Definition shelf : Store :=
  {| books := {[ "bk_000001" := book1; "bk_000002" := book2 ]};
     users := {[ "usr_000001" := user1 ]};
     borrowing := [];
     index_slot := at_end |}.

(** The user has borrowed both titles, one after the other. *)
Definition two_loans : Store :=
  run_all None
    [ Borrow (ask "bk_000001") 1000 "00000a";
      Borrow (ask "bk_000002") 2000 "00000b" ]
    shelf.

(** Two return requests for the first title, served concurrently: both
    query the index before either writes. *)
Definition double_return : list proc * Store :=
  sched_run [0; 1; 0; 1]%nat
    [ returnBook None 3000 (ask "bk_000001");
      returnBook None 3001 (ask "bk_000001") ]
    two_loans.

(** The user has borrowed both copies of the second title. *)
Definition same_title_twice : Store :=
  run_all None
    [ Borrow (ask "bk_000002") 1000 "00000b";
      Borrow (ask "bk_000002") 2000 "00000a" ]
    shelf.

(** A loan of the second title to the first user, for 14 days, as
    [borrowBook] writes it. *)
Definition loan_of_emma (id : string) (borrowedAt : Z) : BorrowingRecord :=
  {| br_id := id;
     br_userId := "usr_000001";
     br_bookId := "bk_000002";
     br_bookTitle := "Emma";
     br_borrowedAt := borrowedAt;
     br_dueDate := add_days borrowedAt 14;
     br_status := active;
     br_returnedAt := None;
     br_createdAt := borrowedAt;
     br_updatedAt := None |}.

(** The user holds both copies of the second title, and the index of the
    borrowing table lists the two loans in the order [Items]. *)
Definition both_copies_lent (Items : list BorrowingRecord) : Store :=
  {| books :=
       {[ "bk_000001" := book1;
          "bk_000002" := add_copies (-2) 2000 book2 ]};
     users := {[ "usr_000001" := add_borrowed 2 2000 user1 ]};
     borrowing := Items;
     index_slot := at_end |}.

(** ** The identifiers [generateId] draws *)

(** A hexadecimal digit, in lower case as [toString('hex')] prints it. *)
Definition hex_digit (n : N) : ascii :=
  ascii_of_N (if (n <? 10)%N then 48 + n else 87 + n)%N.

Definition byte_hex (b : Byte.byte) : string :=
  String (hex_digit (Byte.to_N b / 16)%N)
    (String (hex_digit (Byte.to_N b mod 16)%N) EmptyString).

(** [bytes.toString('hex')] *)
Fixpoint to_hex (bs : list Byte.byte) : string :=
  match bs with
  | [] => EmptyString
  | b :: rest => byte_hex b +:+ to_hex rest
  end.

(** [generateId(prefix)] when [crypto.randomBytes(3)] draws [b1 b2 b3]. *)
Definition drawn_id (prefix : string) (b1 b2 b3 : Byte.byte) : string :=
  generateId prefix (to_hex [b1; b2; b3]).

(** The value of a hexadecimal digit, and the byte two digits spell. *)
Definition hex_value (c : ascii) : N :=
  if Js.is_digit c then (N_of_ascii c - 48)%N else (N_of_ascii c - 87)%N.

Definition hex_byte (s : string) : option Byte.byte :=
  match s with
  | String h (String l _) => Byte.of_N (16 * hex_value h + hex_value l)%N
  | _ => None
  end.

(** ** Requests and what they ask for *)

Definition event_of (r : Request) : Event :=
  match r with
  | Borrow event _ _ => event
  | Return event _ => event
  end.

(** ** getUser (users handler) *)

(** An entry of [borrowedBooks]. *)
Record BorrowedBook := {
  bb_bookId : string;
  bb_title : string;
  bb_borrowedAt : Z;
  bb_dueDate : Z
}.

(** The body of a 200 response of [getUser]; as for [User], the attributes
    the book handlers never touch (email, name, ...) are left out. *)
Record UserView := {
  uv_id : string;
  uv_borrowingLimit : Z;
  uv_currentBorrowedCount : Z;
  uv_updatedAt : Z;
  uv_borrowedBooks : list BorrowedBook
}.

Inductive UserResult :=
| UserError (r : Response)
| UserFound (v : UserView).

(** [query] on [UserIndex] with key [userId = u AND status = active] and
    no filter. *)
Definition query_user_loans (u : string) (s : Store) : list BorrowingRecord :=
  List.filter (active_user u) (borrowing s).

Definition borrowed_book (record : BorrowingRecord) : BorrowedBook :=
  {| bb_bookId := br_bookId record;
     bb_title := Js.or_str (Some (br_bookTitle record)) "Unknown Title";
     bb_borrowedAt := br_borrowedAt record;
     bb_dueDate := br_dueDate record |}.

(** [getUser]: the read of the user, then the query of the user's active
    loans, both on the store [s]. *)
Definition getUser (API_KEY_VALUE : option string) (event : Event)
    (s : Store) : UserResult :=
  match validateApiKey API_KEY_VALUE event with
  | Some error => UserError error
  | None =>
      match pathParameters event with
      | Some params =>
          let userId := params !! "userId" in
          if invalid_id "usr_" userId
          then UserError (bad_request "userId" "Invalid user ID format")
          else
            match users s !! default "" userId with
            | None => UserError not_found
            | Some user =>
                let borrowedBooks :=
                  borrowed_book <$> query_user_loans (default "" userId) s in
                UserFound
                  {| uv_id := default "" userId;
                     uv_borrowingLimit := borrowingLimit user;
                     uv_currentBorrowedCount := currentBorrowedCount user;
                     uv_updatedAt := user_updatedAt user;
                     uv_borrowedBooks := borrowedBooks |}
            end
      | None => UserError internal_error
      end
  end.

(** A [getUser] request with the default API key. *)
Definition user_request (userId : string) : Event :=
  {| headers := {[ "X-API-Key" := "test-api-key" ]};
     queryStringParameters := None;
     pathParameters := Some {[ "userId" := userId ]};
     body := Some None |}.

(** Book and user keep what no handler writes: titles, numbers of copies
    owned and limits, and which books and users there are. *)
Definition same_catalogue (s0 s : Store) : Prop :=
  (forall id,
     (fun b => (title b, totalCopies b)) <$> books s !! id
     = (fun b => (title b, totalCopies b)) <$> books s0 !! id)
  /\ (forall id,
        borrowingLimit <$> users s !! id = borrowingLimit <$> users s0 !! id).

(** The table keeps its primary key and every identifier of [ids]. *)
Definition keeps_ids (ids : list string) (s : Store) : Prop :=
  keyed s /\ ids ⊆ br_id <$> borrowing s.

(** A [getUser] request that passes the handler's own checks. *)
Definition user_accepted (key : option string) (event : Event) (u : string)
    : Prop :=
  validateApiKey key event = None
  /\ exists params,
       pathParameters event = Some params
       /\ params !! "userId" = Some u
       /\ invalid_id "usr_" (Some u) = false.

(** The entry [getUser] shows for a loan made by [borrowBook]. *)
Definition listed_loan (b : string) (bk : Book) (ts days : Z) : BorrowedBook :=
  {| bb_bookId := b;
     bb_title := Js.or_str (Some (title bk)) "Unknown Title";
     bb_borrowedAt := ts;
     bb_dueDate := ts + days * day_ms |}.

(** ** Two returns of one loan *)

(** Where an accepted return request of the loan [r0] stands, with the
    number of store requests it may still make: before the query, before
    the transaction, at its response. *)
Inductive returning_at (ts : Z) (b u : string) (r0 : BorrowingRecord)
    : nat -> proc -> Prop :=
| at_query :
    returning_at ts b u r0 2
      (QueryUserIndex u active b (return_record ts b u))
| at_update :
    returning_at ts b u r0 1
      (TransactWrite (return_items ts (br_id r0) b u) (return_done ts r0))
| at_answer r :
    returning_at ts b u r0 0 (Ret r).

(** [p] has answered 200 and [q], if it has answered, has answered 404 or
    409. *)
Definition returned_first (p q : proc) : Prop :=
  (exists r, p = Ret r /\ statusCode r = 200)
  /\ forall r, q = Ret r -> statusCode r = 404 \/ statusCode r = 409.

(** The state of two returns of the loan [r0], the only loan of a user
    whose counter is 1: either the loan is still active and neither
    request has answered, or it is returned, the counter is 0, the book has
    its copy back and one request has answered 200. *)
Definition return_race (b u : string) (r0 : BorrowingRecord) (c : Z)
    (nA nB : nat) (pA pB : proc) (s : Store) : Prop :=
  is_Some (books s !! b)
  /\ ((copies s b = Some c /\ borrowed s u = Some 1
       /\ (exists rest, query_UserIndex u active b s = r0 :: rest)
       /\ (forall r, r ∈ borrowing s -> active_loan u b r -> r = r0)
       /\ (1 <= nA)%nat /\ (1 <= nB)%nat)
      \/ (copies s b = Some (c + 1) /\ borrowed s u = Some 0
          /\ query_UserIndex u active b s = []
          /\ (returned_first pA pB \/ returned_first pB pA))).

(** ** createBook (books handler) *)

(** The body of a create request, [JSON.parse(event.body)] read as a
    [CreateBookRequest]. *)
Record BookBody := {
  nb_isbn : option string;
  nb_title : option string;
  nb_author : option string;
  nb_genre : option string;
  nb_publicationYear : option Z;
  nb_totalCopies : option Z;
  nb_publisher : option string
}.

(** An item of the books table with all its attributes; [bi_core] holds
    the ones the borrow and return handlers use. *)
Record BookItem := {
  bi_core : Book;
  bi_isbn : string;
  bi_author : string;
  bi_genre : string;
  bi_publicationYear : Z;
  bi_publisher : option string;
  bi_createdAt : Z
}.

Inductive BookResult :=
| BookError (r : Response)
| BookMissing (missing_fields : list string)
| BookCreated (id : string) (item : BookItem) (available : bool).

(** The status code of each answer of [createBook]. *)
Definition book_status (r : BookResult) : Z :=
  match r with
  | BookError e => statusCode e
  | BookMissing _ => 400
  | BookCreated _ _ _ => 201
  end.

(** [!x] for an optional number. *)
Definition falsy_num (x : option Z) : bool :=
  match x with
  | Some n => n =? 0
  | None => true
  end.

Definition missing_fields_of (body : BookBody) : list string :=
  (if Js.falsy (nb_isbn body) then ["isbn"] else [])
  ++ (if Js.falsy (nb_title body) then ["title"] else [])
  ++ (if Js.falsy (nb_author body) then ["author"] else [])
  ++ (if Js.falsy (nb_genre body) then ["genre"] else [])
  ++ (if falsy_num (nb_publicationYear body) then ["publicationYear"] else [])
  ++ (if falsy_num (nb_totalCopies body) then ["totalCopies"] else []).

(** One position of a pattern: a given character, or any decimal digit. *)
Inductive pat :=
| Lit (c : ascii)
| Digit.

Fixpoint match_pat (p : list pat) (s : string) : bool :=
  match p, s with
  | [], EmptyString => true
  | Lit c :: p', String x s' => bool_decide (x = c) && match_pat p' s'
  | Digit :: p', String x s' => Js.is_digit x && match_pat p' s'
  | _, _ => false
  end.

(** [/^978-[0-9]{1}-[0-9]{4}-[0-9]{4}-[0-9]{1}$/] *)
Definition isbnRegex : list pat :=
  [ Lit "9"; Lit "7"; Lit "8"; Lit "-"; Digit; Lit "-";
    Digit; Digit; Digit; Digit; Lit "-";
    Digit; Digit; Digit; Digit; Lit "-"; Digit ]%char.

Definition validGenres : list string :=
  ["fiction"; "non-fiction"; "science"; "history"; "biography"; "children"].

(** [query] on [ISBNIndex] with key [isbn = v]. *)
Definition query_ISBNIndex (v : string) (cat : gmap string BookItem)
    : gmap string BookItem :=
  filter (fun kv => bi_isbn kv.2 = v) cat.

Definition newBook (timestamp : Z) (body : BookBody) : BookItem :=
  {| bi_core :=
       {| title := default "" (nb_title body);
          totalCopies := default 0 (nb_totalCopies body);
          availableCopies := default 0 (nb_totalCopies body);
          book_updatedAt := timestamp |};
     bi_isbn := default "" (nb_isbn body);
     bi_author := default "" (nb_author body);
     bi_genre := default "" (nb_genre body);
     bi_publicationYear := default 0 (nb_publicationYear body);
     bi_publisher :=
       if Js.falsy (nb_publisher body) then None else nb_publisher body;
     bi_createdAt := timestamp |}.

(** [createBook] on the books table [cat]: the query of [ISBNIndex], then
    the [put]; [body] is the parsed body, [None] when it does not parse. *)
Definition createBook (API_KEY_VALUE : option string) (timestamp : Z)
    (hex : string) (event : Event) (body : option BookBody)
    (cat : gmap string BookItem) : BookResult * gmap string BookItem :=
  match validateApiKey API_KEY_VALUE event with
  | Some error => (BookError error, cat)
  | None =>
      match body with
      | None => (BookError internal_error, cat)
      | Some body =>
          let missingFields := missing_fields_of body in
          if negb (bool_decide (missingFields = []))
          then (BookMissing missingFields, cat)
          else if negb (match_pat isbnRegex (default "" (nb_isbn body)))
          then (BookError (bad_request "isbn" "Invalid ISBN format"), cat)
          else if negb (bool_decide
                          (default "" (nb_genre body) ∈ validGenres))
          then (BookError (bad_request "genre" "Invalid genre"), cat)
          else if negb (bool_decide
                          (query_ISBNIndex (default "" (nb_isbn body)) cat
                           = ∅))
          then (BookError
                  (conflict "A book with this ISBN already exists"), cat)
          else
            let item := newBook timestamp body in
            (BookCreated (generateId "bk" hex) item true,
             <[generateId "bk" hex := item]> cat)
      end
  end.

(** The books table as the borrow and return handlers see it. *)
Definition with_books (cat : gmap string BookItem) (s : Store) : Store :=
  set_books (fun _ => bi_core <$> cat) s.

(** No two books of the table share an ISBN. *)
Definition unique_isbn (cat : gmap string BookItem) : Prop :=
  forall i j x y,
    cat !! i = Some x -> cat !! j = Some y -> bi_isbn x = bi_isbn y -> i = j.

(** A create request with the default API key, and a body for it. *)
Definition create_event : Event :=
  {| headers := {[ "X-API-Key" := "test-api-key" ]};
     queryStringParameters := None;
     pathParameters := None;
     body := None |}.

Definition gatsby : BookBody :=
  {| nb_isbn := Some "978-0-7432-7356-5";
     nb_title := Some "The Great Gatsby";
     nb_author := Some "F. Scott Fitzgerald";
     nb_genre := Some "fiction";
     nb_publicationYear := Some 1925;
     nb_totalCopies := Some 5;
     nb_publisher := None |}.

(** The identifier drawn for it: [bk_abcdef]. *)
Definition gatsby_hex : string :=
  to_hex [Byte.xab; Byte.xcd; Byte.xef].

(** ** Any number of concurrent borrowers *)

(** The two counters equal what the table says: the equations of
    [book_invariant] and [user_invariant], without the bound by the
    limit. *)
Definition counters_match (s : Store) : Prop :=
  book_invariant s
  /\ map_Forall
       (fun id u =>
          currentBorrowedCount u = count (active_user id) (borrowing s))
       (users s).

(** [p] submits at most one transaction, the three writes of a borrow
    whose record is an active loan with the identifier drawn from [hex],
    and answers right after it. *)
Fixpoint one_borrow (hex : string) (p : proc) : Prop :=
  match p with
  | Ret _ => True
  | GetBook _ k => forall x, one_borrow hex (k x)
  | GetUser _ k => forall x, one_borrow hex (k x)
  | QueryUserIndex _ _ _ k => forall x, one_borrow hex (k x)
  | TransactWrite items k =>
      (exists ts rec,
          items = borrow_items ts rec (br_bookId rec) (br_userId rec)
          /\ br_id rec = generateId "brw" hex
          /\ br_status rec = active)
      /\ forall x, exists r, k x = Ret r
  end.

(** The handlers of a list of borrow requests, each with its time and
    the random part of its identifier. *)
Definition borrowing_pool (key : option string)
    (borrows : list (Event * Z * string)) : list proc :=
  (fun x => borrowBook key x.1.2 x.2 x.1.1) <$> borrows.

(** A pool of borrowers over a store: the counters match, and every
    borrower that has not answered yet holds an identifier the table does
    not have. *)
Definition borrowers (hexes : list string) (ps : list proc) (s : Store)
    : Prop :=
  counters_match s
  /\ List.length ps = List.length hexes
  /\ forall j h p,
       hexes !! j = Some h -> ps !! j = Some p ->
       one_borrow h p
       /\ ((exists r, p = Ret r)
           \/ generateId "brw" h ∉ br_id <$> borrowing s).

(** A second title for the catalogue, with an ISBN of its own. *)
Definition emma : BookBody :=
  {| nb_isbn := Some "978-0-1414-3958-8";
     nb_title := Some "Emma";
     nb_author := Some "Jane Austen";
     nb_genre := Some "fiction";
     nb_publicationYear := Some 1815;
     nb_totalCopies := Some 2;
     nb_publisher := Some "Penguin" |}.

(** ** What stays of a record *)

(** [r'] is the record [r] as the handlers can leave it: every attribute
    a borrow wrote is the same, and the status is the one [r] had or
    [returned]; [returnedAt] and [updatedAt] are free. *)
Definition same_loan (r r' : BorrowingRecord) : Prop :=
  br_id r' = br_id r
  /\ br_userId r' = br_userId r
  /\ br_bookId r' = br_bookId r
  /\ br_bookTitle r' = br_bookTitle r
  /\ br_borrowedAt r' = br_borrowedAt r
  /\ br_dueDate r' = br_dueDate r
  /\ br_createdAt r' = br_createdAt r
  /\ (br_status r' = br_status r \/ br_status r' = returned).

Definition holds_loan (r : BorrowingRecord) (s : Store) : Prop :=
  exists r', r' ∈ borrowing s /\ same_loan r r'.

(** The identifier a request generates, if it generates one. *)
Definition request_id (req : Request) : option string :=
  match req with
  | Borrow _ _ hex => Some (generateId "brw" hex)
  | Return _ _ => None
  end.

(** ** Query strings read as JavaScript reads them *)

(** [Js.parseInt] skips the ASCII white space; on a string of ASCII
    characters that is all the white space JavaScript skips. *)
Definition ascii_only (s : string) : bool :=
  forallb (fun c => Js.code c <? 128) (list_ascii_of_string s).

(** ** Pagination *)

Lemma parsePaginationParams_numeric event p l :
  Js.parseInt (Js.or_str (query_param event "page") "1") = Js.Num p ->
  Js.parseInt (Js.or_str (query_param event "limit") "20") = Js.Num l ->
  exists pg lm,
    parsePaginationParams event
    = {| page := Js.Num pg; limit := Js.Num lm;
         offset := Js.Num ((pg - 1) * lm) |}
    /\ 1 <= pg /\ 1 <= lm <= 100.
Proof.
  intros Hp Hl. unfold parsePaginationParams. rewrite Hp, Hl. simpl.
  eexists _, _. split; [reflexivity | lia].
Qed.

Lemma parsePaginationParams_default event :
  query_param event "page" = None ->
  query_param event "limit" = None ->
  parsePaginationParams event
  = {| page := Js.Num 1; limit := Js.Num 20; offset := Js.Num 0 |}.
Proof.
  intros Hp Hl. unfold parsePaginationParams. rewrite Hp, Hl. reflexivity.
Qed.

(** C10.  A [page] parameter that does not start with a number is parsed to
    [NaN], and [Math.max(1, NaN)] is [NaN]: the page returned for
    [?page=abc] is not a number at least 1, and neither is the offset; for
    [?limit=abc] the limit is not a number between 1 and 100. *)
Theorem parsePaginationParams_non_numeric :
  parsePaginationParams (list_request [("page", "abc")])
  = {| page := Js.NaN; limit := Js.Num 20; offset := Js.NaN |}
  /\ parsePaginationParams (list_request [("limit", "abc")])
     = {| page := Js.Num 1; limit := Js.NaN; offset := Js.NaN |}.
Proof. split; vm_compute; reflexivity. Qed.

(** ** What an accepted request runs *)

Lemma borrowBook_accepted key ts hex event b u dd :
  accepted key event b u dd ->
  borrowBook key ts hex event
  = GetBook b (borrow_book ts hex b u (Js.or_num dd 14)).
Proof.
  intros (Hk & params & bd & Hp & Hb & Hid & Hu & Hd & Hvb & Hvu).
  unfold borrowBook. rewrite Hk, Hp, Hb, Hid, Hu, Hd, Hvb, Hvu.
  reflexivity.
Qed.

Lemma returnBook_accepted key ts event b u dd :
  accepted key event b u dd ->
  returnBook key ts event
  = QueryUserIndex u active b (return_record ts b u).
Proof.
  intros (Hk & params & bd & Hp & Hb & Hid & Hu & Hd & Hvb & Hvu).
  unfold returnBook. rewrite Hk, Hp, Hb, Hid, Hu, Hvb, Hvu.
  reflexivity.
Qed.

Lemma request_accepted b u dd :
  invalid_id "bk_" (Some b) = false ->
  invalid_id "usr_" (Some u) = false ->
  accepted None (request b u dd) b u dd.
Proof.
  intros Hb Hu. split; [reflexivity |].
  eexists _, _. repeat split; first [reflexivity | assumption].
Qed.

Lemma borrow1_accepted dd :
  accepted None (borrow1 dd) "bk_000001" "usr_000001" dd.
Proof. apply request_accepted; reflexivity. Qed.

(** ** Borrowing *)

(** C9.  A request for a loan of 45 days is not rejected: the handler
    reads the book and the user, commits the transaction and answers 200
    with a due date 45 days after the loan.  A duration of -3 days is
    accepted in the same way, and a duration of 0 is replaced by 14. *)
Theorem borrowBook_duration_unchecked :
  let p dd := borrowBook None 1000 "a1b2c3" (borrow1 dd) in
  (run (p (Some 45)) library).1
  = createResponse 200
      (BorrowedBody "brw_a1b2c3" "usr_000001" "bk_000001" 1000
         (1000 + 45 * day_ms) active)
  /\ trace (p (Some 45)) library
     = [ OpGetBook "bk_000001"; OpGetUser "usr_000001";
         OpTransactWrite
           (borrow_items 1000
              (new_record 1000 "a1b2c3" "bk_000001" "usr_000001" 45 book1)
              "bk_000001" "usr_000001") true ]
  /\ copies (run (p (Some 45)) library).2 "bk_000001" = Some 0
  /\ (run (p (Some (-3))) library).1
     = createResponse 200
         (BorrowedBody "brw_a1b2c3" "usr_000001" "bk_000001" 1000
            (1000 - 3 * day_ms) active)
  /\ (run (p (Some 0)) library).1
     = createResponse 200
         (BorrowedBody "brw_a1b2c3" "usr_000001" "bk_000001" 1000
            (1000 + 14 * day_ms) active).
Proof. vm_compute. repeat split; reflexivity. Qed.

Lemma borrow_items_commit ts rec b u s bk usr :
  books s !! b = Some bk ->
  0 < availableCopies bk ->
  users s !! u = Some usr ->
  transactWrite (borrow_items ts rec b u) s
  = Some {| books := <[b := add_copies (-1) ts bk]> (books s);
            users := <[u := add_borrowed 1 ts usr]> (users s);
            borrowing := put_record (index_slot s) rec (borrowing s);
            index_slot := index_slot s |}.
Proof.
  intros Hb Hpos Hu. unfold borrow_items, transactWrite, apply_item.
  simpl. rewrite Hb. simpl.
  destruct (Z.ltb_spec 0 (availableCopies bk)); [| lia].
  simpl. rewrite Hu. reflexivity.
Qed.

Lemma borrow_items_cancel ts rec b u s :
  (forall bk, books s !! b = Some bk -> availableCopies bk <= 0) ->
  transactWrite (borrow_items ts rec b u) s = None.
Proof.
  intros Hb. unfold borrow_items, transactWrite, apply_item. simpl.
  destruct (books s !! b) as [bk |] eqn:E; [| reflexivity].
  specialize (Hb bk eq_refl). simpl.
  destruct (Z.ltb_spec 0 (availableCopies bk)); [lia | reflexivity].
Qed.

(** Wherever the store files a new item, the items it held keep their
    order around it. *)
Lemma insert_at_split n r tbl :
  exists l1 l2,
    tbl = (l1 ++ l2)%list /\ insert_at n r tbl = (l1 ++ r :: l2)%list.
Proof.
  exists (take n tbl), (drop n tbl).
  split; [symmetry; apply take_drop | reflexivity].
Qed.

Lemma put_record_fresh slot r (tbl : list BorrowingRecord) :
  br_id r ∉ br_id <$> tbl ->
  exists l1 l2,
    tbl = (l1 ++ l2)%list /\ put_record slot r tbl = (l1 ++ r :: l2)%list.
Proof.
  intros Hf. unfold put_record.
  rewrite bool_decide_eq_false_2 by assumption.
  apply insert_at_split.
Qed.

Lemma replace_record_elem r (tbl : list BorrowingRecord) :
  br_id r ∈ br_id <$> tbl -> r ∈ replace_record r tbl.
Proof.
  induction tbl as [| x t IH]; simpl; intros Hin.
  - inversion Hin.
  - case_bool_decide as Hx; [left |].
    right. apply IH. apply elem_of_cons in Hin as [Heq | Hin];
      [congruence | exact Hin].
Qed.

Lemma put_record_elem slot r (tbl : list BorrowingRecord) :
  r ∈ put_record slot r tbl.
Proof.
  unfold put_record. case_bool_decide as Hin.
  - apply replace_record_elem, Hin.
  - destruct (insert_at_split (slot r tbl) r tbl) as (l1 & l2 & _ & ->).
    apply elem_of_app. right. left.
Qed.



Lemma valid_time_spec t :
  valid_time t = true <-> - 8640000000000000 <= t <= 8640000000000000.
Proof.
  unfold valid_time, max_time. rewrite andb_true_iff, !Z.leb_le. reflexivity.
Qed.

(** C4.  When the book exists with a copy available and the user exists
    below the limit, an accepted borrow request answers 200; afterwards the
    book has one copy less, the user one loan more, and the table holds the
    record of the loan: active, borrowed at the time of the request and due
    [durationDays] days of 86400000 milliseconds later (14 days when the
    body gives no duration, or 0).  With a newly generated identifier the
    record is added to the table and nothing else in it changes; no other
    book and no other user changes.  The due date has to be a time a [Date]
    holds, within 8.64e15 milliseconds of the epoch: beyond, the handler
    answers 500. *)
Theorem borrowBook_success key ts hex event b u dd s bk usr :
  accepted key event b u dd ->
  books s !! b = Some bk -> 0 < availableCopies bk ->
  users s !! u = Some usr ->
  currentBorrowedCount usr < borrowingLimit usr ->
  let days :=
    match dd with
    | Some d => if d =? 0 then 14 else d
    | None => 14
    end in
  - 8640000000000000 <= ts + days * 86400000 <= 8640000000000000 ->
  let r := new_record ts hex b u days bk in
  exists s',
    run (borrowBook key ts hex event) s
    = (createResponse 200
         (BorrowedBody (generateId "brw" hex) u b ts
            (ts + days * 86400000) active), s')
    /\ copies s' b = Some (availableCopies bk - 1)
    /\ borrowed s' u = Some (currentBorrowedCount usr + 1)
    /\ r ∈ borrowing s'
    /\ br_userId r = u /\ br_bookId r = b
    /\ br_status r = active /\ br_borrowedAt r = ts
    /\ br_dueDate r = br_borrowedAt r + days * 86400000
    /\ (br_id r ∉ br_id <$> borrowing s ->
        exists l1 l2,
          borrowing s = (l1 ++ l2)%list
          /\ borrowing s' = (l1 ++ r :: l2)%list)
    /\ (forall b', b' <> b -> books s' !! b' = books s !! b')
    /\ (forall u', u' <> u -> users s' !! u' = users s !! u').
Proof.
  intros Hacc Hb Hpos Hu Hlim days Hdue r.
  assert (Hd : Js.or_num dd 14 = days) by reflexivity.
  apply valid_time_spec in Hdue.
  rewrite (borrowBook_accepted _ _ _ _ _ _ _ Hacc), Hd.
  cbn [run]. rewrite Hb. unfold borrow_book.
  destruct (Z.leb_spec (availableCopies bk) 0); [lia |].
  cbn [run]. rewrite Hu. unfold borrow_user.
  destruct (Z.leb_spec (borrowingLimit usr) (currentBorrowedCount usr));
    [lia |].
  change (add_days ts days) with (ts + days * 86400000). rewrite Hdue.
  cbn [run]. rewrite (borrow_items_commit _ _ _ _ _ _ _ Hb Hpos Hu).
  eexists. split; [reflexivity |].
  unfold copies, borrowed. simpl.
  rewrite !lookup_insert_eq. simpl.
  repeat split.
  - apply put_record_elem.
  - intros Hf. apply put_record_fresh. exact Hf.
  - intros b' Hne. apply lookup_insert_ne. congruence.
  - intros u' Hne. apply lookup_insert_ne. congruence.
Qed.

(** The scenario of the specification, with a loan of 7 days: the single
    copy of [bk_000001] is lent to [usr_000001] at time 1000 and is due
    at 1000 + 7 * 86400000 = 604801000. *)
Lemma borrowBook_success_witness :
  exists s',
    run (borrowBook None 1000 "a1b2c3" (borrow1 (Some 7))) library
    = (createResponse 200
         (BorrowedBody "brw_a1b2c3" "usr_000001" "bk_000001" 1000
            604801000 active), s')
    /\ copies s' "bk_000001" = Some 0
    /\ borrowed s' "usr_000001" = Some 1.
Proof.
  destruct (borrowBook_success None 1000 "a1b2c3" (borrow1 (Some 7))
              "bk_000001" "usr_000001" (Some 7) library book1 user1
              (borrow1_accepted _) eq_refl ltac:(vm_compute; reflexivity)
              eq_refl ltac:(vm_compute; reflexivity)
              ltac:(vm_compute; split; discriminate))
    as (s' & Hrun & Hc & Hu & _).
  exists s'. repeat split; assumption.
Defined.

(** ** Failed operations *)

Lemma run_env_nil p s sh :
  run_env p [] s sh = ((run p s).1, (run p s).2, sh).
Proof.
  revert s sh.
  induction p as [r | id k IH | id k IH | u st b k IH | items k IH];
    intros s sh; simpl.
  - reflexivity.
  - apply IH.
  - apply IH.
  - apply IH.
  - destruct (transactWrite items s); apply IH.
Qed.

(** The leaves of a handler: every branch is taken in turn, and a branch
    that ends in a response other than 200 ends with the store equal to
    its shadow. *)
Ltac handler_leaves :=
  repeat (simpl; case_match);
  simpl; intros ? ? ? [= <- <- <-] Hfail;
  first [ reflexivity | exfalso; apply Hfail; reflexivity ].

Lemma borrowBook_failure key ts hex event env s :
  forall r s' sh,
    run_env (borrowBook key ts hex event) env s s = (r, s', sh) ->
    statusCode r <> 200 -> s' = sh.
Proof.
  unfold borrowBook, borrow_book, borrow_user, borrow_done.
  handler_leaves.
Qed.

Lemma returnBook_failure key ts event env s :
  forall r s' sh,
    run_env (returnBook key ts event) env s s = (r, s', sh) ->
    statusCode r <> 200 -> s' = sh.
Proof.
  unfold returnBook, return_record, return_done.
  handler_leaves.
Qed.

(** C7.  A borrow or a return that does not answer 200, because a check
    failed or because the transaction was cancelled, leaves the store as it
    found it.  Run alone, the store after the operation is the store before
    it; run while other clients write, it is the store those writes alone
    produce.  In particular a user whose counter equals the limit is
    answered 409 and nothing changes. *)
Theorem failed_operation_changes_nothing key :
  (forall req s r s',
     run (handler key req) s = (r, s') -> statusCode r <> 200 -> s' = s)
  /\ (forall req env s r s' sh,
        run_env (handler key req) env s s = (r, s', sh) ->
        statusCode r <> 200 -> s' = sh)
  /\ (forall event ts hex b u dd s bk usr,
        accepted key event b u dd ->
        books s !! b = Some bk -> 0 < availableCopies bk ->
        users s !! u = Some usr ->
        currentBorrowedCount usr = borrowingLimit usr ->
        run (handler key (Borrow event ts hex)) s
        = (conflict "User has reached borrowing limit", s)).
Proof.
  assert (Henv : forall req env s r s' sh,
             run_env (handler key req) env s s = (r, s', sh) ->
             statusCode r <> 200 -> s' = sh).
  { intros req env s r s' sh.
    destruct req as [event ts hex | event ts]; simpl.
    - apply borrowBook_failure.
    - apply returnBook_failure. }
  split; [| split; [exact Henv |]].
  - intros req s r s' Hrun Hfail.
    apply (Henv req [] s r s' s); [| exact Hfail].
    rewrite run_env_nil, Hrun. reflexivity.
  - intros event ts hex b u dd s bk usr Hacc Hb Hpos Hu Hlim.
    cbn [handler]. rewrite (borrowBook_accepted _ _ _ _ _ _ _ Hacc).
    simpl. rewrite Hb. simpl.
    destruct (Z.leb_spec (availableCopies bk) 0); [lia |].
    simpl. rewrite Hu. simpl.
    destruct (Z.leb_spec (borrowingLimit usr) (currentBorrowedCount usr));
      [reflexivity | lia].
Qed.

(** Limit enforcement: a user at the limit is refused with 409 and the
    store is as before; a return without a loan changes nothing; and a
    borrow request that loses the last copy to another client between its
    reads and its write is answered 409 and adds nothing to what that
    client did. *)
Lemma failed_operation_changes_nothing_witness :
  run (borrowBook None 1000 "a1b2c3" (borrow1 None)) library_at_limit
  = (conflict "User has reached borrowing limit", library_at_limit)
  /\ (run (returnBook None 1000 (ask "bk_000001")) library).2 = library
  /\ (let out :=
        run_env (borrowBook None 1000 "a1b2c3" (borrow1 None))
          [id; id; take_copy] library library in
      out.1.1 = conflict "Unable to borrow book - please try again"
      /\ out.1.2 = out.2).
Proof.
  split; [| split; [| split; [vm_compute; reflexivity |]]].
  - apply (proj2 (proj2 (failed_operation_changes_nothing None))
             (borrow1 None) 1000 "a1b2c3" "bk_000001" "usr_000001" None
             library_at_limit book1 (add_borrowed 5 0 user1)
             (borrow1_accepted None)).
    + reflexivity.
    + vm_compute. reflexivity.
    + reflexivity.
    + vm_compute. reflexivity.
  - refine (proj1 (failed_operation_changes_nothing None)
              (Return (ask "bk_000001") 1000) library
              (run (returnBook None 1000 (ask "bk_000001")) library).1
              _ _ _).
    + apply surjective_pairing.
    + vm_compute. discriminate.
  - refine (proj1 (proj2 (failed_operation_changes_nothing None))
              (Borrow (borrow1 None) 1000 "a1b2c3")
              [id; id; take_copy] library
              (conflict "Unable to borrow book - please try again")
              _ _ _ _).
    + vm_compute. reflexivity.
    + vm_compute. discriminate.
Defined.

(** ** Returning *)

Lemma matches_active_loan u b r :
  matches u active b r = true <-> active_loan u b r.
Proof.
  unfold matches, active_loan.
  rewrite !andb_true_iff, !bool_decide_eq_true. tauto.
Qed.

Lemma query_elem u b s r :
  r ∈ query_UserIndex u active b s <-> r ∈ borrowing s /\ active_loan u b r.
Proof.
  unfold query_UserIndex.
  rewrite !list_elem_of_In, List.filter_In, matches_active_loan.
  reflexivity.
Qed.

Lemma query_nil u b s :
  query_UserIndex u active b s = []
  <-> ~ exists r, r ∈ borrowing s /\ active_loan u b r.
Proof.
  split.
  - intros Hq (r & Hr). apply query_elem in Hr. rewrite Hq in Hr.
    inversion Hr.
  - intros Hno.
    destruct (query_UserIndex u active b s) as [| r rest] eqn:E;
      [reflexivity |].
    exfalso. apply Hno. exists r. apply query_elem. rewrite E. left.
Qed.

(** When all active loans of the pair are one record, that record heads
    the answer of the query. *)
Lemma query_unique u b s r :
  r ∈ borrowing s -> active_loan u b r ->
  (forall r', r' ∈ borrowing s -> active_loan u b r' -> r' = r) ->
  exists rest, query_UserIndex u active b s = r :: rest.
Proof.
  intros Hin Hact Huniq.
  destruct (query_UserIndex u active b s) as [| x rest] eqn:E.
  - exfalso. apply (proj1 (query_nil u b s) E). exists r. tauto.
  - exists rest. f_equal.
    assert (Hx : x ∈ query_UserIndex u active b s) by (rewrite E; left).
    apply query_elem in Hx as [Hx1 Hx2]. apply Huniq; assumption.
Qed.

Lemma return_items_commit ts id b u s bk usr :
  books s !! b = Some bk ->
  users s !! u = Some usr ->
  0 < currentBorrowedCount usr ->
  transactWrite (return_items ts id b u) s
  = Some {| books := <[b := add_copies 1 ts bk]> (books s);
            users := <[u := add_borrowed (-1) ts usr]> (users s);
            borrowing := update_record id returned ts (borrowing s);
            index_slot := index_slot s |}.
Proof.
  intros Hb Hu Hpos. unfold return_items, transactWrite, apply_item.
  simpl. rewrite Hb. simpl. rewrite Hu. simpl.
  destruct (Z.ltb_spec 0 (currentBorrowedCount usr)); [reflexivity | lia].
Qed.

Lemma update_record_elem id st ts r (tbl : list BorrowingRecord) :
  r ∈ tbl -> br_id r = id ->
  set_status st ts r ∈ update_record id st ts tbl.
Proof.
  intros Hin Hid. unfold update_record.
  apply list_elem_of_fmap. exists r. split; [| exact Hin].
  rewrite bool_decide_eq_true_2 by exact Hid. reflexivity.
Qed.

(** C5, as the claim states it: after the two concurrent returns of
    [double_return] the loan of the second title is the one active loan of
    its pair, and the request to return it is answered 409, not 200: the
    user's counter is 0 and the transaction requires it to be positive. *)
Lemma returnBook_conflict_with_active_record :
  (exists r,
      query_UserIndex "usr_000001" active "bk_000002" double_return.2 = [r])
  /\ borrowed double_return.2 "usr_000001" = Some 0
  /\ (run (returnBook None 4000 (ask "bk_000002")) double_return.2).1
     = conflict "Unable to return book - please try again".
Proof.
  split; [eexists; vm_compute; reflexivity |].
  split; vm_compute; reflexivity.
Qed.

(** C5, amended.  An accepted return request is answered 404 exactly when
    the table holds no active record of the user and the book.  When the
    active record is unique, the book exists and the user exists with a
    positive counter, it answers 200; afterwards the book has one copy
    more, the user one loan less, and the record is [returned] with
    [returnedAt] the time of the request. *)
Theorem returnBook_spec key ts event b u dd s :
  accepted key event b u dd ->
  let p := returnBook key ts event in
  (statusCode (run p s).1 = 404
   <-> ~ exists r, r ∈ borrowing s /\ active_loan u b r)
  /\ (forall r bk usr,
        r ∈ borrowing s -> active_loan u b r ->
        (forall r', r' ∈ borrowing s -> active_loan u b r' -> r' = r) ->
        books s !! b = Some bk ->
        users s !! u = Some usr ->
        0 < currentBorrowedCount usr ->
        exists s',
          run p s
          = (createResponse 200
               (ReturnedBody (br_id r) u b (br_borrowedAt r) (br_dueDate r)
                  ts returned), s')
          /\ copies s' b = Some (availableCopies bk + 1)
          /\ borrowed s' u = Some (currentBorrowedCount usr - 1)
          /\ set_status returned ts r ∈ borrowing s'
          /\ br_status (set_status returned ts r) = returned
          /\ br_returnedAt (set_status returned ts r) = Some ts).
Proof.
  intros Hacc p. subst p. rewrite (returnBook_accepted _ _ _ _ _ _ Hacc).
  split.
  - rewrite <- query_nil. cbn [run].
    destruct (query_UserIndex u active b s) as [| r rest];
      cbn [return_record run].
    + split; reflexivity.
    + destruct (transactWrite (return_items ts (br_id r) b u) s);
        simpl; split; discriminate.
  - intros r bk usr Hin Hact Huniq Hb Hu Hpos.
    destruct (query_unique u b s r Hin Hact Huniq) as [rest Hq].
    simpl. rewrite Hq. cbn [return_record run].
    rewrite (return_items_commit _ _ _ _ _ _ _ Hb Hu Hpos).
    destruct Hact as (Hru & Hrb & _).
    eexists. simpl. rewrite Hru, Hrb. split; [reflexivity |].
    unfold copies, borrowed. simpl. rewrite !lookup_insert_eq. simpl.
    repeat split.
    apply update_record_elem; [exact Hin | reflexivity].
Qed.

(** The scenario of the specification, continued: the book lent at time
    1000 is returned at time 5000. *)
Lemma returnBook_spec_witness :
  exists s',
    run (returnBook None 5000 (ask "bk_000001"))
        (run (borrowBook None 1000 "a1b2c3" (borrow1 (Some 14))) library).2
    = (createResponse 200
         (ReturnedBody "brw_a1b2c3" "usr_000001" "bk_000001" 1000
            (1000 + 14 * day_ms) 5000 returned), s')
    /\ copies s' "bk_000001" = Some 1
    /\ borrowed s' "usr_000001" = Some 0.
Proof.
  destruct (proj2 (returnBook_spec None 5000 (ask "bk_000001")
                     "bk_000001" "usr_000001" None
                     (run (borrowBook None 1000 "a1b2c3" (borrow1 (Some 14)))
                        library).2
                     (borrow1_accepted None))
              (new_record 1000 "a1b2c3" "bk_000001" "usr_000001" 14 book1)
              (add_copies (-1) 1000 book1) (add_borrowed 1 1000 user1))
    as (s' & Hrun & Hc & Hu & _).
  - vm_compute. left.
  - vm_compute. repeat split; reflexivity.
  - intros r' Hr' _. vm_compute in Hr'.
    apply list_elem_of_singleton in Hr'. exact Hr'.
  - vm_compute. reflexivity.
  - vm_compute. reflexivity.
  - vm_compute. reflexivity.
  - exists s'. repeat split; assumption.
Defined.

(** C8, as the claim states it: the user holds both copies of the second
    title, in a store whose counters agree with its table, and the index
    lists the loan of time 2000 before the loan of time 1000.  The return
    request returns the loan listed first, the later one; the loan of time
    1000, the earlier one, stays active.  This is so whichever of the two
    identifiers the later loan has. *)
Lemma returnBook_returns_later_loan :
  let s id1 id2 :=
    both_copies_lent [loan_of_emma id1 2000; loan_of_emma id2 1000] in
  let out id1 id2 :=
    run (returnBook None 4000 (ask "bk_000002")) (s id1 id2) in
  (consistent (s "brw_00000a" "brw_00000b")
   /\ query_UserIndex "usr_000001" active "bk_000002"
        (s "brw_00000a" "brw_00000b")
      = [loan_of_emma "brw_00000a" 2000; loan_of_emma "brw_00000b" 1000]
   /\ (out "brw_00000a" "brw_00000b").1
      = createResponse 200
          (ReturnedBody "brw_00000a" "usr_000001" "bk_000002" 2000
             (2000 + 14 * day_ms) 4000 returned)
   /\ ((fun r => (br_id r, br_borrowedAt r, br_status r)) <$>
         borrowing (out "brw_00000a" "brw_00000b").2)
      = [("brw_00000a", 2000, returned); ("brw_00000b", 1000, active)])
  /\ (consistent (s "brw_00000b" "brw_00000a")
      /\ query_UserIndex "usr_000001" active "bk_000002"
           (s "brw_00000b" "brw_00000a")
         = [loan_of_emma "brw_00000b" 2000; loan_of_emma "brw_00000a" 1000]
      /\ (out "brw_00000b" "brw_00000a").1
         = createResponse 200
             (ReturnedBody "brw_00000b" "usr_000001" "bk_000002" 2000
                (2000 + 14 * day_ms) 4000 returned)
      /\ ((fun r => (br_id r, br_borrowedAt r, br_status r)) <$>
            borrowing (out "brw_00000b" "brw_00000a").2)
         = [("brw_00000b", 2000, returned); ("brw_00000a", 1000, active)]).
Proof.
  intros s out. split.
  - split; [apply (bool_decide_unpack _); vm_compute; exact I |].
    vm_compute. repeat split; reflexivity.
  - split; [apply (bool_decide_unpack _); vm_compute; exact I |].
    vm_compute. repeat split; reflexivity.
Qed.

(** C8, amended.  Whenever the index query of an accepted return request
    answers with one or more active records, the request returns the first
    record of the answer, whatever its [borrowedAt]: the transaction
    updates the record with that identifier, and the response describes
    it.  The store [s] is any store: the statement holds in whichever
    order its index lists the records of equal keys. *)
Theorem returnBook_first_item key ts event b u dd s r rest :
  accepted key event b u dd ->
  query_UserIndex u active b s = r :: rest ->
  let p := returnBook key ts event in
  exists committed,
    trace p s
    = [ OpQuery u active b;
        OpTransactWrite (return_items ts (br_id r) b u) committed ]
    /\ (run p s).1
       = if committed
         then createResponse 200
                (ReturnedBody (br_id r) (br_userId r) (br_bookId r)
                   (br_borrowedAt r) (br_dueDate r) ts returned)
         else conflict "Unable to return book - please try again".
Proof.
  intros Hacc Hq p. subst p. rewrite (returnBook_accepted _ _ _ _ _ _ Hacc).
  cbn [run trace]. rewrite Hq. cbn [return_record run trace].
  destruct (transactWrite (return_items ts (br_id r) b u) s).
  - exists true. split; reflexivity.
  - exists false. split; reflexivity.
Qed.

(** The same two loans in the two orders in which an index can list them:
    each time the loan listed first is the one the transaction names. *)
Lemma returnBook_first_item_witness :
  let later := loan_of_emma "brw_00000a" 2000 in
  let earlier := loan_of_emma "brw_00000b" 1000 in
  (exists committed,
      trace (returnBook None 4000 (ask "bk_000002"))
        (both_copies_lent [later; earlier])
      = [ OpQuery "usr_000001" active "bk_000002";
          OpTransactWrite
            (return_items 4000 "brw_00000a" "bk_000002" "usr_000001")
            committed ])
  /\ (exists committed,
        trace (returnBook None 4000 (ask "bk_000002"))
          (both_copies_lent [earlier; later])
        = [ OpQuery "usr_000001" active "bk_000002";
            OpTransactWrite
              (return_items 4000 "brw_00000b" "bk_000002" "usr_000001")
              committed ]).
Proof.
  intros later earlier. split.
  - destruct (returnBook_first_item None 4000 (ask "bk_000002")
                "bk_000002" "usr_000001" None
                (both_copies_lent [later; earlier]) later [earlier]
                (request_accepted "bk_000002" "usr_000001" None
                   eq_refl eq_refl)
                ltac:(vm_compute; reflexivity))
      as (committed & Ht & _).
    exists committed. exact Ht.
  - destruct (returnBook_first_item None 4000 (ask "bk_000002")
                "bk_000002" "usr_000001" None
                (both_copies_lent [earlier; later]) earlier [later]
                (request_accepted "bk_000002" "usr_000001" None
                   eq_refl eq_refl)
                ltac:(vm_compute; reflexivity))
      as (committed & Ht & _).
    exists committed. exact Ht.
Defined.

(** C3.  From the consistent store [two_loans], two return requests for
    the same active record, both having read it before either writes, are
    both answered 200: the transaction does not ask the record to be
    active, and the user's counter, 2, stays positive for both.  The single
    copy of the book is counted twice (2 available of 1), and the user's
    counter drops to 0 while one loan is still active. *)
Theorem double_return_both_succeed :
  consistent two_loans
  /\ copies two_loans "bk_000001" = Some 0
  /\ omap response_of double_return.1
     = [ createResponse 200
           (ReturnedBody "brw_00000a" "usr_000001" "bk_000001" 1000
              (1000 + 14 * day_ms) 3000 returned);
         createResponse 200
           (ReturnedBody "brw_00000a" "usr_000001" "bk_000001" 1000
              (1000 + 14 * day_ms) 3001 returned) ]
  /\ copies double_return.2 "bk_000001" = Some 2
  /\ borrowed double_return.2 "usr_000001" = Some 0
  /\ (br_status <$> borrowing double_return.2) = [returned; active]
  /\ ~ consistent double_return.2.
Proof.
  split; [apply (bool_decide_unpack _); vm_compute; exact I |].
  split; [vm_compute; reflexivity |].
  split; [vm_compute; reflexivity |].
  split; [vm_compute; reflexivity |].
  split; [vm_compute; reflexivity |].
  split; [vm_compute; reflexivity |].
  apply (bool_decide_eq_false_1 _). vm_compute. reflexivity.
Qed.

(** ** What a committed transaction did *)

Lemma borrow_items_inv ts rec b u s s' :
  transactWrite (borrow_items ts rec b u) s = Some s' ->
  exists bk usr,
    books s !! b = Some bk /\ 0 < availableCopies bk
    /\ users s !! u = Some usr
    /\ s' = {| books := <[b := add_copies (-1) ts bk]> (books s);
               users := <[u := add_borrowed 1 ts usr]> (users s);
               borrowing := put_record (index_slot s) rec (borrowing s);
               index_slot := index_slot s |}.
Proof.
  unfold borrow_items, transactWrite, apply_item. simpl.
  destruct (books s !! b) as [bk |] eqn:Hb; [| discriminate]. simpl.
  destruct (Z.ltb_spec 0 (availableCopies bk)); [| discriminate]. simpl.
  destruct (users s !! u) as [usr |] eqn:Hu; [| discriminate].
  intros [= <-]. exists bk, usr. repeat split; assumption.
Qed.

Lemma return_items_inv ts id b u s s' :
  transactWrite (return_items ts id b u) s = Some s' ->
  exists bk usr,
    books s !! b = Some bk
    /\ users s !! u = Some usr /\ 0 < currentBorrowedCount usr
    /\ s' = {| books := <[b := add_copies 1 ts bk]> (books s);
               users := <[u := add_borrowed (-1) ts usr]> (users s);
               borrowing := update_record id returned ts (borrowing s);
               index_slot := index_slot s |}.
Proof.
  unfold return_items, transactWrite, apply_item. simpl.
  destruct (books s !! b) as [bk |] eqn:Hb; [| discriminate]. simpl.
  destruct (users s !! u) as [usr |] eqn:Hu; [| discriminate]. simpl.
  destruct (Z.ltb_spec 0 (currentBorrowedCount usr)); [| discriminate].
  intros [= <-]. exists bk, usr. repeat split; assumption.
Qed.

(** The store after a borrow request run alone: as before, or changed by
    the one transaction. *)
Lemma borrowBook_run key ts hex event s :
  (run (borrowBook key ts hex event) s).2 = s
  \/ exists b u dd bk usr,
       books s !! b = Some bk /\ 0 < availableCopies bk
       /\ users s !! u = Some usr
       /\ currentBorrowedCount usr < borrowingLimit usr
       /\ (run (borrowBook key ts hex event) s).2
          = {| books := <[b := add_copies (-1) ts bk]> (books s);
               users := <[u := add_borrowed 1 ts usr]> (users s);
               borrowing :=
                 put_record (index_slot s) (new_record ts hex b u dd bk)
                   (borrowing s);
               index_slot := index_slot s |}.
Proof.
  unfold borrowBook.
  repeat (case_match; try (left; reflexivity)).
  cbn [run]. unfold borrow_book.
  destruct (books s !! _) as [bk |] eqn:Hb; [| left; reflexivity].
  destruct (Z.leb_spec (availableCopies bk) 0); [left; reflexivity |].
  cbn [run]. unfold borrow_user.
  destruct (users s !! _) as [usr |] eqn:Hu; [| left; reflexivity].
  destruct (Z.leb_spec (borrowingLimit usr) (currentBorrowedCount usr));
    [left; reflexivity |].
  destruct (valid_time _); [| left; reflexivity].
  cbn [run]. rewrite (borrow_items_commit _ _ _ _ _ _ _ Hb ltac:(lia) Hu).
  right. eexists _, _, _, bk, usr. repeat split; eauto.
Qed.

Lemma returnBook_run key ts event s :
  (run (returnBook key ts event) s).2 = s
  \/ exists b u r rest bk usr,
       query_UserIndex u active b s = r :: rest
       /\ books s !! b = Some bk
       /\ users s !! u = Some usr /\ 0 < currentBorrowedCount usr
       /\ (run (returnBook key ts event) s).2
          = {| books := <[b := add_copies 1 ts bk]> (books s);
               users := <[u := add_borrowed (-1) ts usr]> (users s);
               borrowing :=
                 update_record (br_id r) returned ts (borrowing s);
               index_slot := index_slot s |}.
Proof.
  unfold returnBook.
  repeat (case_match; try (left; reflexivity)).
  cbn [run]. unfold return_record.
  destruct (query_UserIndex _ active _ s) as [| r rest] eqn:Hq;
    [left; reflexivity |].
  cbn [run].
  destruct (transactWrite _ s) as [s' |] eqn:Htx; [| left; reflexivity].
  apply return_items_inv in Htx as (bk & usr & Hb & Hu & Hpos & ->).
  right. eexists _, _, r, rest, bk, usr. repeat split; eauto.
Qed.

(** ** Consistency is preserved *)

Lemma count_app f (l1 l2 : list BorrowingRecord) :
  count f (l1 ++ l2)%list = count f l1 + count f l2.
Proof.
  unfold count. rewrite List.filter_app, List.length_app. lia.
Qed.

Lemma count_cons f r (l : list BorrowingRecord) :
  count f (r :: l) = (if f r then 1 else 0) + count f l.
Proof.
  unfold count. simpl. destruct (f r); simpl; lia.
Qed.

Lemma count_middle f r (l1 l2 : list BorrowingRecord) :
  count f (l1 ++ r :: l2)%list
  = count f (l1 ++ l2)%list + (if f r then 1 else 0).
Proof. rewrite !count_app, count_cons. lia. Qed.

Lemma update_record_ids id st ts (tbl : list BorrowingRecord) :
  br_id <$> update_record id st ts tbl = br_id <$> tbl.
Proof.
  unfold update_record. rewrite <- list_fmap_compose.
  apply list_fmap_ext. intros i x _. simpl.
  case_bool_decide; reflexivity.
Qed.

Lemma update_record_absent id st ts (tbl : list BorrowingRecord) :
  id ∉ br_id <$> tbl -> update_record id st ts tbl = tbl.
Proof.
  induction tbl as [| x t IH]; intros Hid; [reflexivity |].
  simpl in *. apply not_elem_of_cons in Hid as [Hne Hid].
  rewrite bool_decide_eq_false_2 by congruence.
  f_equal. apply IH, Hid.
Qed.

(** In a keyed table the update touches the one record it names. *)
Lemma update_record_split st ts r (tbl : list BorrowingRecord) :
  NoDup (br_id <$> tbl) -> r ∈ tbl ->
  exists l1 l2,
    tbl = (l1 ++ r :: l2)%list
    /\ update_record (br_id r) st ts tbl
       = (l1 ++ set_status st ts r :: l2)%list.
Proof.
  intros Hnd Hin.
  apply list_elem_of_split in Hin as (l1 & l2 & ->).
  exists l1, l2. split; [reflexivity |].
  rewrite fmap_app, fmap_cons in Hnd.
  apply NoDup_app in Hnd as (_ & H1 & H2).
  apply NoDup_cons in H2 as [H2 _].
  unfold update_record. rewrite fmap_app, fmap_cons.
  rewrite bool_decide_eq_true_2 by reflexivity.
  fold (update_record (br_id r) st ts l1).
  fold (update_record (br_id r) st ts l2).
  rewrite !update_record_absent; [reflexivity | exact H2 |].
  intros Hr. apply (H1 _ Hr). left.
Qed.

Lemma borrow_consistent ts hex b u dd s bk usr :
  consistent s ->
  generateId "brw" hex ∉ br_id <$> borrowing s ->
  books s !! b = Some bk ->
  users s !! u = Some usr ->
  currentBorrowedCount usr < borrowingLimit usr ->
  consistent
    {| books := <[b := add_copies (-1) ts bk]> (books s);
       users := <[u := add_borrowed 1 ts usr]> (users s);
       borrowing :=
         put_record (index_slot s) (new_record ts hex b u dd bk)
           (borrowing s);
       index_slot := index_slot s |}.
Proof.
  intros (Hk & Hbi & Hui) Hfresh Hb Hu Hlim.
  destruct (put_record_fresh (index_slot s) (new_record ts hex b u dd bk)
              (borrowing s)
              Hfresh) as (l1 & l2 & Htbl & Hput).
  unfold consistent, keyed, book_invariant, user_invariant in *.
  cbn [books users borrowing]. rewrite Hput. rewrite Htbl in Hk, Hbi, Hui.
  split; [| split].
  - rewrite fmap_app, fmap_cons, <- Permutation_middle.
    apply NoDup_cons. split; [| rewrite <- fmap_app; exact Hk].
    rewrite <- fmap_app, <- Htbl. exact Hfresh.
  - intros i x Hix. rewrite count_middle.
    destruct (decide (b = i)) as [<- | Hne].
    + rewrite lookup_insert_eq in Hix. injection Hix as <-.
      specialize (Hbi b bk Hb). simpl in *.
      unfold active_book at 2. simpl.
      rewrite !bool_decide_eq_true_2 by reflexivity. simpl. lia.
    + rewrite lookup_insert_ne in Hix by exact Hne.
      specialize (Hbi i x Hix). simpl in *.
      unfold active_book at 2. simpl.
      rewrite (bool_decide_eq_false_2 (b = i)) by exact Hne. simpl. lia.
  - intros i x Hix. rewrite count_middle.
    destruct (decide (u = i)) as [<- | Hne].
    + rewrite lookup_insert_eq in Hix. injection Hix as <-.
      specialize (Hui u usr Hu). simpl in *.
      unfold active_user at 2. simpl.
      rewrite !bool_decide_eq_true_2 by reflexivity. simpl. lia.
    + rewrite lookup_insert_ne in Hix by exact Hne.
      specialize (Hui i x Hix). simpl in *.
      unfold active_user at 2. simpl.
      rewrite (bool_decide_eq_false_2 (u = i)) by exact Hne. simpl. lia.
Qed.

Lemma return_consistent ts b u s r rest bk usr :
  consistent s ->
  query_UserIndex u active b s = r :: rest ->
  books s !! b = Some bk ->
  users s !! u = Some usr ->
  consistent
    {| books := <[b := add_copies 1 ts bk]> (books s);
       users := <[u := add_borrowed (-1) ts usr]> (users s);
       borrowing := update_record (br_id r) returned ts (borrowing s);
       index_slot := index_slot s |}.
Proof.
  intros (Hk & Hbi & Hui) Hq Hb Hu.
  assert (Hr : r ∈ query_UserIndex u active b s) by (rewrite Hq; left).
  apply query_elem in Hr as (Hin & Hru & Hrb & Hrs).
  destruct (update_record_split returned ts r (borrowing s) Hk Hin)
    as (l1 & l2 & Htbl & Hupd).
  unfold consistent, keyed, book_invariant, user_invariant in *.
  cbn [books users borrowing].
  split; [rewrite update_record_ids; exact Hk |].
  rewrite Hupd. rewrite Htbl in Hbi, Hui.
  split.
  - intros i x Hix. rewrite count_middle.
    destruct (decide (b = i)) as [<- | Hne].
    + rewrite lookup_insert_eq in Hix. injection Hix as <-.
      specialize (Hbi b bk Hb). simpl in Hbi. rewrite count_middle in Hbi.
      unfold active_book at 2 in Hbi. unfold active_book at 2.
      rewrite Hrb, Hrs in Hbi.
      rewrite !bool_decide_eq_true_2 in Hbi by reflexivity.
      simpl in *. rewrite andb_false_r. lia.
    + rewrite lookup_insert_ne in Hix by exact Hne.
      specialize (Hbi i x Hix). simpl in Hbi. rewrite count_middle in Hbi.
      unfold active_book at 2 in Hbi. unfold active_book at 2.
      rewrite Hrb in Hbi.
      rewrite (bool_decide_eq_false_2 (b = i)) in Hbi by exact Hne.
      simpl in *. rewrite andb_false_r. lia.
  - intros i x Hix. rewrite count_middle.
    destruct (decide (u = i)) as [<- | Hne].
    + rewrite lookup_insert_eq in Hix. injection Hix as <-.
      specialize (Hui u usr Hu). simpl in Hui. rewrite count_middle in Hui.
      unfold active_user at 2 in Hui. unfold active_user at 2.
      rewrite Hru, Hrs in Hui.
      rewrite !bool_decide_eq_true_2 in Hui by reflexivity.
      simpl in *. rewrite andb_false_r. lia.
    + rewrite lookup_insert_ne in Hix by exact Hne.
      specialize (Hui i x Hix). simpl in Hui. rewrite count_middle in Hui.
      unfold active_user at 2 in Hui. unfold active_user at 2.
      rewrite Hru in Hui.
      rewrite (bool_decide_eq_false_2 (u = i)) in Hui by exact Hne.
      simpl in *. rewrite andb_false_r. lia.
Qed.

Lemma handler_consistent key req s :
  consistent s ->
  fresh_ids key [req] s ->
  consistent (run (handler key req) s).2.
Proof.
  intros Hc [Hfresh _]. destruct req as [event ts hex | event ts]; simpl.
  - destruct (borrowBook_run key ts hex event s)
      as [-> | (b & u & dd & bk & usr & Hb & Hpos & Hu & Hlim & ->)];
      [exact Hc |].
    apply borrow_consistent; assumption.
  - destruct (returnBook_run key ts event s)
      as [-> | (b & u & r & rest & bk & usr & Hq & Hb & Hu & Hpos & ->)];
      [exact Hc |].
    eapply return_consistent; eassumption.
Qed.

(** C1, amended.  Starting from a consistent store, after every sequence
    of borrow and return requests served one after the other, each of
    whose generated identifiers is new to the table, every book has
    [availableCopies = totalCopies - (its active records)] and every user
    has [currentBorrowedCount = (the user's active records)], at most
    [borrowingLimit]; each single request, successful or not, preserves
    both. *)
Theorem invariants_preserved key :
  (forall req s,
     consistent s -> fresh_ids key [req] s ->
     consistent (run (handler key req) s).2)
  /\ (forall rs s,
        consistent s -> fresh_ids key rs s ->
        book_invariant (run_all key rs s)
        /\ user_invariant (run_all key rs s)).
Proof.
  split; [apply handler_consistent |].
  assert (Hall : forall rs s,
             consistent s -> fresh_ids key rs s ->
             consistent (run_all key rs s)).
  { induction rs as [| req rs IH]; intros s Hc Hf; simpl; [exact Hc |].
    destruct Hf as [Hf1 Hf2]. apply IH; [| exact Hf2].
    apply handler_consistent; [exact Hc |]. split; [exact Hf1 | exact I]. }
  intros rs s Hc Hf. apply (Hall rs s Hc Hf).
Qed.

(** The scenario of the specification: the book is borrowed and then
    returned; the invariants hold in between and at the end. *)
Lemma invariants_preserved_witness :
  consistent
    (run (handler None (Borrow (borrow1 (Some 14)) 1000 "a1b2c3")) library).2
  /\ book_invariant
       (run_all None
          [ Borrow (borrow1 (Some 14)) 1000 "a1b2c3";
            Return (ask "bk_000001") 5000 ]
          library)
  /\ user_invariant
       (run_all None
          [ Borrow (borrow1 (Some 14)) 1000 "a1b2c3";
            Return (ask "bk_000001") 5000 ]
          library).
Proof.
  split.
  - apply (proj1 (invariants_preserved None)).
    + apply (bool_decide_unpack _). vm_compute. exact I.
    + split; [| exact I]. vm_compute. apply not_elem_of_nil.
  - apply (proj2 (invariants_preserved None)).
    + apply (bool_decide_unpack _). vm_compute. exact I.
    + split; [vm_compute; apply not_elem_of_nil |].
      split; [exact I |]. exact I.
Defined.

(** C1, as the claim states it: [generateId] draws three random bytes and
    the [Put] of the borrow transaction carries no condition, so a second
    borrow may draw the identifier of an active loan.  From the consistent
    store [shelf] two borrow requests, served one after the other, draw the
    same identifier: both answer 200, the second record replaces the first,
    and neither invariant holds any more (the first title has no copy
    available and no active loan; the user's counter is 2 with one active
    loan). *)
Lemma repeated_id_breaks_invariants :
  let first := Borrow (ask "bk_000001") 1000 "00000a" in
  let second := Borrow (ask "bk_000002") 2000 "00000a" in
  let out1 := run (handler None first) shelf in
  let out2 := run (handler None second) out1.2 in
  consistent shelf
  /\ statusCode out1.1 = 200 /\ consistent out1.2
  /\ statusCode out2.1 = 200
  /\ out2.2 = run_all None [first; second] shelf
  /\ (br_id <$> borrowing out2.2) = ["brw_00000a"]
  /\ copies out2.2 "bk_000001" = Some 0
  /\ count (active_book "bk_000001") (borrowing out2.2) = 0
  /\ borrowed out2.2 "usr_000001" = Some 2
  /\ count (active_user "usr_000001") (borrowing out2.2) = 1
  /\ ~ book_invariant out2.2
  /\ ~ user_invariant out2.2.
Proof.
  intros first second out1 out2.
  split; [apply (bool_decide_unpack _); vm_compute; exact I |].
  split; [vm_compute; reflexivity |].
  split; [apply (bool_decide_unpack _); vm_compute; exact I |].
  split; [vm_compute; reflexivity |].
  split; [reflexivity |].
  split; [vm_compute; reflexivity |].
  split; [vm_compute; reflexivity |].
  split; [vm_compute; reflexivity |].
  split; [vm_compute; reflexivity |].
  split; [vm_compute; reflexivity |].
  split; unfold book_invariant, user_invariant;
    apply (bool_decide_eq_false_1 _); vm_compute; reflexivity.
Qed.

(** ** Concurrent borrowers *)

Lemma borrowing_at_running ts hex b u dd n p r :
  borrowing_at ts hex b u dd n p -> (1 <= n)%nat -> p <> Ret r.
Proof. intros H Hn. destruct H; [discriminate .. | lia]. Qed.

Lemma borrowing_at_done ts hex b u dd p :
  borrowing_at ts hex b u dd 0 p -> exists r, p = Ret r.
Proof. intros H. inversion H. eexists. reflexivity. Qed.

(** A step of a borrower while the last copy is on the shelf: a read, or
    the transaction, which commits. *)
Lemma step_open ts hex b u dd n p s :
  valid_time (add_days ts dd) = true ->
  borrowing_at ts hex b u dd n p -> (1 <= n)%nat ->
  copies s b = Some 1 -> below_limit s u ->
  (exists p',
      step p s = (p', s) /\ borrowing_at ts hex b u dd (n - 1) p'
      /\ (2 <= n)%nat)
  \/ (exists r bk usr rec,
        step p s
        = (Ret r,
           {| books := <[b := add_copies (-1) ts bk]> (books s);
              users := <[u := add_borrowed 1 ts usr]> (users s);
              borrowing := put_record (index_slot s) rec (borrowing s);
              index_slot := index_slot s |})
        /\ statusCode r = 200
        /\ books s !! b = Some bk /\ availableCopies bk = 1
        /\ users s !! u = Some usr).
Proof.
  intros Hdue Hat Hn Hc (usr & Hu & Hlim).
  unfold copies in Hc.
  destruct (books s !! b) as [bk0 |] eqn:Hb; [| discriminate].
  injection Hc as Hc.
  destruct Hat as [| bk | bk | r].
  - left. eexists. split; [| split; [| lia]].
    + simpl. rewrite Hb. unfold borrow_book.
      destruct (Z.leb_spec (availableCopies bk0) 0); [lia | reflexivity].
    + apply at_user.
  - left. eexists. split; [| split; [| lia]].
    + simpl. rewrite Hu. unfold borrow_user.
      destruct (Z.leb_spec (borrowingLimit usr) (currentBorrowedCount usr));
        [lia |].
      rewrite Hdue. reflexivity.
    + apply at_write.
  - right. eexists _, bk0, usr, _. split; [| repeat split].
    + cbn [step].
      rewrite (borrow_items_commit _ _ _ _ _ _ _ Hb ltac:(lia) Hu).
      reflexivity.
    + reflexivity.
    + exact Hc.
    + exact Hu.
  - lia.
Qed.

(** A step of a borrower once the last copy is gone: the store stays as it
    is, and a response given now is a 409. *)
Lemma step_closed ts hex b u dd n p s :
  valid_time (add_days ts dd) = true ->
  borrowing_at ts hex b u dd n p ->
  copies s b = Some 0 -> is_Some (users s !! u) ->
  exists p' n',
    step p s = (p', s) /\ borrowing_at ts hex b u dd n' p'
    /\ (n' <= n - 1)%nat
    /\ forall r, p' = Ret r -> p = Ret r \/ statusCode r = 409.
Proof.
  intros Hdue Hat Hc [usr Hu].
  unfold copies in Hc.
  destruct (books s !! b) as [bk0 |] eqn:Hb; [| discriminate].
  injection Hc as Hc.
  destruct Hat as [| bk | bk | r].
  - eexists _, 0%nat. split; [| split; [| split; [lia |]]].
    + simpl. rewrite Hb. unfold borrow_book.
      destruct (Z.leb_spec (availableCopies bk0) 0); [reflexivity | lia].
    + apply at_response.
    + intros r [= <-]. right. reflexivity.
  - simpl. rewrite Hu. unfold borrow_user.
    destruct (Z.leb_spec (borrowingLimit usr) (currentBorrowedCount usr)).
    + eexists _, 0%nat. split; [reflexivity |].
      split; [apply at_response |]. split; [lia |].
      intros r [= <-]. right. reflexivity.
    + rewrite Hdue. eexists _, 1%nat. split; [reflexivity |].
      split; [apply at_write |]. split; [lia |].
      intros r [=].
  - eexists _, 0%nat. split; [| split; [| split; [lia |]]].
    + cbn [step]. rewrite borrow_items_cancel; [reflexivity |].
      intros bk' Hb'. rewrite Hb in Hb'. injection Hb' as <-. lia.
    + apply at_response.
    + intros r [= <-]. right. reflexivity.
  - eexists _, 0%nat. split; [reflexivity |].
    split; [apply at_response |]. split; [lia |].
    intros r' [= <-]. left. reflexivity.
Qed.

Lemma race_sym b uA uB nA nB pA pB s :
  race b uA uB nA nB pA pB s -> race b uB uA nB nA pB pA s.
Proof. unfold race. intuition. Qed.

(** One step of the first of two racing borrowers. *)
Lemma race_step ts hex b uA uB dd nA nB pA pB s tsB hexB ddB :
  valid_time (add_days ts dd) = true ->
  borrowing_at ts hex b uA dd nA pA ->
  borrowing_at tsB hexB b uB ddB nB pB ->
  race b uA uB nA nB pA pB s ->
  exists nA' pA' s',
    step pA s = (pA', s') /\ borrowing_at ts hex b uA dd nA' pA'
    /\ (nA' <= nA - 1)%nat
    /\ race b uA uB nA' nB pA' pB s'.
Proof.
  intros Hdue HA HB
    (HuA & HuB & [(Hc & HlA & HlB & HnA & HnB) | (Hc & Hwon)]).
  - destruct (step_open _ _ _ _ _ _ _ _ Hdue HA HnA Hc HlA)
      as [(p' & Hstep & Hat & Hn2)
         | (r & bk & usr & rec & Hstep & H200 & Hb & Hone & Hu)].
    + exists (nA - 1)%nat, p', s.
      split; [exact Hstep |]. split; [exact Hat |]. split; [lia |].
      split; [exact HuA |]. split; [exact HuB |].
      left. split; [exact Hc |]. split; [exact HlA |].
      split; [exact HlB |]. split; [lia | exact HnB].
    + eexists 0%nat, (Ret r), _.
      split; [exact Hstep |]. split; [apply at_response |].
      split; [lia |].
      split; [cbn [users]; rewrite lookup_insert_eq; eexists; reflexivity |].
      split; [cbn [users]; apply lookup_insert_is_Some';
              right; exact HuB |].
      right. split.
      * unfold copies. cbn [books]. rewrite lookup_insert_eq. simpl.
        rewrite Hone. reflexivity.
      * left. split; [exists r; split; [reflexivity | exact H200] |].
        intros rB HrB. exfalso.
        exact (borrowing_at_running _ _ _ _ _ _ _ rB HB HnB HrB).
  - destruct (step_closed _ _ _ _ _ _ _ _ Hdue HA Hc HuA)
      as (p' & n' & Hstep & Hat & Hn & Hresp).
    exists n', p', s.
    split; [exact Hstep |]. split; [exact Hat |]. split; [exact Hn |].
    split; [exact HuA |]. split; [exact HuB |].
    right. split; [exact Hc |].
    destruct Hwon as [[(r & -> & H200) HB409] | [HB200 HA409]].
    + simpl in Hstep. injection Hstep as <-.
      left. split; [exists r; split; [reflexivity | exact H200] |].
      exact HB409.
    + right. split; [exact HB200 |].
      intros r Hr. destruct (Hresp r Hr) as [HpA | H409];
        [apply HA409; exact HpA | exact H409].
Qed.

Section Race.

Variables (b uA uB : string).
Variables (tsA : Z) (hexA : string) (ddA : Z).
Variables (tsB : Z) (hexB : string) (ddB : Z).

(** Both due dates are times a [Date] holds. *)
Hypothesis dueA : valid_time (add_days tsA ddA) = true.
Hypothesis dueB : valid_time (add_days tsB ddB) = true.

(** Any schedule of the two borrowers keeps the race in one of its two
    states, and every turn of a borrower brings it closer to its
    response. *)
Lemma race_run sched :
  forall nA nB pA pB s,
    borrowing_at tsA hexA b uA ddA nA pA ->
    borrowing_at tsB hexB b uB ddB nB pB ->
    race b uA uB nA nB pA pB s ->
    exists nA' nB' pA' pB' s',
      sched_run sched [pA; pB] s = ([pA'; pB'], s')
      /\ borrowing_at tsA hexA b uA ddA nA' pA'
      /\ borrowing_at tsB hexB b uB ddB nB' pB'
      /\ race b uA uB nA' nB' pA' pB' s'
      /\ (nA' <= nA - turns 0 sched)%nat
      /\ (nB' <= nB - turns 1 sched)%nat.
Proof.
  induction sched as [| i rest IH]; intros nA nB pA pB s HA HB Hrace.
  - exists nA, nB, pA, pB, s. simpl.
    repeat (split; [first [reflexivity | assumption | lia] |]). lia.
  - destruct i as [| [| i]].
    + destruct (race_step _ _ _ _ _ _ _ _ _ _ _ _ _ _ dueA HA HB Hrace)
        as (nA1 & pA1 & s1 & Hstep & HA1 & Hn & Hrace1).
      destruct (IH nA1 nB pA1 pB s1 HA1 HB Hrace1)
        as (nA' & nB' & pA' & pB' & s' & Hrun & HA' & HB' & Hr' & HnA & HnB).
      exists nA', nB', pA', pB', s'.
      split; [simpl; rewrite Hstep; exact Hrun |].
      cbn [turns]. rewrite bool_decide_eq_true_2 by reflexivity.
      rewrite (bool_decide_eq_false_2 (0%nat = 1%nat)) by discriminate.
      repeat (split; [first [assumption | lia] |]). lia.
    + destruct (race_step _ _ _ _ _ _ _ _ _ _ _ _ _ _ dueB HB HA
                  (race_sym _ _ _ _ _ _ _ _ Hrace))
        as (nB1 & pB1 & s1 & Hstep & HB1 & Hn & Hrace1).
      apply race_sym in Hrace1.
      destruct (IH nA nB1 pA pB1 s1 HA HB1 Hrace1)
        as (nA' & nB' & pA' & pB' & s' & Hrun & HA' & HB' & Hr' & HnA & HnB).
      exists nA', nB', pA', pB', s'.
      split; [simpl; rewrite Hstep; exact Hrun |].
      cbn [turns].
      rewrite (bool_decide_eq_false_2 (1%nat = 0%nat)) by discriminate.
      rewrite bool_decide_eq_true_2 by reflexivity.
      repeat (split; [first [assumption | lia] |]). lia.
    + destruct (IH nA nB pA pB s HA HB Hrace)
        as (nA' & nB' & pA' & pB' & s' & Hrun & HA' & HB' & Hr' & HnA & HnB).
      exists nA', nB', pA', pB', s'.
      split; [exact Hrun |].
      cbn [turns].
      rewrite (bool_decide_eq_false_2 (S (S i) = 0%nat)) by discriminate.
      rewrite (bool_decide_eq_false_2 (S (S i) = 1%nat)) by discriminate.
      repeat (split; [first [assumption | lia] |]). lia.
Qed.

End Race.

(** ** The number of available copies never goes below zero *)

Lemma borrow_items_nonneg ts rec b u s s' :
  copies_nonneg s ->
  transactWrite (borrow_items ts rec b u) s = Some s' ->
  copies_nonneg s'.
Proof.
  intros Hs Htx.
  apply borrow_items_inv in Htx as (bk & usr & Hb & Hpos & Hu & ->).
  unfold copies_nonneg in *. cbn [books].
  apply map_Forall_insert_2; [simpl; lia | exact Hs].
Qed.

Lemma return_items_nonneg ts id b u s s' :
  copies_nonneg s ->
  transactWrite (return_items ts id b u) s = Some s' ->
  copies_nonneg s'.
Proof.
  intros Hs Htx.
  apply return_items_inv in Htx as (bk & usr & Hb & Hu & Hpos & ->).
  unfold copies_nonneg in *. cbn [books].
  apply map_Forall_insert_2; [| exact Hs].
  simpl. specialize (Hs b bk Hb). simpl in Hs. lia.
Qed.

Lemma keeps_borrowBook key ts hex event :
  keeps copies_nonneg (borrowBook key ts hex event).
Proof.
  unfold borrowBook. repeat (case_match; try exact I).
  intros [bk |]; [| exact I]. unfold borrow_book.
  case_match; [exact I |].
  intros [usr |]; [| exact I]. unfold borrow_user.
  case_match; [exact I |].
  case_match; [| exact I].
  split; [apply borrow_items_nonneg |].
  intros [|]; exact I.
Qed.

Lemma keeps_returnBook key ts event :
  keeps copies_nonneg (returnBook key ts event).
Proof.
  unfold returnBook. repeat (case_match; try exact I).
  intros [| r rest]; [exact I |]. unfold return_record.
  split; [apply return_items_nonneg |].
  intros [|]; exact I.
Qed.

Lemma keeps_handler key req : keeps copies_nonneg (handler key req).
Proof.
  destruct req; [apply keeps_borrowBook | apply keeps_returnBook].
Qed.

Lemma step_keeps (P : Store -> Prop) p s :
  keeps P p -> P s -> keeps P (step p s).1 /\ P (step p s).2.
Proof.
  destruct p as [r | id k | id k | u st b k | items k]; simpl;
    intros Hk Hs; try (split; [apply Hk | exact Hs]).
  destruct Hk as [Htx Hk].
  destruct (transactWrite items s) as [s' |] eqn:E; simpl.
  - split; [apply Hk | apply (Htx s s' Hs E)].
  - split; [apply Hk | exact Hs].
Qed.

Lemma sched_run_keeps (P : Store -> Prop) sched :
  forall ps s,
    Forall (keeps P) ps -> P s ->
    Forall (keeps P) (sched_run sched ps s).1 /\ P (sched_run sched ps s).2.
Proof.
  induction sched as [| i rest IH]; intros ps s Hps Hs; simpl.
  - split; assumption.
  - destruct (ps !! i) as [p |] eqn:Hi; [| apply IH; assumption].
    pose proof (Forall_lookup_1 _ _ _ _ Hps Hi) as Hp.
    destruct (step_keeps P p s Hp Hs) as [Hp' Hs'].
    destruct (step p s) as [p' s']. simpl in *.
    apply IH; [| exact Hs'].
    apply Forall_insert; assumption.
Qed.

(** C2.  The transaction of a borrow request re-asserts
    [availableCopies > 0]: submitted to a store in which the book has no
    copy left, whatever the earlier read [bk] said, it is cancelled, the
    request answers 409 and the store stays as it is.  Hence, however
    borrow and return requests are interleaved, a store whose counters
    start non-negative keeps them non-negative; and when two accepted
    borrow requests, of users below their limits, race for a book with one
    available copy, every schedule that lets both finish ends with one 200,
    one 409 and no copy available.  The requests are such that build a
    record: their due dates are times a [Date] holds (a request whose
    duration takes the due date beyond is answered 500 before it writes). *)
Theorem last_copy_lent_once key :
  (forall ts hex b u dd bk usr s,
     currentBorrowedCount usr < borrowingLimit usr ->
     valid_time (add_days ts dd) = true ->
     (forall bk', books s !! b = Some bk' -> availableCopies bk' <= 0) ->
     step (borrow_user ts hex b u dd bk (Some usr)) s
     = (Ret (conflict "Unable to borrow book - please try again"), s))
  /\ (forall reqs sched s,
        copies_nonneg s ->
        copies_nonneg (sched_run sched (handler key <$> reqs) s).2)
  /\ (forall evA tsA hexA evB tsB hexB b uA uB ddA ddB s sched,
        accepted key evA b uA ddA ->
        accepted key evB b uB ddB ->
        valid_time (add_days tsA (Js.or_num ddA 14)) = true ->
        valid_time (add_days tsB (Js.or_num ddB 14)) = true ->
        copies s b = Some 1 ->
        below_limit s uA -> below_limit s uB ->
        (3 <= turns 0 sched)%nat -> (3 <= turns 1 sched)%nat ->
        exists rA rB s',
          sched_run sched
            [borrowBook key tsA hexA evA; borrowBook key tsB hexB evB] s
          = ([Ret rA; Ret rB], s')
          /\ ((statusCode rA = 200 /\ statusCode rB = 409)
              \/ (statusCode rA = 409 /\ statusCode rB = 200))
          /\ copies s' b = Some 0).
Proof.
  split; [| split].
  - intros ts hex b u dd bk usr s Hlim Hdue Hgone. unfold borrow_user.
    destruct (Z.leb_spec (borrowingLimit usr) (currentBorrowedCount usr));
      [lia |].
    rewrite Hdue. cbn [step].
    rewrite (borrow_items_cancel _ _ _ _ _ Hgone). reflexivity.
  - intros reqs sched s Hs.
    apply (sched_run_keeps copies_nonneg); [| exact Hs].
    apply Forall_fmap, Forall_true. intros req. apply keeps_handler.
  - intros evA tsA hexA evB tsB hexB b uA uB ddA ddB s sched
      HaccA HaccB HdueA HdueB Hc HlA HlB HtA HtB.
    rewrite (borrowBook_accepted _ _ _ _ _ _ _ HaccA).
    rewrite (borrowBook_accepted _ _ _ _ _ _ _ HaccB).
    destruct (race_run b uA uB tsA hexA (Js.or_num ddA 14)
                tsB hexB (Js.or_num ddB 14) HdueA HdueB sched 3 3 _ _ s
                (at_book _ _ _ _ _) (at_book _ _ _ _ _))
      as (nA & nB & pA & pB & s' & Hrun & HA & HB & Hrace & HnA & HnB).
    { destruct HlA as (usrA & HuA & HltA), HlB as (usrB & HuB & HltB).
      split; [rewrite HuA; eexists; reflexivity |].
      split; [rewrite HuB; eexists; reflexivity |].
      left. split; [exact Hc |].
      split; [exists usrA; split; assumption |].
      split; [exists usrB; split; assumption |]. lia. }
    assert (nA = 0%nat) as -> by lia. assert (nB = 0%nat) as -> by lia.
    destruct (borrowing_at_done _ _ _ _ _ _ HA) as [rA ->].
    destruct (borrowing_at_done _ _ _ _ _ _ HB) as [rB ->].
    exists rA, rB, s'. split; [exact Hrun |].
    destruct Hrace as (_ & _ & [(_ & _ & _ & Hn & _) | (Hgone & Hwon)]);
      [lia |].
    split; [| exact Hgone].
    destruct Hwon as [[(r & [= <-] & H200) H409]
                     | [(r & [= <-] & H200) H409]].
    + left. split; [exact H200 | apply H409; reflexivity].
    + right. split; [apply H409; reflexivity | exact H200].
Qed.

(** Two users ask for the single copy of [bk_000001]; their requests take
    turns at the store. *)
Lemma last_copy_lent_once_witness :
  exists rA rB s',
    sched_run [0; 1; 0; 1; 0; 1]%nat
      [ borrowBook None 1000 "00000a" (request "bk_000001" "usr_000001" None);
        borrowBook None 1001 "00000b" (request "bk_000001" "usr_000002" None) ]
      library_two_users
    = ([Ret rA; Ret rB], s')
    /\ ((statusCode rA = 200 /\ statusCode rB = 409)
        \/ (statusCode rA = 409 /\ statusCode rB = 200))
    /\ copies s' "bk_000001" = Some 0.
Proof.
  apply (proj2 (proj2 (last_copy_lent_once None))
           (request "bk_000001" "usr_000001" None) 1000 "00000a"
           (request "bk_000001" "usr_000002" None) 1001 "00000b"
           "bk_000001" "usr_000001" "usr_000002" None None).
  - apply request_accepted; reflexivity.
  - apply request_accepted; reflexivity.
  - vm_compute. reflexivity.
  - vm_compute. reflexivity.
  - reflexivity.
  - exists user1. split; [reflexivity | vm_compute; reflexivity].
  - exists user1. split; [reflexivity | vm_compute; reflexivity].
  - vm_compute. lia.
  - vm_compute. lia.
Defined.

(** ** Generated identifiers *)

Lemma strip_prefix_app p r : Js.strip_prefix p (p +:+ r) = Some r.
Proof.
  induction p as [| a p IH]; simpl; [reflexivity |].
  rewrite bool_decide_eq_true_2 by reflexivity. exact IH.
Qed.

Lemma append_assoc_string (a b c : string) :
  (a +:+ b) +:+ c = a +:+ b +:+ c.
Proof.
  induction a as [| x a IH]; [reflexivity |].
  change (String x ((a +:+ b) +:+ c) = String x (a +:+ b +:+ c)).
  f_equal. exact IH.
Qed.

Lemma append_cancel_l (p a b : string) : p +:+ a = p +:+ b -> a = b.
Proof. apply String.app_inj. Qed.

Lemma byte_hex_shape b :
  exists h l,
    byte_hex b = String h (String l EmptyString)
    /\ Js.is_alnum h = true /\ Js.is_alnum l = true.
Proof.
  eexists _, _. split; [reflexivity |].
  destruct b; split; vm_compute; reflexivity.
Qed.

Lemma hex_byte_byte_hex b rest : hex_byte (byte_hex b +:+ rest) = Some b.
Proof. destruct b; reflexivity. Qed.

Lemma to_hex_3_shape b1 b2 b3 :
  String.length (to_hex [b1; b2; b3]) = 6%nat
  /\ Js.all_alnum (to_hex [b1; b2; b3]) = true.
Proof.
  destruct (byte_hex_shape b1) as (h1 & l1 & E1 & Hh1 & Hl1).
  destruct (byte_hex_shape b2) as (h2 & l2 & E2 & Hh2 & Hl2).
  destruct (byte_hex_shape b3) as (h3 & l3 & E3 & Hh3 & Hl3).
  cbn [to_hex]. rewrite E1, E2, E3. simpl.
  rewrite Hh1, Hl1, Hh2, Hl2, Hh3, Hl3. split; reflexivity.
Qed.

Lemma drawn_id_valid prefix b1 b2 b3 :
  invalid_id (prefix +:+ "_") (Some (drawn_id prefix b1 b2 b3)) = false.
Proof.
  unfold invalid_id, drawn_id, generateId, Js.match_id.
  cbn [default from_option id].
  rewrite <- append_assoc_string, strip_prefix_app.
  destruct (to_hex_3_shape b1 b2 b3) as [Hlen Hal].
  rewrite Hlen, Hal.
  destruct prefix; reflexivity.
Qed.

(** X1.  Whatever three bytes [crypto.randomBytes(3)] draws, the identifier
    [generateId(prefix)] builds passes the handlers' format check for that
    prefix (so identifiers generated for books, users and loans are accepted
    wherever the handlers validate them), and different draws give
    different identifiers. *)
Theorem drawn_id_well_formed prefix b1 b2 b3 :
  invalid_id (prefix +:+ "_") (Some (drawn_id prefix b1 b2 b3)) = false
  /\ forall c1 c2 c3,
       drawn_id prefix b1 b2 b3 = drawn_id prefix c1 c2 c3 ->
       b1 = c1 /\ b2 = c2 /\ b3 = c3.
Proof.
  split.
  - apply drawn_id_valid.
  - intros c1 c2 c3 H. unfold drawn_id, generateId in H.
    apply append_cancel_l, append_cancel_l in H. cbn [to_hex] in H.
    assert (H1 : Some b1 = Some c1).
    { rewrite <- (hex_byte_byte_hex b1 (byte_hex b2 +:+ byte_hex b3 +:+ "")),
        <- (hex_byte_byte_hex c1 (byte_hex c2 +:+ byte_hex c3 +:+ "")).
      rewrite H. reflexivity. }
    injection H1 as <-. apply append_cancel_l in H.
    assert (H2 : Some b2 = Some c2).
    { rewrite <- (hex_byte_byte_hex b2 (byte_hex b3 +:+ "")),
        <- (hex_byte_byte_hex c2 (byte_hex c3 +:+ "")).
      rewrite H. reflexivity. }
    injection H2 as <-. apply append_cancel_l in H.
    assert (H3 : Some b3 = Some c3).
    { rewrite <- (hex_byte_byte_hex b3 ""), <- (hex_byte_byte_hex c3 "").
      rewrite H. reflexivity. }
    injection H3 as <-. repeat split; reflexivity.
Qed.

(** ** Authentication and request validation *)

Lemma expected_key_nonempty key : Js.or_str key "test-api-key" <> "".
Proof.
  destruct key as [k |]; simpl; [| discriminate].
  case_bool_decide; [discriminate | assumption].
Qed.

Lemma falsy_Some_false k : k <> "" -> Js.falsy (Some k) = false.
Proof. intros H. simpl. apply bool_decide_eq_false_2, H. Qed.

Lemma validateApiKey_401 key event :
  validateApiKey key event <> None ->
  validateApiKey key event = Some unauthorized.
Proof.
  unfold validateApiKey.
  repeat case_match; intros Hx;
    first [reflexivity | exfalso; apply Hx; reflexivity].
Qed.

(** X2.  [validateApiKey] lets a request pass exactly when the key it
    presents, the header [X-API-Key] or, when that one is absent or empty,
    the header [x-api-key], equals the expected key: the environment's
    [API_KEY_VALUE], or ['test-api-key'] when that is unset or empty.  Every
    other request gets the one 401 response; the expected key is never the
    empty string. *)
Theorem validateApiKey_accepts key event :
  let expected := Js.or_str key "test-api-key" in
  (validateApiKey key event = None
   <-> headers event !! "X-API-Key" = Some expected
       \/ (Js.falsy (headers event !! "X-API-Key") = true
           /\ headers event !! "x-api-key" = Some expected))
  /\ (validateApiKey key event <> None ->
      validateApiKey key event = Some unauthorized)
  /\ expected <> "".
Proof.
  intros expected. pose proof (expected_key_nonempty key) as Hne.
  fold expected in Hne. unfold validateApiKey. fold expected.
  split; [| split; [| exact Hne]].
  - split.
    + destruct (Js.falsy (headers event !! "X-API-Key")) eqn:E1.
      * destruct (Js.falsy (headers event !! "x-api-key")); [discriminate |].
        case_bool_decide as E2; [| discriminate].
        intros _. right. split; [reflexivity | exact E2].
      * rewrite E1. case_bool_decide as E2; [| discriminate].
        intros _. left. exact E2.
    + intros [H1 | [H1 H2]].
      * rewrite H1, (falsy_Some_false _ Hne), (falsy_Some_false _ Hne).
        rewrite bool_decide_eq_true_2; reflexivity.
      * rewrite H1, H2, (falsy_Some_false _ Hne).
        rewrite bool_decide_eq_true_2; reflexivity.
  - unfold expected. apply validateApiKey_401.
Qed.

Lemma invalid_id_false p x :
  invalid_id p x = false -> exists v, x = Some v.
Proof.
  destruct x as [v |]; [intros _; exists v; reflexivity | discriminate].
Qed.

Lemma handler_rejects key req :
  (exists r,
      handler key req = Ret r
      /\ (statusCode r = 400 \/ statusCode r = 401 \/ statusCode r = 500))
  \/ exists b u dd, accepted key (event_of req) b u dd.
Proof.
  pose proof (validateApiKey_401 key (event_of req)) as H401.
  destruct req as [event ts hex | event ts]; cbn [handler event_of] in *;
    unfold borrowBook, returnBook, accepted.
  all: destruct (validateApiKey key event) as [e |] eqn:Hk;
    [left; exists e; split; [reflexivity |];
     injection (H401 ltac:(discriminate)) as ->;
     right; left; reflexivity |].
  all: destruct (pathParameters event) as [params |];
    [| left; eexists; split; [reflexivity | right; right; reflexivity]].
  all: destruct (body event) as [bd |];
    [| left; eexists; split; [reflexivity | right; right; reflexivity]].
  all: destruct (invalid_id "bk_" (params !! "bookId")) eqn:Hb;
    [left; eexists; split; [reflexivity | left; reflexivity] |].
  all: destruct bd as [bd |];
    [| left; eexists; split; [reflexivity | right; right; reflexivity]].
  all: destruct (invalid_id "usr_" (userId bd)) eqn:Hu;
    [left; eexists; split; [reflexivity | left; reflexivity] |].
  all: right.
  all: destruct (invalid_id_false _ _ Hb) as [b Eb].
  all: destruct (invalid_id_false _ _ Hu) as [u Eu].
  all: exists b, u, (durationDays bd).
  all: split; [reflexivity |].
  all: exists params, bd; rewrite <- Eb, <- Eu; repeat split; assumption.
Qed.

(** X3.  A borrow or return request reaches the store exactly when it is
    accepted: valid API key, parsable body, well-formed book and user
    identifiers.  Any other request is answered 400, 401 or 500 without a
    single store request, and the store is as before. *)
Theorem store_untouched_iff_rejected key req s :
  (trace (handler key req) s = []
   <-> ~ exists b u dd, accepted key (event_of req) b u dd)
  /\ (trace (handler key req) s = [] ->
      exists r,
        run (handler key req) s = (r, s)
        /\ (statusCode r = 400 \/ statusCode r = 401 \/ statusCode r = 500)).
Proof.
  assert (Hacc : forall b u dd,
             accepted key (event_of req) b u dd ->
             trace (handler key req) s <> []).
  { intros b u dd Hacc. destruct req as [event ts hex | event ts];
      cbn [handler event_of] in *.
    - rewrite (borrowBook_accepted _ _ _ _ _ _ _ Hacc). discriminate.
    - rewrite (returnBook_accepted _ _ _ _ _ _ Hacc). discriminate. }
  destruct (handler_rejects key req) as [(r & Hr & Hst) | (b & u & dd & Ha)].
  - rewrite Hr. simpl. split; [| intros _; exists r; split; auto].
    split; [| reflexivity].
    intros _ (b & u & dd & Ha). apply (Hacc b u dd Ha).
    rewrite Hr. reflexivity.
  - split.
    + split; [intros Ht; exfalso; exact (Hacc b u dd Ha Ht) |].
      intros Hno. exfalso. apply Hno. eauto.
    + intros Ht. exfalso. exact (Hacc b u dd Ha Ht).
Qed.

(** ** Responses and store requests of a run *)

(** Every branch of a handler, with the store's answers taken one by one. *)
Ltac handler_cases :=
  unfold borrowBook, borrow_book, borrow_user, borrow_done,
    returnBook, return_record, return_done;
  repeat (cbn [run trace]; case_match).

(** X4.  A borrow or return request run alone answers 200 exactly when its
    last store request is a committed transaction.  It makes at most three
    store requests, and its status is one of 200, 400, 401, 404, 409 and
    500. *)
Theorem ok_iff_committed key req s :
  let p := handler key req in
  (statusCode (run p s).1 = 200
   <-> exists items, last (trace p s) = Some (OpTransactWrite items true))
  /\ (List.length (trace p s) <= 3)%nat
  /\ statusCode (run p s).1 ∈ [200; 400; 401; 404; 409; 500].
Proof.
  intros p. subst p.
  pose proof (validateApiKey_401 key (event_of req)) as H401.
  destruct req as [event ts hex | event ts]; cbn [handler event_of] in *.
  - handler_cases;
      try (injection (H401 ltac:(discriminate)) as ->);
      cbn; (split; [| split; [lia | set_solver]]);
      (split; [first [discriminate | intros _; eexists; reflexivity]
              | first [reflexivity | intros [? [=]]]]).
  - handler_cases;
      try (injection (H401 ltac:(discriminate)) as ->);
      cbn; (split; [| split; [lia | set_solver]]);
      (split; [first [discriminate | intros _; eexists; reflexivity]
              | first [reflexivity | intros [? [=]]]]).
Qed.

(** ** Pagination, for every request *)

Lemma digits_bound s :
  forall acc v,
    0 <= default 0 acc -> Js.digits s acc = Some v ->
    0 <= v < 10 ^ Z.of_nat (String.length s) * (default 0 acc + 1).
Proof.
  induction s as [| c r IH]; intros acc v Hacc; cbn [Js.digits].
  - intros ->. simpl in *. lia.
  - destruct (Js.is_digit c) eqn:Hc.
    + intros Hd. unfold Js.is_digit in Hc.
      apply andb_true_iff in Hc as [H1 H2].
      apply Z.leb_le in H1, H2.
      apply IH in Hd; [| simpl; lia].
      cbn [String.length]. rewrite Nat2Z.inj_succ, Z.pow_succ_r by lia.
      simpl in Hd.
      assert (0 < 10 ^ Z.of_nat (String.length r))
        by (apply Z.pow_pos_nonneg; lia).
      nia.
    + intros ->. simpl in *.
      assert (0 < 10 ^ Z.of_nat (S (String.length r)))
        by (apply Z.pow_pos_nonneg; lia).
      nia.
Qed.

Lemma skip_space_length s :
  (String.length (Js.skip_space s) <= String.length s)%nat.
Proof.
  induction s as [| c r IH]; simpl; [lia |].
  destruct (Js.is_space c); simpl; lia.
Qed.

(** A string of [n] characters is parsed to a number below [10 ^ n] in
    absolute value. *)
Lemma parseInt_bound s p :
  Js.parseInt s = Js.Num p -> Z.abs p < 10 ^ Z.of_nat (String.length s).
Proof.
  unfold Js.parseInt.
  pose proof (skip_space_length s) as Hlen.
  assert (Hr : forall sign u,
             (sign = 1 \/ sign = -1) ->
             (String.length u <= String.length s)%nat ->
             match Js.digits u None with
             | Some v => Js.Num (sign * v)
             | None => Js.NaN
             end = Js.Num p ->
             Z.abs p < 10 ^ Z.of_nat (String.length s)).
  { intros sign u Hs Hu.
    destruct (Js.digits u None) as [v |] eqn:E; [| discriminate].
    intros [= <-]. apply digits_bound in E; [| simpl; lia]. simpl in E.
    assert (10 ^ Z.of_nat (String.length u)
            <= 10 ^ Z.of_nat (String.length s))
      by (apply Z.pow_le_mono_r; lia).
    destruct Hs as [-> | ->]; lia. }
  destruct (Js.skip_space s) as [| c r].
  - apply (Hr 1 ""); [left; reflexivity | simpl; lia].
  - cbn [String.length] in Hlen.
    destruct c as [[] [] [] [] [] [] [] []];
      first [ apply (Hr 1 (String _ r));
                [left; reflexivity | cbn [String.length]; lia]
            | apply (Hr (-1) r); [right; reflexivity | lia]
            | apply (Hr 1 r); [left; reflexivity | lia] ].
Qed.

(** X5.  For a query string of ASCII characters whose [page] has at most
    13 of them, [parsePaginationParams] returns no number out of range: a
    numeric page is at least 1 and below 10^13, a numeric limit lies
    between 1 and 100, and the offset is [(page - 1) * limit], not negative
    and below 2^53, when both are numeric and [NaN] exactly when one of
    them is [NaN].  Within these bounds every number is an integer that a
    JavaScript number holds exactly. *)
Theorem parsePaginationParams_bounds event :
  let pageText := Js.or_str (query_param event "page") "1" in
  let limitText := Js.or_str (query_param event "limit") "20" in
  ascii_only pageText = true ->
  (String.length pageText <= 13)%nat ->
  ascii_only limitText = true ->
  let r := parsePaginationParams event in
  match page r, limit r, offset r with
  | Js.Num p, Js.Num l, Js.Num o =>
      1 <= p < 10 ^ 13 /\ 1 <= l <= 100
      /\ o = (p - 1) * l /\ 0 <= o < 2 ^ 53
  | Js.Num p, Js.NaN, Js.NaN => 1 <= p < 10 ^ 13
  | Js.NaN, Js.Num l, Js.NaN => 1 <= l <= 100
  | Js.NaN, Js.NaN, Js.NaN => True
  | _, _, _ => False
  end.
Proof.
  intros pageText limitText _ Hlen _. unfold parsePaginationParams.
  fold pageText. fold limitText.
  pose proof (parseInt_bound pageText) as Hp.
  assert (Hpow : 10 ^ Z.of_nat (String.length pageText) <= 10 ^ 13)
    by (apply Z.pow_le_mono_r; lia).
  destruct (Js.parseInt pageText) as [| p];
    destruct (Js.parseInt limitText) as [| l]; cbn; try exact I; try lia.
  - specialize (Hp p eq_refl). lia.
  - specialize (Hp p eq_refl).
    assert (Hmax : 1 <= Z.max 1 p < 10 ^ 13) by lia.
    assert (Hmin : 1 <= Z.max 1 (Z.min 100 l) <= 100) by lia.
    change (2 ^ 53) with 9007199254740992.
    change (10 ^ 13) with 10000000000000 in *.
    repeat split; try lia; nia.
Qed.

(** The request [?page= 3&limit=500]: page 3, the limit cut down to 100,
    offset 200. *)
Lemma parsePaginationParams_bounds_witness :
  parsePaginationParams (list_request [("page", " 3"); ("limit", "500")])
  = {| page := Js.Num 3; limit := Js.Num 100; offset := Js.Num 200 |}
  /\ (1 <= 3 < 10 ^ 13 /\ 1 <= 100 <= 100
      /\ 200 = (3 - 1) * 100 /\ 0 <= 200 < 2 ^ 53).
Proof.
  split; [vm_compute; reflexivity |].
  exact (parsePaginationParams_bounds
           (list_request [("page", " 3"); ("limit", "500")])
           eq_refl ltac:(vm_compute; lia) eq_refl).
Defined.

(** ** Borrowing and returning, one after the other *)

Lemma borrowBook_store key ts hex event b u dd s bk usr :
  accepted key event b u dd ->
  books s !! b = Some bk -> 0 < availableCopies bk ->
  users s !! u = Some usr ->
  currentBorrowedCount usr < borrowingLimit usr ->
  valid_time (add_days ts (Js.or_num dd 14)) = true ->
  run (borrowBook key ts hex event) s
  = (createResponse 200
       (BorrowedBody (generateId "brw" hex) u b ts
          (add_days ts (Js.or_num dd 14)) active),
     {| books := <[b := add_copies (-1) ts bk]> (books s);
        users := <[u := add_borrowed 1 ts usr]> (users s);
        borrowing :=
          put_record (index_slot s) (new_record ts hex b u (Js.or_num dd 14) bk)
            (borrowing s);
        index_slot := index_slot s |}).
Proof.
  intros Hacc Hb Hpos Hu Hlim Hdue.
  rewrite (borrowBook_accepted _ _ _ _ _ _ _ Hacc).
  cbn [run]. rewrite Hb. unfold borrow_book.
  destruct (Z.leb_spec (availableCopies bk) 0); [lia |].
  cbn [run]. rewrite Hu. unfold borrow_user.
  destruct (Z.leb_spec (borrowingLimit usr) (currentBorrowedCount usr));
    [lia |].
  rewrite Hdue.
  cbn [run]. rewrite (borrow_items_commit _ _ _ _ _ _ _ Hb Hpos Hu).
  reflexivity.
Qed.

(** The same request when the duration takes the due date out of the range
    of [Date]: 500, and the store is as before. *)
Lemma borrowBook_out_of_range key ts hex event b u dd s bk usr :
  accepted key event b u dd ->
  books s !! b = Some bk -> 0 < availableCopies bk ->
  users s !! u = Some usr ->
  currentBorrowedCount usr < borrowingLimit usr ->
  valid_time (add_days ts (Js.or_num dd 14)) = false ->
  run (borrowBook key ts hex event) s = (internal_error, s).
Proof.
  intros Hacc Hb Hpos Hu Hlim Hdue.
  rewrite (borrowBook_accepted _ _ _ _ _ _ _ Hacc).
  cbn [run]. rewrite Hb. unfold borrow_book.
  destruct (Z.leb_spec (availableCopies bk) 0); [lia |].
  cbn [run]. rewrite Hu. unfold borrow_user.
  destruct (Z.leb_spec (borrowingLimit usr) (currentBorrowedCount usr));
    [lia |].
  rewrite Hdue. reflexivity.
Qed.

Lemma returnBook_store key ts event b u dd s r rest bk usr :
  accepted key event b u dd ->
  query_UserIndex u active b s = r :: rest ->
  books s !! b = Some bk ->
  users s !! u = Some usr -> 0 < currentBorrowedCount usr ->
  run (returnBook key ts event) s
  = (createResponse 200
       (ReturnedBody (br_id r) (br_userId r) (br_bookId r)
          (br_borrowedAt r) (br_dueDate r) ts returned),
     {| books := <[b := add_copies 1 ts bk]> (books s);
        users := <[u := add_borrowed (-1) ts usr]> (users s);
        borrowing := update_record (br_id r) returned ts (borrowing s);
        index_slot := index_slot s |}).
Proof.
  intros Hacc Hq Hb Hu Hpos.
  rewrite (returnBook_accepted _ _ _ _ _ _ Hacc).
  cbn [run]. rewrite Hq. cbn [return_record run].
  rewrite (return_items_commit _ _ _ _ _ _ _ Hb Hu Hpos). reflexivity.
Qed.

Lemma returnBook_no_record key ts event b u dd s :
  accepted key event b u dd ->
  (forall r, r ∈ borrowing s -> ~ active_loan u b r) ->
  run (returnBook key ts event) s
  = (createErrorResponse 404 "NOT_FOUND" "No active borrowing record found"
       None, s).
Proof.
  intros Hacc Hno.
  rewrite (returnBook_accepted _ _ _ _ _ _ Hacc). cbn [run].
  rewrite (proj2 (query_nil u b s)); [reflexivity |].
  intros (r & Hin & Hact). exact (Hno r Hin Hact).
Qed.

Lemma filter_nil_app (f : BorrowingRecord -> bool) l1 l2 :
  List.filter f (l1 ++ l2)%list = [] ->
  List.filter f l1 = [] /\ List.filter f l2 = [].
Proof.
  rewrite List.filter_app. intros H.
  apply app_eq_nil in H. exact H.
Qed.

(** The loan just written is the only active loan of its pair when the
    pair had none before. *)
Lemma query_after_borrow ts hex b u dd bk bs us slot
    (tbl : list BorrowingRecord) :
  generateId "brw" hex ∉ br_id <$> tbl ->
  (forall r, r ∈ tbl -> ~ active_loan u b r) ->
  query_UserIndex u active b
    {| books := bs; users := us;
       borrowing := put_record slot (new_record ts hex b u dd bk) tbl;
       index_slot := slot |}
  = [new_record ts hex b u dd bk].
Proof.
  intros Hfresh Hno.
  destruct (put_record_fresh slot (new_record ts hex b u dd bk) tbl Hfresh)
    as (l1 & l2 & Htbl & Hput).
  unfold query_UserIndex. cbn [borrowing]. rewrite Hput.
  assert (Hnil : List.filter (matches u active b) (l1 ++ l2)%list = []).
  { rewrite <- Htbl.
    apply (proj2 (query_nil u b {| books := bs; users := us;
                                   borrowing := tbl;
                                   index_slot := slot |})).
    intros (r & Hin & Hact). exact (Hno r Hin Hact). }
  apply filter_nil_app in Hnil as [H1 H2].
  rewrite List.filter_app. cbn [List.filter].
  rewrite H1, H2.
  assert (Hm : matches u active b (new_record ts hex b u dd bk) = true).
  { apply matches_active_loan. repeat split. }
  rewrite Hm. reflexivity.
Qed.

Lemma update_record_returned id ts u b (tbl : list BorrowingRecord) :
  (forall r, r ∈ tbl -> active_loan u b r -> br_id r = id) ->
  forall r, r ∈ update_record id returned ts tbl -> ~ active_loan u b r.
Proof.
  intros Hid r Hin Hact. unfold update_record in Hin.
  apply list_elem_of_fmap in Hin as (x & -> & Hx).
  case_bool_decide as E.
  - destruct Hact as (_ & _ & Hst). discriminate.
  - apply E, Hid; assumption.
Qed.

(** X6.  Borrowing a book and then returning it undoes the counters: when
    the pair has no active loan, the book has a copy, the user is below the
    limit with a counter that is not negative, the generated identifier is
    new and the due date is a time a [Date] holds (so that the borrow
    answers 200), the return after it answers 200 for the loan just made,
    the book's available copies and the user's counter are back at their
    values, the pair has no active loan again, and no other book or user
    has changed. *)
Theorem borrow_then_return
    key tsB hex evB tsR evR b u ddB ddR s bk usr :
  accepted key evB b u ddB ->
  accepted key evR b u ddR ->
  books s !! b = Some bk -> 0 < availableCopies bk ->
  users s !! u = Some usr ->
  0 <= currentBorrowedCount usr < borrowingLimit usr ->
  generateId "brw" hex ∉ br_id <$> borrowing s ->
  (forall r, r ∈ borrowing s -> ~ active_loan u b r) ->
  valid_time (add_days tsB (Js.or_num ddB 14)) = true ->
  exists s2,
    run (returnBook key tsR evR) (run (borrowBook key tsB hex evB) s).2
    = (createResponse 200
         (ReturnedBody (generateId "brw" hex) u b tsB
            (tsB + Js.or_num ddB 14 * day_ms) tsR returned), s2)
    /\ copies s2 b = Some (availableCopies bk)
    /\ borrowed s2 u = Some (currentBorrowedCount usr)
    /\ (forall r, r ∈ borrowing s2 -> ~ active_loan u b r)
    /\ (forall b', b' <> b -> books s2 !! b' = books s !! b')
    /\ (forall u', u' <> u -> users s2 !! u' = users s !! u').
Proof.
  intros HaccB HaccR Hb Hpos Hu [Hge Hlim] Hfresh Hno Hdue.
  rewrite (borrowBook_store _ _ _ _ _ _ _ _ _ _ HaccB Hb Hpos Hu Hlim Hdue).
  cbn [snd].
  set (rec := new_record tsB hex b u (Js.or_num ddB 14) bk).
  erewrite (returnBook_store _ _ _ _ _ _ _ rec []);
    [| exact HaccR
     | apply query_after_borrow; assumption
     | cbn [books]; apply lookup_insert_eq
     | cbn [users]; apply lookup_insert_eq
     | simpl; lia].
  eexists. split; [reflexivity |].
  unfold copies, borrowed. cbn [books users borrowing].
  rewrite !lookup_insert_eq. simpl.
  split; [f_equal; lia |]. split; [f_equal; lia |].
  split; [| split].
  - apply update_record_returned. intros r Hin Hact.
    destruct (put_record_fresh (index_slot s) rec (borrowing s) Hfresh)
      as (l1 & l2 & Htbl & Hput).
    rewrite Hput in Hin.
    apply elem_of_app in Hin as [Hin | Hin].
    + exfalso. apply (Hno r); [| exact Hact].
      rewrite Htbl. apply elem_of_app. left. exact Hin.
    + apply elem_of_cons in Hin as [-> | Hin]; [reflexivity |].
      exfalso. apply (Hno r); [| exact Hact].
      rewrite Htbl. apply elem_of_app. right. exact Hin.
  - intros b' Hne. rewrite !lookup_insert_ne by congruence. reflexivity.
  - intros u' Hne. rewrite !lookup_insert_ne by congruence. reflexivity.
Qed.

Lemma borrow_then_return_witness :
  exists s2,
    run (returnBook None 5000 (ask "bk_000001"))
      (run (borrowBook None 1000 "a1b2c3" (borrow1 (Some 7))) library).2
    = (createResponse 200
         (ReturnedBody "brw_a1b2c3" "usr_000001" "bk_000001" 1000
            (1000 + 7 * day_ms) 5000 returned), s2)
    /\ copies s2 "bk_000001" = Some 1
    /\ borrowed s2 "usr_000001" = Some 0.
Proof.
  destruct (borrow_then_return None 1000 "a1b2c3" (borrow1 (Some 7))
              5000 (ask "bk_000001") "bk_000001" "usr_000001"
              (Some 7) None library book1 user1
              (borrow1_accepted _) (borrow1_accepted _) eq_refl
              ltac:(vm_compute; reflexivity) eq_refl
              ltac:(vm_compute; split; [discriminate | reflexivity])
              ltac:(vm_compute; apply not_elem_of_nil)
              ltac:(intros r Hr; vm_compute in Hr;
                    exfalso; exact (not_elem_of_nil _ Hr))
              ltac:(vm_compute; reflexivity))
    as (s2 & Hrun & Hc & Hu & _).
  exists s2. repeat split; assumption.
Defined.

(** X7.  A loan is returned once: after a request has returned the one
    active loan of a book and a user, the next return request for the pair
    is answered 404 and leaves the store as the first return left it. *)
Theorem return_twice key ts1 ev1 ts2 ev2 b u dd1 dd2 s r bk usr :
  accepted key ev1 b u dd1 ->
  accepted key ev2 b u dd2 ->
  r ∈ borrowing s -> active_loan u b r ->
  (forall r', r' ∈ borrowing s -> active_loan u b r' -> r' = r) ->
  books s !! b = Some bk ->
  users s !! u = Some usr -> 0 < currentBorrowedCount usr ->
  statusCode (run (returnBook key ts1 ev1) s).1 = 200
  /\ run (returnBook key ts2 ev2) (run (returnBook key ts1 ev1) s).2
     = (createErrorResponse 404 "NOT_FOUND"
          "No active borrowing record found" None,
        (run (returnBook key ts1 ev1) s).2).
Proof.
  intros Hacc1 Hacc2 Hin Hact Huniq Hb Hu Hpos.
  destruct (query_unique u b s r Hin Hact Huniq) as [rest Hq].
  rewrite (returnBook_store _ _ _ _ _ _ _ _ _ _ _ Hacc1 Hq Hb Hu Hpos).
  split; [reflexivity |]. cbn [snd].
  apply (returnBook_no_record _ _ _ _ _ _ _ Hacc2).
  cbn [borrowing]. apply update_record_returned.
  intros r' Hin' Hact'. rewrite (Huniq r' Hin' Hact'). reflexivity.
Qed.

Lemma return_twice_witness :
  let s1 :=
    (run (borrowBook None 1000 "a1b2c3" (borrow1 None)) library).2 in
  statusCode (run (returnBook None 5000 (ask "bk_000001")) s1).1 = 200
  /\ (run (returnBook None 6000 (ask "bk_000001"))
        (run (returnBook None 5000 (ask "bk_000001")) s1).2).1
     = createErrorResponse 404 "NOT_FOUND"
         "No active borrowing record found" None.
Proof.
  intros s1.
  destruct (return_twice None 5000 (ask "bk_000001") 6000
              (ask "bk_000001") "bk_000001" "usr_000001" None None s1
              (new_record 1000 "a1b2c3" "bk_000001" "usr_000001" 14 book1)
              (add_copies (-1) 1000 book1) (add_borrowed 1 1000 user1)
              (borrow1_accepted _) (borrow1_accepted _)) as [H1 H2].
  - vm_compute. left.
  - vm_compute. repeat split; reflexivity.
  - intros r' Hr' _. vm_compute in Hr'.
    apply list_elem_of_singleton in Hr'. exact Hr'.
  - vm_compute. reflexivity.
  - vm_compute. reflexivity.
  - vm_compute. reflexivity.
  - split; [exact H1 | rewrite H2; reflexivity].
Defined.

Lemma replace_record_ids r (tbl : list BorrowingRecord) :
  br_id <$> replace_record r tbl = br_id <$> tbl.
Proof.
  induction tbl as [| x t IH]; [reflexivity |]. cbn [replace_record].
  case_bool_decide as E; rewrite !fmap_cons;
    [rewrite E | rewrite IH]; reflexivity.
Qed.

(** The identifiers of the table after a [Put]. *)
Lemma put_record_ids slot r (tbl : list BorrowingRecord) :
  br_id <$> put_record slot r tbl
  ≡ₚ if bool_decide (br_id r ∈ br_id <$> tbl)
     then br_id <$> tbl
     else br_id r :: (br_id <$> tbl).
Proof.
  unfold put_record. case_bool_decide as E.
  - rewrite replace_record_ids. reflexivity.
  - destruct (insert_at_split (slot r tbl) r tbl) as (l1 & l2 & Ht & ->).
    rewrite Ht, !fmap_app, fmap_cons. symmetry.
    apply Permutation_middle.
Qed.

Lemma put_record_keeps slot r (tbl : list BorrowingRecord) x :
  x ∈ tbl -> br_id x <> br_id r -> x ∈ put_record slot r tbl.
Proof.
  intros Hx Hne. unfold put_record. case_bool_decide as E.
  - clear E. induction tbl as [| y t IH]; [inversion Hx |]. simpl.
    apply elem_of_cons in Hx as [<- | Hx].
    + rewrite bool_decide_eq_false_2 by exact Hne. left.
    + case_bool_decide; right; [| apply IH]; exact Hx.
  - destruct (insert_at_split (slot r tbl) r tbl) as (l1 & l2 & Ht & ->).
    rewrite Ht in Hx. apply elem_of_app in Hx as [Hx | Hx];
      apply elem_of_app; [left | right; right]; exact Hx.
Qed.

Lemma generateId_inj prefix h1 h2 :
  generateId prefix h1 = generateId prefix h2 -> h1 = h2.
Proof.
  unfold generateId. intros H.
  apply append_cancel_l in H. apply append_cancel_l in H. exact H.
Qed.

(** X8.  Nothing in [borrowBook] looks for an earlier loan of the same
    book to the same user: when the book has two copies available and the
    user two loans left, two borrow requests of the pair, drawing different
    identifiers and asking for durations whose due dates are times a
    [Date] holds, both answer 200, and afterwards the table holds two
    active loans of that pair. *)
Theorem same_title_borrowed_twice
    key ts1 hex1 ev1 ts2 hex2 ev2 b u dd1 dd2 s bk usr :
  accepted key ev1 b u dd1 ->
  accepted key ev2 b u dd2 ->
  books s !! b = Some bk -> 2 <= availableCopies bk ->
  users s !! u = Some usr ->
  currentBorrowedCount usr + 2 <= borrowingLimit usr ->
  hex1 <> hex2 ->
  valid_time (add_days ts1 (Js.or_num dd1 14)) = true ->
  valid_time (add_days ts2 (Js.or_num dd2 14)) = true ->
  let out1 := run (borrowBook key ts1 hex1 ev1) s in
  let out2 := run (borrowBook key ts2 hex2 ev2) out1.2 in
  statusCode out1.1 = 200 /\ statusCode out2.1 = 200
  /\ copies out2.2 b = Some (availableCopies bk - 2)
  /\ borrowed out2.2 u = Some (currentBorrowedCount usr + 2)
  /\ exists r1 r2,
       r1 ∈ borrowing out2.2 /\ r2 ∈ borrowing out2.2
       /\ br_id r1 <> br_id r2
       /\ active_loan u b r1 /\ active_loan u b r2.
Proof.
  intros Hacc1 Hacc2 Hb Hcopies Hu Hlim Hhex Hdue1 Hdue2 out1 out2.
  subst out1 out2.
  rewrite (borrowBook_store _ _ _ _ _ _ _ _ _ _ Hacc1 Hb
             ltac:(lia) Hu ltac:(lia) Hdue1).
  cbn [fst snd].
  erewrite (borrowBook_store _ _ _ _ _ _ _ _
              (add_copies (-1) ts1 bk) (add_borrowed 1 ts1 usr) Hacc2);
    [| cbn [books]; apply lookup_insert_eq
     | simpl; lia
     | cbn [users]; apply lookup_insert_eq
     | simpl; lia
     | exact Hdue2].
  cbn [fst snd]. split; [reflexivity |]. split; [reflexivity |].
  unfold copies, borrowed. cbn [books users borrowing].
  rewrite !lookup_insert_eq. simpl.
  split; [f_equal; lia |]. split; [f_equal; lia |].
  eexists (new_record ts1 hex1 b u (Js.or_num dd1 14) bk),
    (new_record ts2 hex2 b u (Js.or_num dd2 14) (add_copies (-1) ts1 bk)).
  assert (Hid : generateId "brw" hex1 <> generateId "brw" hex2).
  { intros H. apply Hhex, (generateId_inj _ _ _ H). }
  split; [| split; [apply put_record_elem |]].
  - apply put_record_keeps; [apply put_record_elem | exact Hid].
  - split; [exact Hid |]. split; repeat split.
Qed.

Lemma same_title_borrowed_twice_witness :
  exists r1 r2,
    r1 ∈ borrowing same_title_twice /\ r2 ∈ borrowing same_title_twice
    /\ br_id r1 <> br_id r2
    /\ active_loan "usr_000001" "bk_000002" r1
    /\ active_loan "usr_000001" "bk_000002" r2.
Proof.
  destruct (same_title_borrowed_twice None 1000 "00000b" (ask "bk_000002")
              2000 "00000a" (ask "bk_000002") "bk_000002" "usr_000001"
              None None shelf book2 user1
              (request_accepted "bk_000002" "usr_000001" None
                 eq_refl eq_refl)
              (request_accepted "bk_000002" "usr_000001" None
                 eq_refl eq_refl)
              eq_refl ltac:(vm_compute; discriminate)
              eq_refl ltac:(vm_compute; discriminate)
              ltac:(discriminate)
              ltac:(vm_compute; reflexivity) ltac:(vm_compute; reflexivity))
    as (_ & _ & _ & _ & r1 & r2 & H).
  exists r1, r2. exact H.
Defined.

(** ** Interleaved requests *)

Lemma sched_run_first rest pA pB s :
  sched_run (0%nat :: rest) [pA; pB] s
  = sched_run rest [(step pA s).1; pB] (step pA s).2.
Proof. simpl. destruct (step pA s). reflexivity. Qed.

Lemma sched_run_second rest pA pB s :
  sched_run (1%nat :: rest) [pA; pB] s
  = sched_run rest [pA; (step pB s).1] (step pB s).2.
Proof. simpl. destruct (step pB s). reflexivity. Qed.

(** X9.  The borrowing limit is checked on the read only: the update of
    the user's counter carries no condition.  When a user with one loan
    left asks for two different available books, for durations whose due
    dates are times a [Date] holds, and both requests read before either
    writes, both answer 200 and the counter ends one above the limit. *)
Theorem limit_exceeded_by_interleaving
    key tsA hexA evA tsB hexB evB bA bB u ddA ddB s bkA bkB usr :
  accepted key evA bA u ddA ->
  accepted key evB bB u ddB ->
  bA <> bB ->
  books s !! bA = Some bkA -> 0 < availableCopies bkA ->
  books s !! bB = Some bkB -> 0 < availableCopies bkB ->
  users s !! u = Some usr ->
  currentBorrowedCount usr + 1 = borrowingLimit usr ->
  valid_time (add_days tsA (Js.or_num ddA 14)) = true ->
  valid_time (add_days tsB (Js.or_num ddB 14)) = true ->
  exists rA rB s',
    sched_run [0; 0; 1; 1; 0; 1]%nat
      [borrowBook key tsA hexA evA; borrowBook key tsB hexB evB] s
    = ([Ret rA; Ret rB], s')
    /\ statusCode rA = 200 /\ statusCode rB = 200
    /\ borrowed s' u = Some (borrowingLimit usr + 1).
Proof.
  intros HaccA HaccB Hne HbA HposA HbB HposB Hu Hlim HdueA HdueB.
  rewrite (borrowBook_accepted _ _ _ _ _ _ _ HaccA).
  rewrite (borrowBook_accepted _ _ _ _ _ _ _ HaccB).
  rewrite sched_run_first. cbn [step fst snd]. rewrite HbA.
  unfold borrow_book at 1.
  destruct (Z.leb_spec (availableCopies bkA) 0); [lia |].
  rewrite sched_run_first. cbn [step fst snd]. rewrite Hu.
  unfold borrow_user at 1.
  destruct (Z.leb_spec (borrowingLimit usr) (currentBorrowedCount usr));
    [lia |].
  rewrite HdueA.
  rewrite sched_run_second. cbn [step fst snd]. rewrite HbB.
  unfold borrow_book at 1.
  destruct (Z.leb_spec (availableCopies bkB) 0); [lia |].
  rewrite sched_run_second. cbn [step fst snd]. rewrite Hu.
  unfold borrow_user at 1.
  destruct (Z.leb_spec (borrowingLimit usr) (currentBorrowedCount usr));
    [lia |].
  rewrite HdueB.
  rewrite sched_run_first. cbn [step].
  rewrite (borrow_items_commit _ _ _ _ _ _ _ HbA HposA Hu). cbn [fst snd].
  rewrite sched_run_second. cbn [step].
  erewrite (borrow_items_commit _ _ bB u _ bkB (add_borrowed 1 tsA usr));
    [| cbn [books]; rewrite lookup_insert_ne by exact Hne; exact HbB
     | exact HposB
     | cbn [users]; apply lookup_insert_eq].
  cbn [fst snd sched_run borrow_done].
  eexists _, _, _. split; [reflexivity |].
  split; [reflexivity |]. split; [reflexivity |].
  unfold borrowed. cbn [users]. rewrite lookup_insert_eq. simpl.
  f_equal. lia.
Qed.

Lemma limit_exceeded_by_interleaving_witness :
  exists rA rB s',
    sched_run [0; 0; 1; 1; 0; 1]%nat
      [ borrowBook None 1000 "00000a" (ask "bk_000001");
        borrowBook None 1001 "00000b" (ask "bk_000002") ]
      (set_users (fun _ => {[ "usr_000001" := add_borrowed 4 0 user1 ]})
         shelf)
    = ([Ret rA; Ret rB], s')
    /\ statusCode rA = 200 /\ statusCode rB = 200
    /\ borrowed s' "usr_000001" = Some 6.
Proof.
  apply (limit_exceeded_by_interleaving None 1000 "00000a"
           (ask "bk_000001") 1001 "00000b" (ask "bk_000002")
           "bk_000001" "bk_000002" "usr_000001" None None
           (set_users (fun _ => {[ "usr_000001" := add_borrowed 4 0 user1 ]})
              shelf)
           book1 book2 (add_borrowed 4 0 user1)).
  - apply request_accepted; reflexivity.
  - apply request_accepted; reflexivity.
  - discriminate.
  - reflexivity.
  - vm_compute. reflexivity.
  - reflexivity.
  - vm_compute. reflexivity.
  - reflexivity.
  - vm_compute. reflexivity.
  - vm_compute. reflexivity.
  - vm_compute. reflexivity.
Defined.

(** A property kept by the transactions of both handlers is kept by every
    handler. *)
Lemma keeps_handler_any (P : Store -> Prop) key req :
  (forall ts rec b u s s',
     P s -> transactWrite (borrow_items ts rec b u) s = Some s' -> P s') ->
  (forall ts id b u s s',
     P s -> transactWrite (return_items ts id b u) s = Some s' -> P s') ->
  keeps P (handler key req).
Proof.
  intros Hborrow Hreturn.
  destruct req as [event ts hex | event ts]; cbn [handler].
  - unfold borrowBook. repeat (case_match; try exact I).
    intros [bk |]; [| exact I]. unfold borrow_book.
    case_match; [exact I |].
    intros [usr |]; [| exact I]. unfold borrow_user.
    case_match; [exact I |].
    case_match; [| exact I].
    split; [apply Hborrow |].
    intros [|]; exact I.
  - unfold returnBook. repeat (case_match; try exact I).
    intros [| r rest]; [exact I |]. unfold return_record.
    split; [apply Hreturn |].
    intros [|]; exact I.
Qed.

Lemma same_catalogue_update s0 s b bk bk' u usr usr' tbl :
  same_catalogue s0 s ->
  books s !! b = Some bk -> users s !! u = Some usr ->
  title bk' = title bk -> totalCopies bk' = totalCopies bk ->
  borrowingLimit usr' = borrowingLimit usr ->
  same_catalogue s0
    {| books := <[b := bk']> (books s);
       users := <[u := usr']> (users s);
       borrowing := tbl;
       index_slot := index_slot s |}.
Proof.
  intros [Hbs Hus] Hb Hu Ht Hc Hl. split; intros id; cbn [books users].
  - rewrite <- Hbs. destruct (decide (b = id)) as [<- | Hne].
    + rewrite lookup_insert_eq, Hb. simpl. rewrite Ht, Hc. reflexivity.
    + rewrite lookup_insert_ne by exact Hne. reflexivity.
  - rewrite <- Hus. destruct (decide (u = id)) as [<- | Hne].
    + rewrite lookup_insert_eq, Hu. simpl. rewrite Hl. reflexivity.
    + rewrite lookup_insert_ne by exact Hne. reflexivity.
Qed.

(** X10.  However borrow and return requests are interleaved, they never
    add or remove a book or a user, and never change a book's title, a
    book's [totalCopies] or a user's [borrowingLimit]. *)
Theorem catalogue_unchanged key reqs sched s0 :
  same_catalogue s0 (sched_run sched (handler key <$> reqs) s0).2.
Proof.
  apply (sched_run_keeps (same_catalogue s0)).
  - apply Forall_fmap, Forall_true. intros req.
    apply keeps_handler_any.
    + intros ts rec b u s s' Hs Htx.
      apply borrow_items_inv in Htx as (bk & usr & Hb & _ & Hu & ->).
      apply (same_catalogue_update s0 s b bk _ u usr); auto.
    + intros ts id b u s s' Hs Htx.
      apply return_items_inv in Htx as (bk & usr & Hb & Hu & _ & ->).
      apply (same_catalogue_update s0 s b bk _ u usr); auto.
  - split; reflexivity.
Qed.

Lemma keeps_ids_put ids s r bs us :
  keeps_ids ids s ->
  keeps_ids ids
    {| books := bs; users := us;
       borrowing := put_record (index_slot s) r (borrowing s);
       index_slot := index_slot s |}.
Proof.
  intros [Hk Hsub]. unfold keeps_ids, keyed in *. cbn [borrowing].
  pose proof (put_record_ids (index_slot s) r (borrowing s)) as Hp.
  case_bool_decide as E; rewrite Hp.
  - split; assumption.
  - split; [apply NoDup_cons; split; assumption |].
    intros x Hx. right. apply Hsub, Hx.
Qed.

Lemma keeps_ids_update ids s id st ts bs us :
  keeps_ids ids s ->
  keeps_ids ids
    {| books := bs; users := us;
       borrowing := update_record id st ts (borrowing s);
       index_slot := index_slot s |}.
Proof.
  intros [Hk Hsub]. unfold keeps_ids, keyed in *. cbn [borrowing].
  rewrite update_record_ids. split; assumption.
Qed.

Lemma same_loan_refl r : same_loan r r.
Proof.
  unfold same_loan. repeat split; try reflexivity. left. reflexivity.
Qed.

Lemma holds_loan_put r rec s bs us :
  holds_loan r s -> br_id rec <> br_id r ->
  holds_loan r
    {| books := bs; users := us;
       borrowing := put_record (index_slot s) rec (borrowing s);
       index_slot := index_slot s |}.
Proof.
  intros (r' & Hin & Hsame) Hne. exists r'. split; [| exact Hsame].
  cbn [borrowing]. apply put_record_keeps; [exact Hin |].
  destruct Hsame as (Hid & _). rewrite Hid. congruence.
Qed.

Lemma holds_loan_update r id ts s bs us :
  holds_loan r s ->
  holds_loan r
    {| books := bs; users := us;
       borrowing := update_record id returned ts (borrowing s);
       index_slot := index_slot s |}.
Proof.
  intros (r' & Hin & Hsame).
  exists (if bool_decide (br_id r' = id) then set_status returned ts r'
          else r').
  split.
  - cbn [borrowing]. unfold update_record. apply list_elem_of_fmap.
    exists r'. split; [reflexivity | exact Hin].
  - case_bool_decide; [| exact Hsame].
    destruct Hsame as (H1 & H2 & H3 & H4 & H5 & H6 & H7 & _).
    unfold same_loan. cbn. repeat split; try assumption. right. reflexivity.
Qed.

(** A request that does not draw the identifier of [r] keeps the loan [r]
    in the table. *)
Lemma keeps_loan key req r :
  request_id req <> Some (br_id r) ->
  keeps (holds_loan r) (handler key req).
Proof.
  intros Hne. destruct req as [event ts hex | event ts]; cbn [handler].
  - unfold borrowBook. repeat (case_match; try exact I).
    intros [bk |]; [| exact I]. unfold borrow_book.
    case_match; [exact I |].
    intros [usr |]; [| exact I]. unfold borrow_user.
    case_match; [exact I |].
    case_match; [| exact I].
    split; [| intros [|]; exact I].
    intros s s' Hs Htx.
    apply borrow_items_inv in Htx as (bk' & usr' & _ & _ & _ & ->).
    apply holds_loan_put; [exact Hs |].
    cbn [br_id new_record]. intros Heq. apply Hne. cbn [request_id].
    rewrite Heq. reflexivity.
  - unfold returnBook. repeat (case_match; try exact I).
    intros [| r0 rest]; [exact I |]. unfold return_record.
    split; [| intros [|]; exact I].
    intros s s' Hs Htx.
    apply return_items_inv in Htx as (bk' & usr' & _ & _ & _ & ->).
    apply holds_loan_update. exact Hs.
Qed.

(** X11.  However borrow and return requests are interleaved, no record
    is deleted from the borrowing table: every identifier of the table
    stays, no two records share one when none did at the start, and a
    record whose identifier no borrow request draws again stays as the
    loan it is: same user, book, title, time of the loan and due date,
    with its status or, once returned, [returned].  (A borrow that draws
    the identifier of a record replaces that record.) *)
Theorem records_never_deleted key reqs sched s0 :
  keyed s0 ->
  let s := (sched_run sched (handler key <$> reqs) s0).2 in
  keyed s
  /\ br_id <$> borrowing s0 ⊆ br_id <$> borrowing s
  /\ forall r,
       r ∈ borrowing s0 ->
       Forall (fun req => request_id req <> Some (br_id r)) reqs ->
       exists r', r' ∈ borrowing s /\ same_loan r r'.
Proof.
  intros Hk s. subst s.
  assert (Hids : keeps_ids (br_id <$> borrowing s0)
                   (sched_run sched (handler key <$> reqs) s0).2).
  { apply (sched_run_keeps (keeps_ids (br_id <$> borrowing s0))).
    - apply Forall_fmap, Forall_true. intros req.
      apply keeps_handler_any.
      + intros ts rec b u s s' Hs Htx.
        apply borrow_items_inv in Htx as (bk & usr & _ & _ & _ & ->).
        apply keeps_ids_put, Hs.
      + intros ts id b u s s' Hs Htx.
        apply return_items_inv in Htx as (bk & usr & _ & _ & _ & ->).
        apply keeps_ids_update, Hs.
    - split; [exact Hk | reflexivity]. }
  destruct Hids as [Hk' Hsub].
  split; [exact Hk' |]. split; [exact Hsub |].
  intros r Hin Hother.
  apply (sched_run_keeps (holds_loan r)).
  - apply Forall_fmap. eapply Forall_impl; [exact Hother |].
    intros req Hreq. apply keeps_loan, Hreq.
  - exists r. split; [exact Hin | apply same_loan_refl].
Qed.

(** From [two_loans] the first title is returned and borrowed again under
    a new identifier: the record of the first loan is still in the table,
    beside the second loan and the new one. *)
Lemma records_never_deleted_witness :
  let s :=
    (sched_run [0; 0; 1; 1; 1]%nat
       (handler None <$>
          [ Return (ask "bk_000001") 3000;
            Borrow (ask "bk_000001") 3500 "00000c" ])
       two_loans).2 in
  (br_id <$> borrowing s) ≡ₚ ["brw_00000a"; "brw_00000b"; "brw_00000c"]
  /\ exists r',
       r' ∈ borrowing s
       /\ same_loan
            (new_record 1000 "00000a" "bk_000001" "usr_000001" 14 book1) r'.
Proof.
  intros s. split; [vm_compute; reflexivity |].
  refine (proj2 (proj2 (records_never_deleted None
                          [ Return (ask "bk_000001") 3000;
                            Borrow (ask "bk_000001") 3500 "00000c" ]
                          [0; 0; 1; 1; 1]%nat two_loans _)) _ _ _).
  - apply (bool_decide_unpack _). vm_compute. exact I.
  - vm_compute. left.
  - apply (bool_decide_unpack _). vm_compute. exact I.
Defined.

(** ** getUser *)

Lemma getUser_accepted key event u s :
  user_accepted key event u ->
  getUser key event s
  = match users s !! u with
    | None => UserError not_found
    | Some user =>
        UserFound
          {| uv_id := u;
             uv_borrowingLimit := borrowingLimit user;
             uv_currentBorrowedCount := currentBorrowedCount user;
             uv_updatedAt := user_updatedAt user;
             uv_borrowedBooks := borrowed_book <$> query_user_loans u s |}
    end.
Proof.
  intros (Hk & params & Hp & Hid & Hv).
  unfold getUser. rewrite Hk, Hp, Hid, Hv. reflexivity.
Qed.

Lemma getUser_found key event s v :
  getUser key event s = UserFound v ->
  exists user,
    users s !! uv_id v = Some user
    /\ uv_borrowingLimit v = borrowingLimit user
    /\ uv_currentBorrowedCount v = currentBorrowedCount user
    /\ uv_borrowedBooks v = borrowed_book <$> query_user_loans (uv_id v) s.
Proof.
  unfold getUser. repeat case_match; try discriminate.
  intros [= <-]. eexists. cbn. repeat split; eassumption.
Qed.

(** X12.  On a consistent store the profile [getUser] answers is coherent:
    the counter it shows is the number of books it lists, it does not
    exceed the limit it shows, and every book listed comes from an active
    loan of that user. *)
Theorem getUser_counts_listed_books key event s v :
  consistent s ->
  getUser key event s = UserFound v ->
  uv_currentBorrowedCount v = Z.of_nat (List.length (uv_borrowedBooks v))
  /\ uv_currentBorrowedCount v <= uv_borrowingLimit v
  /\ forall e,
       e ∈ uv_borrowedBooks v ->
       exists r,
         r ∈ borrowing s /\ br_userId r = uv_id v /\ br_status r = active
         /\ e = borrowed_book r.
Proof.
  intros (_ & _ & Hui) Hget.
  destruct (getUser_found _ _ _ _ Hget) as (user & Hu & Hl & Hc & Hb).
  destruct (Hui _ _ Hu) as [Hcount Hle]. cbn in Hcount, Hle.
  rewrite Hc, Hl, Hb, length_fmap. split; [exact Hcount |].
  split; [exact Hle |].
  intros e He. apply list_elem_of_fmap in He as (r & -> & Hr).
  unfold query_user_loans in Hr.
  apply list_elem_of_In, List.filter_In in Hr as [Hin Hact].
  unfold active_user in Hact.
  apply andb_true_iff in Hact as [H1 H2].
  apply bool_decide_eq_true in H1, H2.
  exists r. rewrite list_elem_of_In. repeat split; assumption.
Qed.

Lemma user1_accepted : user_accepted None (user_request "usr_000001")
                         "usr_000001".
Proof. split; [reflexivity |]. eexists. repeat split; reflexivity. Qed.

Lemma getUser_counts_listed_books_witness :
  exists v,
    getUser None (user_request "usr_000001") two_loans = UserFound v
    /\ uv_currentBorrowedCount v
       = Z.of_nat (List.length (uv_borrowedBooks v)).
Proof.
  eexists. split; [vm_compute; reflexivity |].
  refine (proj1 (getUser_counts_listed_books None
                   (user_request "usr_000001") two_loans _ _ _)).
  - apply (bool_decide_unpack _). vm_compute. exact I.
  - vm_compute. reflexivity.
Defined.

(** X13.  A loan made by [borrowBook] shows in the borrower's profile: after
    a successful borrow (a copy is available, the user is below the limit
    and the due date is a time a [Date] holds), [getUser] for that user
    answers a counter one higher than before and lists the book with its
    title, the time of the loan and the due date. *)
Theorem borrowed_book_is_listed key ts hex evB evU b u dd s bk usr :
  accepted key evB b u dd ->
  user_accepted key evU u ->
  books s !! b = Some bk -> 0 < availableCopies bk ->
  users s !! u = Some usr ->
  currentBorrowedCount usr < borrowingLimit usr ->
  valid_time (add_days ts (Js.or_num dd 14)) = true ->
  exists v,
    statusCode (run (borrowBook key ts hex evB) s).1 = 200
    /\ getUser key evU (run (borrowBook key ts hex evB) s).2 = UserFound v
    /\ uv_currentBorrowedCount v = currentBorrowedCount usr + 1
    /\ listed_loan b bk ts (Js.or_num dd 14) ∈ uv_borrowedBooks v.
Proof.
  intros HaccB HaccU Hb Hpos Hu Hlim Hdue.
  rewrite (borrowBook_store _ _ _ _ _ _ _ _ _ _ HaccB Hb Hpos Hu Hlim Hdue).
  cbn [fst snd]. rewrite (getUser_accepted _ _ _ _ HaccU). cbn [users].
  rewrite lookup_insert_eq. eexists. split; [reflexivity |].
  split; [reflexivity |].
  split; [reflexivity |]. cbn [uv_borrowedBooks].
  apply list_elem_of_fmap.
  exists (new_record ts hex b u (Js.or_num dd 14) bk).
  split; [reflexivity |].
  unfold query_user_loans. cbn [borrowing].
  apply list_elem_of_In, List.filter_In. split.
  - apply list_elem_of_In, put_record_elem.
  - unfold active_user. cbn.
    rewrite !bool_decide_eq_true_2 by reflexivity. reflexivity.
Qed.

Lemma borrowed_book_is_listed_witness :
  exists v,
    statusCode
      (run (borrowBook None 1000 "a1b2c3" (borrow1 (Some 7))) library).1
    = 200
    /\ getUser None (user_request "usr_000001")
         (run (borrowBook None 1000 "a1b2c3" (borrow1 (Some 7))) library).2
       = UserFound v
    /\ uv_currentBorrowedCount v = 1
    /\ {| bb_bookId := "bk_000001"; bb_title := "Dune";
          bb_borrowedAt := 1000; bb_dueDate := 1000 + 7 * day_ms |}
       ∈ uv_borrowedBooks v.
Proof.
  apply (borrowed_book_is_listed None 1000 "a1b2c3" (borrow1 (Some 7))
           (user_request "usr_000001") "bk_000001" "usr_000001" (Some 7)
           library book1 user1 (borrow1_accepted _) user1_accepted).
  - reflexivity.
  - vm_compute. reflexivity.
  - reflexivity.
  - vm_compute. reflexivity.
  - vm_compute. reflexivity.
Defined.

Lemma loans_after_round_trip u rec ts slot (tbl : list BorrowingRecord) :
  br_id rec ∉ br_id <$> tbl ->
  List.filter (active_user u)
    (update_record (br_id rec) returned ts (put_record slot rec tbl))
  = List.filter (active_user u) tbl.
Proof.
  intros Hfresh.
  destruct (put_record_fresh slot rec tbl Hfresh) as (l1 & l2 & Htbl & ->).
  rewrite Htbl in Hfresh. rewrite fmap_app in Hfresh.
  apply not_elem_of_app in Hfresh as [H1 H2].
  unfold update_record. rewrite fmap_app, fmap_cons.
  fold (update_record (br_id rec) returned ts l1).
  fold (update_record (br_id rec) returned ts l2).
  rewrite !update_record_absent by assumption.
  rewrite bool_decide_eq_true_2 by reflexivity.
  rewrite Htbl, !List.filter_app. cbn [List.filter].
  unfold active_user at 2. cbn [br_status set_status].
  rewrite (bool_decide_eq_false_2 (returned = active)) by discriminate.
  rewrite andb_false_r. reflexivity.
Qed.

(** X14.  After a book has been borrowed and returned the borrower's
    profile is what it was: when the pair has no active loan, the book has
    a copy, the user is below the limit and the generated identifier is
    new, [getUser] answers the same counter and the same list of borrowed
    books after the return as before the borrow.  (This holds whatever the
    duration: when the due date is no time a [Date] holds, the borrow
    answers 500, the return 404, and nothing has changed.) *)
Theorem profile_restored_by_return
    key tsB hex evB tsR evR evU b u ddB ddR s bk usr :
  accepted key evB b u ddB ->
  accepted key evR b u ddR ->
  user_accepted key evU u ->
  books s !! b = Some bk -> 0 < availableCopies bk ->
  users s !! u = Some usr ->
  0 <= currentBorrowedCount usr < borrowingLimit usr ->
  generateId "brw" hex ∉ br_id <$> borrowing s ->
  (forall r, r ∈ borrowing s -> ~ active_loan u b r) ->
  let s2 :=
    (run (returnBook key tsR evR)
       (run (borrowBook key tsB hex evB) s).2).2 in
  exists v0 v2,
    getUser key evU s = UserFound v0
    /\ getUser key evU s2 = UserFound v2
    /\ uv_currentBorrowedCount v2 = uv_currentBorrowedCount v0
    /\ uv_borrowedBooks v2 = uv_borrowedBooks v0.
Proof.
  intros HaccB HaccR HaccU Hb Hpos Hu [Hge Hlim] Hfresh Hno s2. subst s2.
  destruct (valid_time (add_days tsB (Js.or_num ddB 14))) eqn:Hdue.
  - rewrite (borrowBook_store _ _ _ _ _ _ _ _ _ _
               HaccB Hb Hpos Hu Hlim Hdue).
    cbn [snd].
    set (rec := new_record tsB hex b u (Js.or_num ddB 14) bk).
    erewrite (returnBook_store _ _ _ _ _ _ _ rec []);
      [| exact HaccR
       | apply query_after_borrow; assumption
       | cbn [books]; apply lookup_insert_eq
       | cbn [users]; apply lookup_insert_eq
       | simpl; lia].
    cbn [snd]. rewrite !(getUser_accepted _ _ _ _ HaccU). cbn [users].
    rewrite Hu, lookup_insert_eq. eexists _, _.
    split; [reflexivity |]. split; [reflexivity |].
    cbn [uv_currentBorrowedCount uv_borrowedBooks].
    split; [simpl; lia |].
    unfold query_user_loans. cbn [borrowing].
    rewrite (loans_after_round_trip u rec tsR _ (borrowing s) Hfresh).
    reflexivity.
  - rewrite (borrowBook_out_of_range _ _ _ _ _ _ _ _ _ _
               HaccB Hb Hpos Hu Hlim Hdue).
    cbn [snd].
    rewrite (returnBook_no_record _ _ _ _ _ _ _ HaccR Hno). cbn [snd].
    rewrite (getUser_accepted _ _ _ _ HaccU), Hu.
    eexists _, _. repeat split; reflexivity.
Qed.

Lemma profile_restored_by_return_witness :
  exists v0 v2,
    getUser None (user_request "usr_000001") library = UserFound v0
    /\ getUser None (user_request "usr_000001")
         (run (returnBook None 5000 (ask "bk_000001"))
            (run (borrowBook None 1000 "a1b2c3" (borrow1 None)) library).2).2
       = UserFound v2
    /\ uv_currentBorrowedCount v2 = uv_currentBorrowedCount v0
    /\ uv_borrowedBooks v2 = uv_borrowedBooks v0.
Proof.
  apply (profile_restored_by_return None 1000 "a1b2c3" (borrow1 None)
           5000 (ask "bk_000001") (user_request "usr_000001")
           "bk_000001" "usr_000001" None None library book1 user1
           (borrow1_accepted _) (borrow1_accepted _) user1_accepted).
  - reflexivity.
  - vm_compute. reflexivity.
  - reflexivity.
  - vm_compute. split; [discriminate | reflexivity].
  - vm_compute. apply not_elem_of_nil.
  - intros r Hr. vm_compute in Hr. exfalso. exact (not_elem_of_nil _ Hr).
Defined.

(** ** Two returns of one loan *)

Lemma returning_at_running ts b u r0 n p r :
  returning_at ts b u r0 n p -> (1 <= n)%nat -> p <> Ret r.
Proof. intros H Hn. destruct H; [discriminate .. | lia]. Qed.

Lemma returning_at_done ts b u r0 p :
  returning_at ts b u r0 0 p -> exists r, p = Ret r.
Proof. intros H. inversion H. eexists. reflexivity. Qed.

Lemma return_items_cancel ts id b u s :
  (forall usr, users s !! u = Some usr -> currentBorrowedCount usr <= 0) ->
  transactWrite (return_items ts id b u) s = None.
Proof.
  intros Hu. unfold return_items, transactWrite, apply_item. simpl.
  destruct (books s !! b) as [bk |]; [| reflexivity]. simpl.
  destruct (users s !! u) as [usr |] eqn:E; [| reflexivity].
  specialize (Hu usr eq_refl). simpl.
  destruct (Z.ltb_spec 0 (currentBorrowedCount usr)); [lia | reflexivity].
Qed.

(** One step of the first of two racing returns. *)
Lemma return_race_step ts b u r0 c nA nB pA pB s tsB :
  returning_at ts b u r0 nA pA ->
  returning_at tsB b u r0 nB pB ->
  return_race b u r0 c nA nB pA pB s ->
  exists nA' pA' s',
    step pA s = (pA', s') /\ returning_at ts b u r0 nA' pA'
    /\ (nA' <= nA - 1)%nat
    /\ return_race b u r0 c nA' nB pA' pB s'.
Proof.
  intros HA HB (Hbook & [(Hc & Hu & [rest Hq] & Huniq & HnA & HnB)
                        | (Hc & Hu & Hq & Hwon)]).
  - destruct HA as [| | r]; [| | lia].
    + exists 1%nat. eexists _, s. split; [reflexivity |].
      cbn [fst]. rewrite Hq. cbn [return_record].
      split; [apply at_update |]. split; [lia |].
      split; [exact Hbook |]. left.
      repeat (split; [first [assumption | lia | eexists; eassumption] |]).
      exact HnB.
    + unfold copies in Hc. unfold borrowed in Hu.
      destruct (books s !! b) as [bk |] eqn:Eb; [| discriminate].
      destruct (users s !! u) as [usr |] eqn:Eu; [| discriminate].
      injection Hc as Hc. injection Hu as Hu.
      exists 0%nat. eexists _, _. split.
      { cbn [step].
        rewrite (return_items_commit _ _ _ _ _ _ _ Eb Eu ltac:(lia)).
        reflexivity. }
      split; [apply at_answer |]. split; [lia |].
      split; [cbn [books]; rewrite lookup_insert_eq; eexists; reflexivity |].
      right. unfold copies, borrowed. cbn [books users].
      rewrite !lookup_insert_eq. simpl.
      split; [f_equal; lia |]. split; [f_equal; lia |].
      split.
      * apply query_nil. intros (r & Hin & Hact).
        revert Hact. apply (update_record_returned (br_id r0) ts u b
                              (borrowing s)); [| exact Hin].
        intros r' Hin' Hact'. rewrite (Huniq r' Hin' Hact'). reflexivity.
      * left. split; [eexists; split; reflexivity |].
        intros rB HrB. exfalso.
        exact (returning_at_running _ _ _ _ _ _ rB HB HnB HrB).
  - destruct HA as [| | r].
    + exists 0%nat. eexists _, s. split; [reflexivity |].
      cbn [fst]. rewrite Hq. cbn [return_record].
      split; [apply at_answer |]. split; [lia |].
      split; [exact Hbook |]. right.
      repeat (split; [assumption |]).
      destruct Hwon as [[(r & [=] & _) _] | [HB200 HA4]].
      right. split; [exact HB200 |].
      intros r [= <-]. left. reflexivity.
    + exists 0%nat. eexists _, s. split.
      { cbn [step]. rewrite return_items_cancel; [reflexivity |].
        intros usr Eu. unfold borrowed in Hu. rewrite Eu in Hu.
        injection Hu as ->. lia. }
      split; [apply at_answer |]. split; [lia |].
      split; [exact Hbook |]. right.
      repeat (split; [assumption |]).
      destruct Hwon as [[(r & [=] & _) _] | [HB200 HA4]].
      right. split; [exact HB200 |].
      intros r [= <-]. right. reflexivity.
    + exists 0%nat, (Ret r), s. split; [reflexivity |].
      split; [apply at_answer |]. split; [lia |].
      split; [exact Hbook |]. right.
      repeat (split; [assumption |]). exact Hwon.
Qed.

Lemma return_race_sym b u r0 c nA nB pA pB s :
  return_race b u r0 c nA nB pA pB s ->
  return_race b u r0 c nB nA pB pA s.
Proof. unfold return_race. intuition. Qed.

Lemma return_race_run b u r0 c tsA tsB sched :
  forall nA nB pA pB s,
    returning_at tsA b u r0 nA pA ->
    returning_at tsB b u r0 nB pB ->
    return_race b u r0 c nA nB pA pB s ->
    exists nA' nB' pA' pB' s',
      sched_run sched [pA; pB] s = ([pA'; pB'], s')
      /\ returning_at tsA b u r0 nA' pA'
      /\ returning_at tsB b u r0 nB' pB'
      /\ return_race b u r0 c nA' nB' pA' pB' s'
      /\ (nA' <= nA - turns 0 sched)%nat
      /\ (nB' <= nB - turns 1 sched)%nat.
Proof.
  induction sched as [| i rest IH]; intros nA nB pA pB s HA HB Hrace.
  - exists nA, nB, pA, pB, s. simpl.
    repeat (split; [first [reflexivity | assumption | lia] |]). lia.
  - destruct i as [| [| i]].
    + destruct (return_race_step _ _ _ _ _ _ _ _ _ _ _ HA HB Hrace)
        as (nA1 & pA1 & s1 & Hstep & HA1 & Hn & Hrace1).
      destruct (IH nA1 nB pA1 pB s1 HA1 HB Hrace1)
        as (nA' & nB' & pA' & pB' & s' & Hrun & HA' & HB' & Hr' & HnA & HnB).
      exists nA', nB', pA', pB', s'.
      split; [rewrite sched_run_first, Hstep; exact Hrun |].
      cbn [turns]. rewrite bool_decide_eq_true_2 by reflexivity.
      rewrite (bool_decide_eq_false_2 (0%nat = 1%nat)) by discriminate.
      repeat (split; [first [assumption | lia] |]). lia.
    + destruct (return_race_step _ _ _ _ _ _ _ _ _ _ _ HB HA
                  (return_race_sym _ _ _ _ _ _ _ _ _ Hrace))
        as (nB1 & pB1 & s1 & Hstep & HB1 & Hn & Hrace1).
      apply return_race_sym in Hrace1.
      destruct (IH nA nB1 pA pB1 s1 HA HB1 Hrace1)
        as (nA' & nB' & pA' & pB' & s' & Hrun & HA' & HB' & Hr' & HnA & HnB).
      exists nA', nB', pA', pB', s'.
      split; [rewrite sched_run_second, Hstep; exact Hrun |].
      cbn [turns].
      rewrite (bool_decide_eq_false_2 (1%nat = 0%nat)) by discriminate.
      rewrite bool_decide_eq_true_2 by reflexivity.
      repeat (split; [first [assumption | lia] |]). lia.
    + destruct (IH nA nB pA pB s HA HB Hrace)
        as (nA' & nB' & pA' & pB' & s' & Hrun & HA' & HB' & Hr' & HnA & HnB).
      exists nA', nB', pA', pB', s'.
      split; [exact Hrun |].
      cbn [turns].
      rewrite (bool_decide_eq_false_2 (S (S i) = 0%nat)) by discriminate.
      rewrite (bool_decide_eq_false_2 (S (S i) = 1%nat)) by discriminate.
      repeat (split; [first [assumption | lia] |]). lia.
Qed.

(** X15.  The condition [currentBorrowedCount > 0] stops a double return
    when the loan is the user's only one: for a user whose counter is 1 and
    whose one active loan of the book is [r0], every schedule that lets two
    accepted return requests of the pair finish ends with one 200 and one
    404 or 409; the book has one copy more, not two, and the counter is
    0. *)
Theorem single_loan_returned_once
    key evA tsA evB tsB b u ddA ddB s sched r0 bk :
  accepted key evA b u ddA ->
  accepted key evB b u ddB ->
  books s !! b = Some bk ->
  borrowed s u = Some 1 ->
  r0 ∈ borrowing s -> active_loan u b r0 ->
  (forall r, r ∈ borrowing s -> active_loan u b r -> r = r0) ->
  (2 <= turns 0 sched)%nat -> (2 <= turns 1 sched)%nat ->
  exists rA rB s',
    sched_run sched [returnBook key tsA evA; returnBook key tsB evB] s
    = ([Ret rA; Ret rB], s')
    /\ ((statusCode rA = 200
         /\ (statusCode rB = 404 \/ statusCode rB = 409))
        \/ (statusCode rB = 200
            /\ (statusCode rA = 404 \/ statusCode rA = 409)))
    /\ copies s' b = Some (availableCopies bk + 1)
    /\ borrowed s' u = Some 0.
Proof.
  intros HaccA HaccB Hb Hu Hin Hact Huniq HtA HtB.
  rewrite (returnBook_accepted _ _ _ _ _ _ HaccA).
  rewrite (returnBook_accepted _ _ _ _ _ _ HaccB).
  destruct (return_race_run b u r0 (availableCopies bk) tsA tsB sched
              2 2 _ _ s (at_query _ _ _ _) (at_query _ _ _ _))
    as (nA & nB & pA & pB & s' & Hrun & HA & HB & Hrace & HnA & HnB).
  { split; [rewrite Hb; eexists; reflexivity |]. left.
    split; [unfold copies; rewrite Hb; reflexivity |].
    split; [exact Hu |].
    split; [exact (query_unique u b s r0 Hin Hact Huniq) |].
    split; [exact Huniq |]. lia. }
  assert (nA = 0%nat) as -> by lia. assert (nB = 0%nat) as -> by lia.
  destruct (returning_at_done _ _ _ _ _ HA) as [rA ->].
  destruct (returning_at_done _ _ _ _ _ HB) as [rB ->].
  exists rA, rB, s'. split; [exact Hrun |].
  destruct Hrace as (_ & [(_ & _ & _ & _ & Hn & _)
                         | (Hc & Hu' & _ & Hwon)]); [lia |].
  split; [| split; assumption].
  destruct Hwon as [[(r & [= <-] & H200) H4]
                   | [(r & [= <-] & H200) H4]].
  - left. split; [exact H200 | apply H4; reflexivity].
  - right. split; [exact H200 | apply H4; reflexivity].
Qed.

Lemma single_loan_returned_once_witness :
  exists rA rB s',
    sched_run [0; 1; 0; 1]%nat
      [ returnBook None 3000 (ask "bk_000001");
        returnBook None 3001 (ask "bk_000001") ]
      (run (borrowBook None 1000 "a1b2c3" (borrow1 None)) library).2
    = ([Ret rA; Ret rB], s')
    /\ ((statusCode rA = 200
         /\ (statusCode rB = 404 \/ statusCode rB = 409))
        \/ (statusCode rB = 200
            /\ (statusCode rA = 404 \/ statusCode rA = 409)))
    /\ copies s' "bk_000001" = Some 1
    /\ borrowed s' "usr_000001" = Some 0.
Proof.
  apply (single_loan_returned_once None (ask "bk_000001") 3000
           (ask "bk_000001") 3001 "bk_000001" "usr_000001" None None
           (run (borrowBook None 1000 "a1b2c3" (borrow1 None)) library).2
           [0; 1; 0; 1]%nat
           (new_record 1000 "a1b2c3" "bk_000001" "usr_000001" 14 book1)
           (add_copies (-1) 1000 book1)
           (borrow1_accepted _) (borrow1_accepted _)).
  - vm_compute. reflexivity.
  - vm_compute. reflexivity.
  - vm_compute. left.
  - vm_compute. repeat split; reflexivity.
  - intros r Hr _. vm_compute in Hr.
    apply list_elem_of_singleton in Hr. exact Hr.
  - vm_compute. lia.
  - vm_compute. lia.
Defined.

(** ** createBook *)

Lemma missing_fields_none body :
  missing_fields_of body = [] ->
  Js.falsy (nb_isbn body) = false /\ Js.falsy (nb_title body) = false
  /\ Js.falsy (nb_author body) = false /\ Js.falsy (nb_genre body) = false
  /\ falsy_num (nb_publicationYear body) = false
  /\ falsy_num (nb_totalCopies body) = false.
Proof.
  unfold missing_fields_of.
  destruct (Js.falsy (nb_isbn body)); [discriminate |].
  destruct (Js.falsy (nb_title body)); [discriminate |].
  destruct (Js.falsy (nb_author body)); [discriminate |].
  destruct (Js.falsy (nb_genre body)); [discriminate |].
  destruct (falsy_num (nb_publicationYear body)); [discriminate |].
  destruct (falsy_num (nb_totalCopies body)); [discriminate |].
  intros _. repeat split.
Qed.

Lemma truthy_string x : Js.falsy x = false -> default "" x <> "".
Proof.
  destruct x as [v |]; [| discriminate]. simpl.
  intros H. apply bool_decide_eq_false in H. exact H.
Qed.

Lemma truthy_num x : falsy_num x = false -> default 0 x <> 0.
Proof.
  destruct x as [n |]; [| discriminate]. simpl.
  intros H. apply Z.eqb_neq in H. exact H.
Qed.

Lemma query_ISBNIndex_empty v (cat : gmap string BookItem) :
  query_ISBNIndex v cat = ∅ <->
  forall k x, cat !! k = Some x -> bi_isbn x <> v.
Proof.
  unfold query_ISBNIndex. rewrite map_empty.
  setoid_rewrite map_lookup_filter_None. split.
  - intros H k x Hk Hx. destruct (H k) as [Hn | Hn].
    + rewrite Hn in Hk. discriminate.
    + exact (Hn x Hk Hx).
  - intros H k. destruct (cat !! k) as [x |] eqn:Hk; [right | left; easy].
    intros y [= <-]. exact (H k x Hk).
Qed.

Lemma match_pat_length p s :
  match_pat p s = true -> String.length s = List.length p.
Proof.
  revert s. induction p as [| [c |] p IH]; intros [| x s]; simpl;
    try discriminate; try reflexivity.
  - intros H. apply andb_true_iff in H as [_ H]. f_equal. apply IH, H.
  - intros H. apply andb_true_iff in H as [_ H]. f_equal. apply IH, H.
Qed.

(** What a creation did, read off its result. *)
Lemma createBook_created key ts hex event body cat id item av cat' :
  createBook key ts hex event body cat = (BookCreated id item av, cat') ->
  exists bd,
    body = Some bd /\ missing_fields_of bd = []
    /\ match_pat isbnRegex (default "" (nb_isbn bd)) = true
    /\ default "" (nb_genre bd) ∈ validGenres
    /\ query_ISBNIndex (default "" (nb_isbn bd)) cat = ∅
    /\ id = generateId "bk" hex /\ item = newBook ts bd /\ av = true
    /\ cat' = <[id := item]> cat.
Proof.
  unfold createBook.
  destruct (validateApiKey key event); [discriminate |].
  destruct body as [bd |]; [| discriminate].
  case_bool_decide as Hm; cbn [negb]; [| discriminate].
  destruct (match_pat isbnRegex (default "" (nb_isbn bd))) eqn:Hi;
    cbn [negb]; [| discriminate].
  case_bool_decide as Hg; cbn [negb]; [| discriminate].
  case_bool_decide as Hq; cbn [negb]; [| discriminate].
  intros [= <- <- <- <-]. exists bd. repeat split; assumption.
Qed.

(** X16.  A book [createBook] answers 201 for enters the table under its
    generated identifier with all copies available
    ([availableCopies = totalCopies]), with the requested number of copies,
    of either sign but not 0, a 17-character ISBN of the required shape
    that no book of the table had, a genre of the list, and a title, an
    author and a year that are not empty or 0.  Any other answer is a 400,
    401, 409 or 500 and leaves the table as it was. *)
Theorem createBook_outcome key ts hex event body cat :
  let out := createBook key ts hex event body cat in
  match out.1 with
  | BookCreated id item av =>
      id = generateId "bk" hex
      /\ out.2 = <[id := item]> cat
      /\ availableCopies (bi_core item) = totalCopies (bi_core item)
      /\ Some (totalCopies (bi_core item)) = (body ≫= nb_totalCopies)
      /\ totalCopies (bi_core item) <> 0
      /\ match_pat isbnRegex (bi_isbn item) = true
      /\ String.length (bi_isbn item) = 17%nat
      /\ (forall k x, cat !! k = Some x -> bi_isbn x <> bi_isbn item)
      /\ bi_genre item ∈ validGenres
      /\ title (bi_core item) <> "" /\ bi_author item <> ""
      /\ bi_publicationYear item <> 0
  | other =>
      out.2 = cat /\ book_status other ∈ [400; 401; 409; 500]
  end.
Proof.
  intros out. subst out.
  destruct (createBook key ts hex event body cat) as [res cat'] eqn:E.
  cbn [fst snd]. destruct res as [e | missing | id item av].
  - unfold createBook in E.
    pose proof (validateApiKey_401 key event) as H401.
    repeat case_match; try discriminate; injection E as <- <-;
      try (injection (H401 ltac:(discriminate)) as ->);
      (split; [reflexivity | cbn; set_solver]).
  - unfold createBook in E.
    repeat case_match; try discriminate; injection E as <- <-.
    split; [reflexivity | cbn; set_solver].
  - apply createBook_created in E
      as (bd & -> & Hm & Hi & Hg & Hq & -> & -> & -> & ->).
    destruct (missing_fields_none bd Hm) as (H1 & H2 & H3 & H4 & H5 & H6).
    cbn [newBook bi_core bi_isbn bi_genre bi_author bi_publicationYear
           title totalCopies availableCopies mbind option_bind].
    split; [reflexivity |]. split; [reflexivity |].
    split; [reflexivity |].
    split; [destruct (nb_totalCopies bd); [reflexivity | discriminate] |].
    split; [apply truthy_num, H6 |].
    split; [exact Hi |].
    split; [apply (match_pat_length _ _ Hi) |].
    split; [apply query_ISBNIndex_empty, Hq |].
    split; [exact Hg |].
    split; [apply truthy_string, H2 |].
    split; [apply truthy_string, H3 | apply truthy_num, H5].
Qed.

(** X17.  [createBook] keeps ISBNs unique: when no two books of the table
    share an ISBN before a creation request, none do after it, whatever
    the request and whatever identifier is generated. *)
Theorem createBook_keeps_isbn_unique key ts hex event body cat :
  unique_isbn cat ->
  unique_isbn (createBook key ts hex event body cat).2.
Proof.
  intros Huniq.
  destruct (createBook key ts hex event body cat) as [res cat'] eqn:E.
  cbn [snd]. destruct res as [e | missing | id item av].
  - unfold createBook in E.
    repeat case_match; try discriminate; injection E as <- <-;
      exact Huniq.
  - unfold createBook in E.
    repeat case_match; try discriminate; injection E as <- <-; exact Huniq.
  - apply createBook_created in E
      as (bd & -> & Hm & Hi & Hg & Hq & -> & -> & -> & ->).
    pose proof (proj1 (query_ISBNIndex_empty _ _) Hq) as Hnew.
    intros i j x y Hi' Hj' Hisbn.
    destruct (decide (generateId "bk" hex = i)) as [<- | Hni];
      destruct (decide (generateId "bk" hex = j)) as [<- | Hnj].
    + reflexivity.
    + rewrite lookup_insert_eq in Hi'. injection Hi' as <-.
      rewrite lookup_insert_ne in Hj' by exact Hnj.
      exfalso. apply (Hnew j y Hj'). symmetry. exact Hisbn.
    + rewrite lookup_insert_eq in Hj'. injection Hj' as <-.
      rewrite lookup_insert_ne in Hi' by exact Hni.
      exfalso. apply (Hnew i x Hi'). exact Hisbn.
    + rewrite lookup_insert_ne in Hi' by exact Hni.
      rewrite lookup_insert_ne in Hj' by exact Hnj.
      exact (Huniq i j x y Hi' Hj' Hisbn).
Qed.

(** Two books are created one after the other: the table that holds the
    first has unique ISBNs, and so has the table that holds both. *)
Lemma createBook_keeps_isbn_unique_witness :
  let cat1 :=
    (createBook None 10 gatsby_hex create_event (Some gatsby) ∅).2 in
  let out2 := createBook None 20 "000001" create_event (Some emma) cat1 in
  book_status out2.1 = 201
  /\ bi_isbn <$> out2.2 !! "bk_abcdef" = Some "978-0-7432-7356-5"
  /\ bi_isbn <$> out2.2 !! "bk_000001" = Some "978-0-1414-3958-8"
  /\ unique_isbn out2.2.
Proof.
  intros cat1 out2.
  split; [vm_compute; reflexivity |].
  split; [vm_compute; reflexivity |].
  split; [vm_compute; reflexivity |].
  apply (createBook_keeps_isbn_unique None 20 "000001" create_event
           (Some emma) cat1).
  apply (createBook_keeps_isbn_unique None 10 gatsby_hex create_event
           (Some gatsby) ∅).
  intros i j x y Hi. rewrite lookup_empty in Hi. discriminate.
Defined.

(** X18.  A book just created can be borrowed: when [createBook] answered
    201 for a book with a positive number of copies, an accepted borrow
    request for its identifier by a user below the limit, with a due date
    that is a time a [Date] holds, answers 200 and leaves all copies but
    one available. *)
Theorem created_book_can_be_borrowed
    key tsC hexC evC body cat id item av cat' tsB hexB evB u dd s usr :
  createBook key tsC hexC evC body cat = (BookCreated id item av, cat') ->
  0 < totalCopies (bi_core item) ->
  accepted key evB id u dd ->
  users s !! u = Some usr ->
  currentBorrowedCount usr < borrowingLimit usr ->
  valid_time (add_days tsB (Js.or_num dd 14)) = true ->
  exists s',
    run (borrowBook key tsB hexB evB) (with_books cat' s)
    = (createResponse 200
         (BorrowedBody (generateId "brw" hexB) u id tsB
            (tsB + Js.or_num dd 14 * day_ms) active), s')
    /\ copies s' id = Some (totalCopies (bi_core item) - 1).
Proof.
  intros Hc Hpos Hacc Hu Hlim Hdue.
  apply createBook_created in Hc
    as (bd & -> & Hm & Hi & Hg & Hq & -> & -> & -> & ->).
  erewrite (borrowBook_store _ _ _ _ _ _ _ _
              (bi_core (newBook tsC bd)) usr Hacc);
    [| unfold with_books; cbn [set_books books];
       rewrite lookup_fmap, lookup_insert_eq; reflexivity
     | exact Hpos
     | exact Hu
     | exact Hlim
     | exact Hdue].
  eexists. split; [reflexivity |].
  unfold copies. cbn [books]. rewrite lookup_insert_eq. reflexivity.
Qed.

Lemma created_book_can_be_borrowed_witness :
  exists s',
    run (borrowBook None 1000 "a1b2c3" (ask "bk_abcdef"))
      (with_books
         (createBook None 10 gatsby_hex create_event (Some gatsby) ∅).2
         library)
    = (createResponse 200
         (BorrowedBody "brw_a1b2c3" "usr_000001" "bk_abcdef" 1000
            (1000 + 14 * day_ms) active), s')
    /\ copies s' "bk_abcdef" = Some 4.
Proof.
  apply (created_book_can_be_borrowed None 10 gatsby_hex create_event
           (Some gatsby) ∅ "bk_abcdef" (newBook 10 gatsby) true
           (createBook None 10 gatsby_hex create_event (Some gatsby) ∅).2
           1000 "a1b2c3" (ask "bk_abcdef") "usr_000001" None library
           user1).
  - vm_compute. reflexivity.
  - vm_compute. reflexivity.
  - apply request_accepted; reflexivity.
  - reflexivity.
  - vm_compute. reflexivity.
  - vm_compute. reflexivity.
Defined.

(** ** Any number of concurrent borrowers *)

Lemma one_borrow_borrowBook key ts hex event :
  one_borrow hex (borrowBook key ts hex event).
Proof.
  unfold borrowBook. repeat (case_match; try exact I).
  intros [bk |]; [| exact I]. unfold borrow_book.
  case_match; [exact I |].
  intros [usr |]; [| exact I]. unfold borrow_user.
  case_match; [exact I |].
  case_match; [| exact I].
  split.
  - match goal with
    | |- context [borrow_items _ ?rec _ _ = _] => exists ts, rec
    end.
    split; [reflexivity |]. split; reflexivity.
  - intros [|]; eexists; reflexivity.
Qed.

Lemma put_counters ts rec s bk usr :
  counters_match s ->
  br_id rec ∉ br_id <$> borrowing s ->
  br_status rec = active ->
  books s !! br_bookId rec = Some bk ->
  users s !! br_userId rec = Some usr ->
  counters_match
    {| books := <[br_bookId rec := add_copies (-1) ts bk]> (books s);
       users := <[br_userId rec := add_borrowed 1 ts usr]> (users s);
       borrowing := put_record (index_slot s) rec (borrowing s);
       index_slot := index_slot s |}.
Proof.
  intros [Hbi Hui] Hfresh Hst Hb Hu.
  destruct (put_record_fresh (index_slot s) rec (borrowing s) Hfresh)
    as (l1 & l2 & Htbl & Hput).
  unfold counters_match, book_invariant in *.
  cbn [books users borrowing]. rewrite Hput. rewrite Htbl in Hbi, Hui.
  split.
  - intros i x Hix. rewrite count_middle.
    destruct (decide (br_bookId rec = i)) as [<- | Hne].
    + rewrite lookup_insert_eq in Hix. injection Hix as <-.
      specialize (Hbi _ bk Hb). simpl in *.
      unfold active_book at 2. rewrite Hst.
      rewrite !bool_decide_eq_true_2 by reflexivity. simpl. lia.
    + rewrite lookup_insert_ne in Hix by exact Hne.
      specialize (Hbi i x Hix). simpl in *.
      unfold active_book at 2.
      rewrite (bool_decide_eq_false_2 (br_bookId rec = i)) by exact Hne.
      simpl. lia.
  - intros i x Hix. rewrite count_middle.
    destruct (decide (br_userId rec = i)) as [<- | Hne].
    + rewrite lookup_insert_eq in Hix. injection Hix as <-.
      specialize (Hui _ usr Hu). simpl in *.
      unfold active_user at 2. rewrite Hst.
      rewrite !bool_decide_eq_true_2 by reflexivity. simpl. lia.
    + rewrite lookup_insert_ne in Hix by exact Hne.
      specialize (Hui i x Hix). simpl in *.
      unfold active_user at 2.
      rewrite (bool_decide_eq_false_2 (br_userId rec = i)) by exact Hne.
      simpl. lia.
Qed.

(** A borrower that reads, or answers without committing, leaves the pool
    as it is but for itself. *)
Lemma borrowers_read hexes ps s i h p' :
  borrowers hexes ps s ->
  hexes !! i = Some h ->
  one_borrow h p' ->
  (exists r, p' = Ret r) \/ generateId "brw" h ∉ br_id <$> borrowing s ->
  borrowers hexes (<[i := p']> ps) s.
Proof.
  intros (Hc & Hlen & Hall) Hi Hone Hdisj.
  split; [exact Hc |]. split; [rewrite length_insert; exact Hlen |].
  intros j h' p Hh Hp.
  destruct (decide (i = j)) as [<- | Hne].
  - apply list_lookup_insert_Some in Hp as [(_ & <- & _) | [Hne _]];
      [| contradiction].
    rewrite Hi in Hh. injection Hh as <-. split; assumption.
  - rewrite list_lookup_insert_ne in Hp by exact Hne.
    exact (Hall j h' p Hh Hp).
Qed.

Lemma borrowers_step hexes ps s i p :
  NoDup hexes ->
  borrowers hexes ps s ->
  ps !! i = Some p ->
  borrowers hexes (<[i := (step p s).1]> ps) (step p s).2.
Proof.
  intros Hnd Hinv Hp.
  pose proof Hinv as (Hc & Hlen & Hall).
  assert (Hh : exists h, hexes !! i = Some h).
  { apply lookup_lt_is_Some. rewrite <- Hlen.
    apply lookup_lt_is_Some. eexists. exact Hp. }
  destruct Hh as [h Hh].
  destruct (Hall i h p Hh Hp) as [Hone Hdisj].
  assert (Hfresh : (forall r, p <> Ret r) ->
                   generateId "brw" h ∉ br_id <$> borrowing s).
  { intros Hnr. destruct Hdisj as [[r Hr] | Hf]; [| exact Hf].
    exfalso. exact (Hnr r Hr). }
  destruct p as [r | id k | id k | u st b k | items k]; cbn [step fst snd].
  - apply (borrowers_read hexes ps s i h _ Hinv Hh); [exact I |].
    left. eexists. reflexivity.
  - apply (borrowers_read hexes ps s i h _ Hinv Hh); [apply Hone |].
    right. apply Hfresh. discriminate.
  - apply (borrowers_read hexes ps s i h _ Hinv Hh); [apply Hone |].
    right. apply Hfresh. discriminate.
  - apply (borrowers_read hexes ps s i h _ Hinv Hh); [apply Hone |].
    right. apply Hfresh. discriminate.
  - destruct Hone as [(ts & rec & -> & Hid & Hst) Hk].
    specialize (Hfresh ltac:(discriminate)).
    destruct (transactWrite _ s) as [s' |] eqn:Htx; cbn [fst snd].
    + destruct (Hk true) as [r Hr]. rewrite Hr.
      apply borrow_items_inv in Htx as (bk & usr & Hb & _ & Hu & ->).
      rewrite <- Hid in Hfresh.
      split; [apply put_counters; assumption |].
      split; [rewrite length_insert; exact Hlen |].
      intros j h' p Hh' Hp'.
      destruct (decide (i = j)) as [<- | Hne].
      * apply list_lookup_insert_Some in Hp' as [(_ & <- & _) | [Hne _]];
          [| contradiction].
        split; [exact I | left; eauto].
      * rewrite list_lookup_insert_ne in Hp' by exact Hne.
        destruct (Hall j h' p Hh' Hp') as [Hone' Hdisj'].
        split; [exact Hone' |].
        destruct Hdisj' as [Hret | Hf]; [left; exact Hret | right].
        cbn [borrowing]. rewrite put_record_ids.
        rewrite bool_decide_eq_false_2 by exact Hfresh.
        apply not_elem_of_cons. split; [| exact Hf].
        intros Heq. rewrite Hid in Heq. apply generateId_inj in Heq.
        subst h'. apply Hne. exact (NoDup_lookup _ _ _ _ Hnd Hh Hh').
    + destruct (Hk false) as [r Hr]. rewrite Hr.
      apply (borrowers_read hexes ps s i h _ Hinv Hh); [exact I |].
      left. eexists. reflexivity.
Qed.

Lemma borrowers_run hexes sched :
  NoDup hexes ->
  forall ps s,
    borrowers hexes ps s ->
    borrowers hexes (sched_run sched ps s).1 (sched_run sched ps s).2.
Proof.
  intros Hnd. induction sched as [| i rest IH]; intros ps s Hinv; simpl.
  - exact Hinv.
  - destruct (ps !! i) as [p |] eqn:Hp; [| apply IH, Hinv].
    pose proof (borrowers_step hexes ps s i p Hnd Hinv Hp) as Hstep.
    destruct (step p s) as [p' s']. apply IH, Hstep.
Qed.

(** X19.  However many borrow requests run interleaved, the counters stay
    equal to what the table says: when the requests draw different
    identifiers, all new to the table, and the store starts with every
    book's [availableCopies = totalCopies - (its active records)] and
    every user's [currentBorrowedCount = (the user's active records)],
    both equations hold after every schedule. *)
Theorem concurrent_borrows_keep_counters key borrows sched s0 :
  counters_match s0 ->
  NoDup (snd <$> borrows) ->
  (forall h,
     h ∈ snd <$> borrows ->
     generateId "brw" h ∉ br_id <$> borrowing s0) ->
  counters_match (sched_run sched (borrowing_pool key borrows) s0).2.
Proof.
  intros Hc Hnd Hfresh.
  apply (borrowers_run (snd <$> borrows) sched Hnd).
  split; [exact Hc |].
  split; [unfold borrowing_pool; rewrite !length_fmap; reflexivity |].
  intros j h p Hh Hp. unfold borrowing_pool in Hp.
  rewrite list_lookup_fmap in Hh. rewrite list_lookup_fmap in Hp.
  destruct (borrows !! j) as [[[event ts] hex] |] eqn:Hj; [| discriminate].
  injection Hh as <-. injection Hp as <-. cbn.
  split; [apply one_borrow_borrowBook |].
  right. apply Hfresh. apply list_elem_of_fmap.
  exists (event, ts, hex). split; [reflexivity |].
  apply list_elem_of_lookup. exists j. exact Hj.
Qed.

Lemma concurrent_borrows_keep_counters_witness :
  counters_match
    (sched_run [0; 0; 1; 1; 0; 1]%nat
       (borrowing_pool None
          [ (ask "bk_000001", 1000, "00000a");
            (ask "bk_000002", 1001, "00000b") ])
       shelf).2.
Proof.
  apply concurrent_borrows_keep_counters.
  - split; apply (bool_decide_unpack _); vm_compute; exact I.
  - apply (bool_decide_unpack _). vm_compute. exact I.
  - intros h _. vm_compute. apply not_elem_of_nil.
Defined.

(** ** What a request leaves alone *)

(** X20.  A borrow or return request changes at most the book and the user
    it names: run alone on any store, an accepted request for book [b] and
    user [u] leaves every other book and every other user as they were, and
    the borrowing table keeps all its identifiers. *)
Theorem only_named_items_change key req s b u dd :
  accepted key (event_of req) b u dd ->
  let s' := (run (handler key req) s).2 in
  (forall b', b' <> b -> books s' !! b' = books s !! b')
  /\ (forall u', u' <> u -> users s' !! u' = users s !! u')
  /\ br_id <$> borrowing s ⊆ br_id <$> borrowing s'.
Proof.
  intros Hacc s'. subst s'.
  destruct req as [event ts hex | event ts]; cbn [handler event_of] in *.
  - rewrite (borrowBook_accepted _ _ _ _ _ _ _ Hacc). cbn [run].
    unfold borrow_book.
    destruct (books s !! b) as [bk |]; [| repeat split; reflexivity].
    case_match; [repeat split; reflexivity |].
    cbn [run]. unfold borrow_user.
    destruct (users s !! u) as [usr |]; [| repeat split; reflexivity].
    case_match; [repeat split; reflexivity |].
    case_match; [| repeat split; reflexivity].
    cbn [run].
    destruct (transactWrite _ s) as [s' |] eqn:Htx;
      [| repeat split; reflexivity].
    apply borrow_items_inv in Htx as (bk' & usr' & _ & _ & _ & ->).
    cbn [run snd books users borrowing borrow_done].
    split; [intros b' Hne; apply lookup_insert_ne; congruence |].
    split; [intros u' Hne; apply lookup_insert_ne; congruence |].
    rewrite put_record_ids. case_bool_decide; [reflexivity |].
    intros x Hx. right. exact Hx.
  - rewrite (returnBook_accepted _ _ _ _ _ _ Hacc). cbn [run].
    unfold return_record.
    destruct (query_UserIndex u active b s) as [| r rest];
      [repeat split; reflexivity |].
    cbn [run].
    destruct (transactWrite _ s) as [s' |] eqn:Htx;
      [| repeat split; reflexivity].
    apply return_items_inv in Htx as (bk' & usr' & _ & _ & _ & ->).
    cbn [run snd books users borrowing return_done].
    split; [intros b' Hne; apply lookup_insert_ne; congruence |].
    split; [intros u' Hne; apply lookup_insert_ne; congruence |].
    rewrite update_record_ids. reflexivity.
Qed.

Lemma only_named_items_change_witness :
  books (run (borrowBook None 1000 "a1b2c3" (ask "bk_000001")) shelf).2
    !! "bk_000002"
  = Some book2.
Proof.
  apply (proj1 (only_named_items_change None
                  (Borrow (ask "bk_000001") 1000 "a1b2c3") shelf
                  "bk_000001" "usr_000001" None
                  (request_accepted "bk_000001" "usr_000001" None
                     eq_refl eq_refl))
           "bk_000002").
  discriminate.
Defined.

(** ** Instances of the statements above *)

Lemma drawn_id_well_formed_witness :
  invalid_id "bk_" (Some (drawn_id "bk" Byte.xab Byte.xcd Byte.xef)) = false
  /\ (drawn_id "bk" Byte.xab Byte.xcd Byte.xef
      = drawn_id "bk" Byte.xab Byte.xcd Byte.xef ->
      Byte.xab = Byte.xab /\ Byte.xcd = Byte.xcd /\ Byte.xef = Byte.xef).
Proof.
  split.
  - apply (proj1 (drawn_id_well_formed "bk" Byte.xab Byte.xcd Byte.xef)).
  - apply (proj2 (drawn_id_well_formed "bk" Byte.xab Byte.xcd Byte.xef)).
Defined.

Lemma validateApiKey_accepts_witness :
  validateApiKey None (ask "bk_000001") = None.
Proof.
  apply (proj1 (validateApiKey_accepts None (ask "bk_000001"))).
  left. reflexivity.
Defined.

(** A request whose book identifier is too short. *)
Lemma store_untouched_iff_rejected_witness :
  exists r,
    run (borrowBook None 1000 "a1b2c3" (ask "bk_12")) library = (r, library)
    /\ (statusCode r = 400 \/ statusCode r = 401 \/ statusCode r = 500).
Proof.
  apply (proj2 (store_untouched_iff_rejected None
                  (Borrow (ask "bk_12") 1000 "a1b2c3") library)).
  reflexivity.
Defined.
